(** * Mosaic image augmentation: the composer of [main.py]

    A shallow embedding of [main.py] and the properties of its quadrant
    geometry, box remapping, canvas writes and output naming.

    Python [float] is IEEE-754 binary64.  It is modelled by the
    [spec_float] datatype of the Standard Library with the reference
    operations [SFmul], [SFadd], [SFsub] at precision 53 and maximal
    exponent 1024 (round to nearest, ties to even), so that every product
    and sum of the source rounds here as it does when the program runs.

    The file has two parts: the definitions (the embedding, then the
    notions the statements need), and the theorems. *)

From Stdlib Require Import ZArith Lia Bool String Ascii.
From Stdlib Require Import Floats.SpecFloat.
From stdpp Require Import base list strings.

Local Open Scope Z_scope.

(* ================================================================== *)
(** * Part I: definitions *)
(* ================================================================== *)

(** ** Exceptions and results *)

(** The exceptions a run can end with.  [ValueError], [OverflowError],
    [IndexError] and [NameError] are raised by the Python and numpy
    primitives the source calls.  [InvalidGeometry] and [CropFailure] are
    the failures of the external cropper; there is no exception class of
    the source's own. *)
Inductive exn : Type :=
  | ValueError
  | OverflowError
  | IndexError
  | NameError
  | InvalidGeometry
  | CropFailure (code : Z).

Inductive result (A : Type) : Type :=
  | Ok (a : A)
  | Raise (e : exn).
Arguments Ok {A} a.
Arguments Raise {A} e.

Definition is_ok {A} (r : result A) : bool :=
  match r with Ok _ => true | Raise _ => false end.

#[global] Instance result_ret : MRet result := fun A a => Ok a.
#[global] Instance result_bind : MBind result := fun A B f r =>
  match r with
  | Ok a => f a
  | Raise e => Raise e
  end.

(** ** Binary64 floating point *)

Module Float64.

Definition prec : Z := 53.
Definition emax : Z := 1024.

Definition float : Type := spec_float.

(** A well-formed binary64 datum: mantissa canonical, exponent in range. *)
Definition is_float (f : float) : Prop := valid_binary prec emax f = true.

Definition float_mul : float -> float -> float := SFmul prec emax.
Definition float_add : float -> float -> float := SFadd prec emax.
Definition float_sub : float -> float -> float := SFsub prec emax.
Definition float_div : float -> float -> float := SFdiv prec emax.

Definition float_lt : float -> float -> bool := SFltb.
Definition float_le : float -> float -> bool := SFleb.
Definition float_eq : float -> float -> bool := SFeqb.

(** [float(n)] of a Python [int]: correctly rounded, [OverflowError] when
    the integer is too large for a double. *)
Definition float_of_int (n : Z) : result float :=
  match binary_normalize prec emax n 0 false with
  | S754_infinity _ => Raise OverflowError
  | f => Ok f
  end.

(** [int(x)] of a Python [float]: truncation toward zero; [ValueError] on
    NaN and [OverflowError] on an infinity. *)
Definition int_of_float (x : float) : result Z :=
  match x with
  | S754_zero _ => Ok 0
  | S754_nan => Raise ValueError
  | S754_infinity _ => Raise OverflowError
  | S754_finite s m e => Ok (cond_Zopp s (Z.shiftl (Zpos m) e))
  end.

(** [n * x] with [n] an [int] and [x] a [float]: the integer is converted
    first. *)
Definition int_mul_float (n : Z) (x : float) : result float :=
  f ← float_of_int n; Ok (float_mul f x).

Definition zero : float := S754_zero false.

(** [1.0], which is also [float(1)]. *)
Definition one : float := S754_finite false 4503599627370496 (-52).

(** [1 - x] with the [int] literal [1]. *)
Definition one_minus (x : float) : float := float_sub one x.

(** The double a decimal literal [n/d] denotes, for [n] and [d] below
    [2^53]: both convert exactly and the quotient is rounded once. *)
Definition lit (n d : Z) : float :=
  float_div (binary_normalize prec emax n 0 false)
            (binary_normalize prec emax d 0 false).

(** The smallest positive double, [2^-1074] (Python prints [5e-324]). *)
Definition min_subnormal : float := S754_finite false 1 (-1074).

(** *** Values and rounding

    Every finite double, and every exact sum or product of two of them,
    is an integer multiple of [2^-2148].  [Fval f] is the value of [f]
    counted in that unit. *)
Definition scale : Z := 2148.

Definition Fval (f : float) : Z :=
  match f with
  | S754_finite s m e => cond_Zopp s (Zpos m * 2 ^ (e + scale))
  | _ => 0
  end.

(** The value of [1.0]. *)
Definition U : Z := 2 ^ scale.

(** Zero or a well-formed finite number. *)
Definition finite (f : float) : Prop :=
  is_float f /\
  match f with S754_zero _ | S754_finite _ _ _ => True | _ => False end.

(** The spacing of the doubles around [x > 0] is [2 ^ grid x]. *)
Definition grid (x : Z) : Z := Z.max (Z.log2 x + 1 - prec) (scale - 1074).

(** Division by [2^g] rounded to nearest, ties to even. *)
Definition rne_div (x g : Z) : Z :=
  let q := x / 2 ^ g in
  match 2 * (x mod 2 ^ g) ?= 2 ^ g with
  | Lt => q
  | Eq => if Z.even q then q else q + 1
  | Gt => q + 1
  end.

(** The double nearest to [x >= 0], ties to even. *)
Definition RNE (x : Z) : Z := rne_div x (grid x) * 2 ^ grid x.

Definition RNEs (z : Z) : Z := Z.sgn z * RNE (Z.abs z).

(** [f] is a double nearest to the fraction [n/d]: it is at most half
    a spacing away. *)
Definition nearest_double (n d : Z) (f : float) : bool :=
  2 * Z.abs (d * Fval f - n * U) <=? d * 2 ^ grid (Fval f).

(** [y >= 0] is the value of a double (below the overflow threshold). *)
Definition rep (y : Z) : Prop := 0 <= y /\ y mod 2 ^ grid y = 0.

(** The exact product of [a] and [b] exceeds [2^-1075], half of the
    smallest positive double: it does not round to zero. *)
Definition no_underflow (a b : float) : Prop :=
  2 ^ (scale - 1075) < Fval a * Fval b / U.

(** [floor] of the value of a float ([0] where it has none). *)
Definition float_floor (x : float) : Z :=
  match x with
  | S754_finite s m e => Z.shiftl (cond_Zopp s (Zpos m)) e
  | _ => 0
  end.

(** [0 < s < 1], [0 <= x <= 1] and [0 < w <= 1] as Python compares. *)
Definition open_unit (s : float) : Prop :=
  float_lt zero s = true /\ float_lt s one = true.

Definition closed_unit (x : float) : Prop :=
  float_le zero x = true /\ float_le x one = true.

Definition positive_unit (w : float) : Prop :=
  float_lt zero w = true /\ float_le w one = true.

End Float64.
Import Float64.

(** ** numpy arrays and slices *)

Definition pixel : Type := Z * Z * Z.

(** An [h x w x 3] array of [uint8]. *)
Record image : Type := { height : Z; width : Z; pix : Z -> Z -> pixel }.

(** [np.empty((h, w, 3), dtype='uint8')]: numpy refuses a negative
    dimension and a shape whose size does not fit a signed 64-bit index;
    the content is whatever was in memory. *)
Definition np_empty (memory : Z -> Z -> pixel) (h w : Z) : result image :=
  if (h <? 0) || (w <? 0) then Raise ValueError
  else if 2 ^ 63 <=? h * w * 3 then Raise ValueError
  else Ok {| height := h; width := w; pix := memory |}.

(** Python clips a slice bound [d] against the length [n]: [a[:d]] is
    [[0, slice_bound d n)] and [a[d:]] is [[slice_bound d n, n)]. *)
Definition slice_bound (d n : Z) : Z :=
  if d <? 0 then Z.max (d + n) 0 else Z.min d n.

Record region : Type := { row_lo : Z; row_hi : Z; col_lo : Z; col_hi : Z }.

Definition in_region (rg : region) (r c : Z) : bool :=
  (row_lo rg <=? r) && (r <? row_hi rg) && (col_lo rg <=? c) && (c <? col_hi rg).

(** numpy broadcasts a source axis of length one over the target axis. *)
Definition broadcastable (src dst : Z) : bool := (src =? dst) || (src =? 1).

(** [canvas[row_lo:row_hi, col_lo:col_hi, :] = src]; [ValueError] when
    the shapes cannot be broadcast. *)
Definition set_region (canvas : image) (rg : region) (src : image) : result image :=
  if broadcastable (height src) (row_hi rg - row_lo rg)
     && broadcastable (width src) (col_hi rg - col_lo rg)
  then Ok {| height := height canvas;
             width := width canvas;
             pix := fun r c =>
               if in_region rg r c
               then pix src (if height src =? 1 then 0 else r - row_lo rg)
                            (if width src =? 1 then 0 else c - col_lo rg)
               else pix canvas r c |}
  else Raise ValueError.

(** ** Quadrants *)

Inductive quadrant : Type := TopLeft | TopRight | BottomLeft | BottomRight.

#[global] Instance quadrant_eq_dec : EqDecision quadrant.
Proof. solve_decision. Defined.

(** The dispatch of the loop body: [if not i], [elif i == 1],
    [elif i == 2], [else]. *)
Definition quadrant_of_index (i : Z) : quadrant :=
  if i =? 0 then TopLeft
  else if i =? 1 then TopRight
  else if i =? 2 then BottomLeft
  else BottomRight.

(** The position in [image_file_list] each branch reads. *)
Definition file_index (q : quadrant) : nat :=
  match q with
  | TopLeft => 0 | TopRight => 1 | BottomLeft => 2 | BottomRight => 3
  end%nat.

Definition is_left (q : quadrant) : bool :=
  match q with TopLeft | BottomLeft => true | _ => false end.

Definition is_top (q : quadrant) : bool :=
  match q with TopLeft | TopRight => true | _ => false end.

(** [w_i] and [h_i] of each branch. *)
Definition target_w (q : quadrant) (mo_w div_point_x : Z) : Z :=
  if is_left q then div_point_x else mo_w - div_point_x.

Definition target_h (q : quadrant) (mo_h div_point_y : Z) : Z :=
  if is_top q then div_point_y else mo_h - div_point_y.

(** The canvas slice each branch assigns: [[:div_point_y, :div_point_x]],
    [[:div_point_y, div_point_x:]], [[div_point_y:, :div_point_x]],
    [[div_point_y:, div_point_x:]]. *)
Definition quadrant_region (q : quadrant) (mo_h mo_w div_point_y div_point_x : Z) : region :=
  let by_ := slice_bound div_point_y mo_h in
  let bx := slice_bound div_point_x mo_w in
  {| row_lo := if is_top q then 0 else by_;
     row_hi := if is_top q then by_ else mo_h;
     col_lo := if is_left q then 0 else bx;
     col_hi := if is_left q then bx else mo_w |}.

(** Lines 102-103: the split points. *)
Definition split_points (mo_w mo_h : Z) (scale_x scale_y : float) : result (Z * Z) :=
  px ← int_mul_float mo_w scale_x;
  div_point_x ← int_of_float px;
  py ← int_mul_float mo_h scale_y;
  div_point_y ← int_of_float py;
  Ok (div_point_x, div_point_y).

(** ** Remapping the boxes of a quadrant *)

(** A box as the cropper returns it: the tuple [(x_center, y_center, w, h)]. *)
Definition bbox : Type := float * float * float * float.

(** The four affine maps of each branch. *)
Definition new_x (q : quadrant) (scale_x x : float) : float :=
  if is_left q then float_mul x scale_x
  else float_add (float_mul x (one_minus scale_x)) scale_x.

Definition new_w (q : quadrant) (scale_x w : float) : float :=
  if is_left q then float_mul w scale_x
  else float_mul w (one_minus scale_x).

Definition new_y (q : quadrant) (scale_y y : float) : float :=
  if is_top q then float_mul y scale_y
  else float_add (float_mul y (one_minus scale_y)) scale_y.

Definition new_h (q : quadrant) (scale_y h : float) : float :=
  if is_top q then float_mul h scale_y
  else float_mul h (one_minus scale_y).

(** The factor a width, respectively a height, is multiplied by. *)
Definition x_span (q : quadrant) (scale_x : float) : float :=
  if is_left q then scale_x else one_minus scale_x.

Definition y_span (q : quadrant) (scale_y : float) : float :=
  if is_top q then scale_y else one_minus scale_y.

(** [np.zeros((n, 4)).tolist()] *)
Definition zeros_rows (n : nat) : list (list float) :=
  replicate n (replicate 4 zero).

(** [rows[i][j] = v] *)
Definition set_item2 (rows : list (list float)) (i j : nat) (v : float)
  : result (list (list float)) :=
  match rows !! i with
  | None => Raise IndexError
  | Some row =>
      if decide (j < length row)%nat
      then Ok (<[i := <[j := v]> row]> rows)
      else Raise IndexError
  end.

(** The body of [for i, box in enumerate(bboxes_k)]: the four assignments
    in the order of the source (x, w, y, h). *)
Definition remap_step (q : quadrant) (scale_x scale_y : float)
    (rows : list (list float)) (i : nat) (box : bbox) : result (list (list float)) :=
  let '(x, y, w, h) := box in
  rows ← set_item2 rows i 0 (new_x q scale_x x);
  rows ← set_item2 rows i 2 (new_w q scale_x w);
  rows ← set_item2 rows i 1 (new_y q scale_y y);
  set_item2 rows i 3 (new_h q scale_y h).

Fixpoint remap_loop (q : quadrant) (scale_x scale_y : float)
    (rows : list (list float)) (i : nat) (bboxes : list bbox)
  : result (list (list float)) :=
  match bboxes with
  | [] => Ok rows
  | box :: rest =>
      rows ← remap_step q scale_x scale_y rows i box;
      remap_loop q scale_x scale_y rows (S i) rest
  end.

(** [bboxes_k_new]: the empty list when there is no box, else the zero
    rows filled in by the loop. *)
Definition remap_bboxes (q : quadrant) (scale_x scale_y : float) (bboxes : list bbox)
  : result (list (list float)) :=
  let rows := if (length bboxes =? 0)%nat then [] else zeros_rows (length bboxes) in
  remap_loop q scale_x scale_y rows 0 bboxes.

(** What the loop computes for one box, as one row. *)
Definition remap_box (q : quadrant) (scale_x scale_y : float) (box : bbox) : list float :=
  let '(x, y, w, h) := box in
  [new_x q scale_x x; new_y q scale_y y; new_w q scale_x w; new_h q scale_y h].

(** ** Output paths *)

Local Open Scope string_scope.

(** [s.split(c)] *)
Fixpoint split_on (c : ascii) (s : string) : list string :=
  match s with
  | EmptyString => [EmptyString]
  | String a rest =>
      if Ascii.eqb a c then EmptyString :: split_on c rest
      else match split_on c rest with
           | p :: ps => String a p :: ps
           | [] => [String a EmptyString]
           end
  end.

(** [l[i]] *)
Definition get_item {A} (l : list A) (i : nat) : result A :=
  match l !! i with
  | Some a => Ok a
  | None => Raise IndexError
  end.

(** [image_file_list[k].split('.')[0]] *)
Definition name_stem (image_file_list : list string) (k : nat) : result string :=
  name ← get_item image_file_list k;
  get_item (split_on "." name) 0.

(** [create_data_store_path]; [sep] is [os.path.sep]. *)
Definition create_data_store_path (sep : string)
    (output_image_dir output_label_dir : string) (image_file_list : list string)
  : result (string * string) :=
  a0 ← name_stem image_file_list 0;
  a1 ← name_stem image_file_list 1;
  a2 ← name_stem image_file_list 2;
  a3 ← name_stem image_file_list 3;
  b0 ← name_stem image_file_list 0;
  b1 ← name_stem image_file_list 1;
  b2 ← name_stem image_file_list 2;
  b3 ← name_stem image_file_list 3;
  Ok (output_image_dir +:+ sep +:+
        ("mo_" +:+ a0 +:+ "_" +:+ a1 +:+ "_" +:+ a2 +:+ "_" +:+ a3 +:+ ".jpg"),
      output_label_dir +:+ sep +:+
        ("mo_" +:+ b0 +:+ "_" +:+ b1 +:+ "_" +:+ b2 +:+ "_" +:+ b3 +:+ ".txt")).

(** The part of a name before its first dot. *)
Fixpoint before_first_dot (s : string) : string :=
  match s with
  | EmptyString => EmptyString
  | String a rest => if Ascii.eqb a "." then EmptyString else String a (before_first_dot rest)
  end.

(** The claim's words, "the source file name with its extension removed":
    the name without its last dot and what follows it; a name without a
    dot has no extension. *)
Fixpoint has_dot (s : string) : bool :=
  match s with
  | EmptyString => false
  | String a rest => Ascii.eqb a "." || has_dot rest
  end.

Fixpoint extension_removed (s : string) : string :=
  match s with
  | EmptyString => EmptyString
  | String a rest =>
      if Ascii.eqb a "." && negb (has_dot rest) then EmptyString
      else String a (extension_removed rest)
  end.

(** The number of dots in a name. *)
Fixpoint count_dots (s : string) : nat :=
  match s with
  | EmptyString => 0
  | String a rest => ((if Ascii.eqb a "." then 1 else 0) + count_dots rest)%nat
  end.

(** The paths the claim describes, for a given image extension. *)
Definition claimed_paths (ext : string) (output_image_dir output_label_dir : string)
    (n0 n1 n2 n3 : string) : string * string :=
  (output_image_dir +:+ "/" +:+
     ("mo_" +:+ extension_removed n0 +:+ "_" +:+ extension_removed n1 +:+ "_" +:+
      extension_removed n2 +:+ "_" +:+ extension_removed n3 +:+ "." +:+ ext),
   output_label_dir +:+ "/" +:+
     ("mo_" +:+ extension_removed n0 +:+ "_" +:+ extension_removed n1 +:+ "_" +:+
      extension_removed n2 +:+ "_" +:+ extension_removed n3 +:+ ".txt")).

Local Close Scope string_scope.

(** ** The composer *)

Section Composer.

(** Class labels are opaque to the composer. *)
Context {label : Type}.

(** What the collaborators depend on besides their arguments: the state
    of the random generator and the files of the input directories. *)
Context {world : Type}.

(** The third component of what [utils.preprocess] returns, which the
    source discards. *)
Context {ignored : Type}.

(** What the transform returns, and so [random_crop_savebboxes]: the
    image, the boxes and the class labels. *)
Record cropped : Type := {
  transformed_image : image;
  transformed_bboxes : list bbox;
  transformed_class_labels : list label
}.

(** The helpers of [utils] that [random_crop_savebboxes] calls:
    [preprocess(image_name, image_dir, label_dir)],
    [read_label(label_path)] and [read_img(image_path)]. *)
Variable preprocess :
  string -> string -> string -> world -> result (string * string * ignored) * world.
Variable read_label : string -> world -> result (list bbox * list label) * world.
Variable read_img : string -> world -> result image * world.

(** albumentations: [A.Compose([A.RandomResizedCrop(expected_h,
    expected_w)], bbox_params=A.BboxParams(format='yolo',
    label_fields=['class_labels'], min_area=min_area,
    min_visibility=min_visibility))] builds, from [expected_h],
    [expected_w], [min_area] and [min_visibility], the transform that is
    then called with the image, the boxes and the class labels. *)
Variable compose_random_resized_crop :
  Z -> Z -> Z -> float ->
  result (image -> list bbox -> list label -> world -> result cropped * world).

(** The content of freshly allocated memory. *)
Variable memory : Z -> Z -> pixel.

(** A file written by the run. *)
Inductive file : Type :=
  | ImageFile (path : string) (img : image)
  | LabelFile (path : string) (bboxes : list (list float)) (class_labels : list label).

Record state : Type := { st_world : world; st_files : list file }.

(** Computations that may raise and that read and write the state. *)
Definition M (A : Type) : Type := state -> result A * state.

Definition ret {A} (a : A) : M A := fun st => (Ok a, st).

Definition bind {A B} (c : M A) (k : A -> M B) : M B :=
  fun st =>
    match c st with
    | (Ok a, st') => k a st'
    | (Raise e, st') => (Raise e, st')
    end.

Definition lift {A} (r : result A) : M A := fun st => (r, st).

(** A call of a collaborator: it sees and changes the world only. *)
Definition call {A} (f : world -> result A * world) : M A :=
  fun st =>
    let '(r, w) := f (st_world st) in
    (r, {| st_world := w; st_files := st_files st |}).

(** [random_crop_savebboxes] *)
Definition random_crop_savebboxes (image_name image_dir label_dir : string)
    (expected_h expected_w min_area : Z) (min_visibility : float) : M cropped :=
  bind (call (preprocess image_name image_dir label_dir))
    (fun '(image_path, label_path, _) =>
  bind (call (read_label label_path)) (fun '(bboxes, class_labels) =>
  bind (lift (compose_random_resized_crop expected_h expected_w min_area min_visibility))
    (fun transform =>
  bind (call (read_img image_path)) (fun image =>
  bind (call (transform image bboxes class_labels)) (fun transformed =>
  ret transformed))))).

(** Modelled from the spec: [utils.save_img], the ImageStore collaborator
    [write(Image, path) -> ()] of section 6; it stores the image under
    the path. *)
Definition save_img (img : image) (path : string) : M unit :=
  fun st => (Ok tt, {| st_world := st_world st;
                       st_files := st_files st ++ [ImageFile path img] |}).

(** Modelled from the spec: [utils.save_label], the LabelStore
    collaborator [write(boxes, labels, path) -> ()] of section 6; it
    stores the boxes and their labels under the path. *)
Definition save_label (bboxes : list (list float)) (class_labels : list label)
    (path : string) : M unit :=
  fun st => (Ok tt, {| st_world := st_world st;
                       st_files := st_files st ++ [LabelFile path bboxes class_labels] |}).

(** Modelled from the spec: [utils.display_img], the visualization
    overlay that section 1 puts out of scope; it shows the stored result
    and writes nothing. *)
Definition display_img (image_store_path label_store_path : string) : M unit :=
  ret tt.

(** The local variables the loop assigns: the canvas, and per branch
    [bboxes_k_new] with [class_labels_k]. *)
Record locals : Type := {
  new_img : image;
  branch_0 : option (list (list float) * list label);
  branch_1 : option (list (list float) * list label);
  branch_2 : option (list (list float) * list label);
  branch_3 : option (list (list float) * list label)
}.

Definition assign (q : quadrant) (img : image)
    (v : list (list float) * list label) (l : locals) : locals :=
  match q with
  | TopLeft =>
      {| new_img := img; branch_0 := Some v; branch_1 := branch_1 l;
         branch_2 := branch_2 l; branch_3 := branch_3 l |}
  | TopRight =>
      {| new_img := img; branch_0 := branch_0 l; branch_1 := Some v;
         branch_2 := branch_2 l; branch_3 := branch_3 l |}
  | BottomLeft =>
      {| new_img := img; branch_0 := branch_0 l; branch_1 := branch_1 l;
         branch_2 := Some v; branch_3 := branch_3 l |}
  | BottomRight =>
      {| new_img := img; branch_0 := branch_0 l; branch_1 := branch_1 l;
         branch_2 := branch_2 l; branch_3 := Some v |}
  end.

Definition branch (q : quadrant) (l : locals) : option (list (list float) * list label) :=
  match q with
  | TopLeft => branch_0 l
  | TopRight => branch_1 l
  | BottomLeft => branch_2 l
  | BottomRight => branch_3 l
  end.

(** Reading a local variable; [NameError] if the loop never assigned it. *)
Definition read_local {A} (v : option A) : M A :=
  match v with
  | Some a => ret a
  | None => lift (Raise NameError)
  end.

Section Run.

Variable image_file_list : list string.
Variables image_dir label_dir output_image_dir output_label_dir : string.
Variables mo_w mo_h : Z.
Variables scale_x scale_y : float.
Variable min_area : Z.
Variable min_visibility : float.
Variable display : bool.
Variable sep : string.

(** One branch of the loop body: crop, write the canvas slice, remap. *)
Definition quadrant_body (div_point_x div_point_y : Z) (i : Z) (l : locals) : M locals :=
  let q := quadrant_of_index i in
  let w := target_w q mo_w div_point_x in
  let h := target_h q mo_h div_point_y in
  bind (lift (get_item image_file_list (file_index q))) (fun image_name =>
  bind (random_crop_savebboxes image_name image_dir label_dir h w
          min_area min_visibility) (fun c =>
  bind (lift (set_region (new_img l)
                (quadrant_region q mo_h mo_w div_point_y div_point_x)
                (transformed_image c))) (fun img =>
  bind (lift (remap_bboxes q scale_x scale_y (transformed_bboxes c))) (fun bboxes_new =>
  ret (assign q img (bboxes_new, transformed_class_labels c) l))))).

(** [for i in range(4)] *)
Fixpoint for_range (body : Z -> locals -> M locals) (range : list Z) (l : locals)
  : M locals :=
  match range with
  | [] => ret l
  | i :: rest => bind (body i l) (for_range body rest)
  end.

(** [mosaic] *)
Definition mosaic : M unit :=
  bind (lift (np_empty memory mo_h mo_w)) (fun new_img0 =>
  bind (lift (split_points mo_w mo_h scale_x scale_y)) (fun '(div_point_x, div_point_y) =>
  bind (for_range (quadrant_body div_point_x div_point_y) [0; 1; 2; 3]
          {| new_img := new_img0; branch_0 := None; branch_1 := None;
             branch_2 := None; branch_3 := None |}) (fun l =>
  bind (read_local (branch_0 l)) (fun '(bboxes_0_new, class_labels_0) =>
  bind (read_local (branch_1 l)) (fun '(bboxes_1_new, class_labels_1) =>
  bind (read_local (branch_2 l)) (fun '(bboxes_2_new, class_labels_2) =>
  bind (read_local (branch_3 l)) (fun '(bboxes_3_new, class_labels_3) =>
  let new_class_labels :=
    class_labels_0 ++ class_labels_1 ++ class_labels_2 ++ class_labels_3 in
  let new_bboxes :=
    bboxes_0_new ++ bboxes_1_new ++ bboxes_2_new ++ bboxes_3_new in
  bind (lift (create_data_store_path sep output_image_dir output_label_dir
                image_file_list)) (fun '(image_store_path, label_store_path) =>
  bind (save_img (new_img l) image_store_path) (fun _ =>
  bind (save_label new_bboxes new_class_labels label_store_path) (fun _ =>
  if display then display_img image_store_path label_store_path else ret tt)))))))))).

(** The cropper call of branch [q], as the loop body issues it. *)
Definition crop_of (q : quadrant) (div_point_x div_point_y : Z) : M cropped :=
  bind (lift (get_item image_file_list (file_index q))) (fun image_name =>
  random_crop_savebboxes image_name image_dir label_dir
    (target_h q mo_h div_point_y) (target_w q mo_w div_point_x) min_area min_visibility).

(** *** A run of [mosaic] that completes, step by step

    What [np.empty] returned, the split points, and per branch what the
    cropper returned, the state after its call and the canvas after the
    branch's write. *)
Record run : Type := {
  run_canvas : image;
  run_div_x : Z;
  run_div_y : Z;
  run_crop : quadrant -> cropped;
  run_state : quadrant -> state;
  run_img : quadrant -> image;
  run_image_path : string;
  run_label_path : string
}.

(** [bboxes_k_new] and [class_labels_k] of a run. *)
Definition run_bboxes (r : run) (q : quadrant) : list (list float) :=
  map (remap_box q scale_x scale_y) (transformed_bboxes (run_crop r q)).

Definition run_labels (r : run) (q : quadrant) : list label :=
  transformed_class_labels (run_crop r q).

Definition branch_completes (r : run) (q : quadrant) (before : state) (canvas : image)
  : Prop :=
  crop_of q (run_div_x r) (run_div_y r) before = (Ok (run_crop r q), run_state r q) /\
  set_region canvas (quadrant_region q mo_h mo_w (run_div_y r) (run_div_x r))
    (transformed_image (run_crop r q)) = Ok (run_img r q).

Definition completes (st : state) (r : run) : Prop :=
  np_empty memory mo_h mo_w = Ok (run_canvas r) /\
  split_points mo_w mo_h scale_x scale_y = Ok (run_div_x r, run_div_y r) /\
  branch_completes r TopLeft st (run_canvas r) /\
  branch_completes r TopRight (run_state r TopLeft) (run_img r TopLeft) /\
  branch_completes r BottomLeft (run_state r TopRight) (run_img r TopRight) /\
  branch_completes r BottomRight (run_state r BottomLeft) (run_img r BottomLeft) /\
  create_data_store_path sep output_image_dir output_label_dir image_file_list =
    Ok (run_image_path r, run_label_path r).

(** The final box and label sequences of a run. *)
Definition new_bboxes (r : run) : list (list float) :=
  run_bboxes r TopLeft ++ run_bboxes r TopRight ++
  run_bboxes r BottomLeft ++ run_bboxes r BottomRight.

Definition new_class_labels (r : run) : list label :=
  run_labels r TopLeft ++ run_labels r TopRight ++
  run_labels r BottomLeft ++ run_labels r BottomRight.

(** The state a completed run leaves: the image file, then the label
    file. *)
Definition outcome (st : state) (r : run) : state :=
  {| st_world := st_world (run_state r BottomRight);
     st_files := st_files st ++
       [ImageFile (run_image_path r) (run_img r BottomRight);
        LabelFile (run_label_path r) (new_bboxes r) (new_class_labels r)] |}.

End Run.

End Composer.

(** ** Data for the examples *)

Local Open Scope string_scope.

Definition blank (h w : Z) : image :=
  {| height := h; width := w; pix := fun _ _ => (0, 0, 0) |}.

(** The local box [(0.5, 0.5, 0.2, 0.2)]. *)
Definition sample_box : bbox := (lit 5 10, lit 5 10, lit 2 10, lit 2 10).

(** A box of the smallest positive width: [(0.5, 0.5, 5e-324, 0.5)]. *)
Definition thin_box : bbox := (lit 5 10, lit 5 10, min_subnormal, lit 5 10).

(** Collaborators for the examples, with the number of transforms run
    so far as their world.  [preprocess] joins the directory and the
    name, the readers return [boxes], each labelled 7, and a blank
    source image; as the contract of the cropper asks, the transform
    cannot be built for a non-positive target size and otherwise returns
    an image of exactly the target size, blank, with the boxes and
    labels it was given. *)
Definition sample_preprocess (image_name image_dir label_dir : string) (calls : nat)
  : result (string * string * unit) * nat :=
  (Ok (image_dir +:+ "/" +:+ image_name, label_dir +:+ "/" +:+ image_name, tt), calls).

Definition sample_read_label (boxes : list bbox) (label_path : string) (calls : nat)
  : result (list bbox * list Z) * nat :=
  (Ok (boxes, map (fun _ => 7%Z) boxes), calls).

Definition sample_read_img (image_path : string) (calls : nat) : result image * nat :=
  (Ok (blank 600 400), calls).

Definition sample_compose (expected_h expected_w min_area : Z) (min_visibility : float)
  : result (image -> list bbox -> list Z -> nat -> result (cropped (label := Z)) * nat) :=
  if ((expected_h <=? 0) || (expected_w <=? 0))%Z
  then Raise InvalidGeometry
  else Ok (fun image bboxes class_labels calls =>
             (Ok {| transformed_image := blank expected_h expected_w;
                    transformed_bboxes := bboxes;
                    transformed_class_labels := class_labels |},
              S calls)).

Definition sample_names : list string := ["a.jpg"; "b.jpg"; "c.png"; "d.jpeg"].

Definition sample_memory : Z -> Z -> pixel := fun _ _ => (255, 255, 255).

Definition sample_state : state (label := Z) (world := nat) :=
  {| st_world := 0%nat; st_files := [] |}.

(** [mosaic(sample_names, "in", "in", "out", "out", 800, 800, scale_x,
    scale_y, 200, 0.1, False)] on a POSIX system. *)
Definition sample_mosaic (boxes : list bbox) (scale_x scale_y : float)
  : M (label := Z) (world := nat) unit :=
  mosaic sample_preprocess (sample_read_label boxes) sample_read_img sample_compose
    sample_memory sample_names "in" "in" "out" "out"
    800 800 scale_x scale_y 200 (lit 1 10) false "/".


Definition sample_canvas : image :=
  {| height := 800; width := 800; pix := sample_memory |}.

Definition sample_locals : locals (label := Z) :=
  {| new_img := sample_canvas; branch_0 := None; branch_1 := None;
     branch_2 := None; branch_3 := None |}.

(** The value of a result, [d] if it raised. *)
Definition value_or {A} (d : A) (r : result A) : A :=
  match r with Ok a => a | Raise _ => d end.

(** The loop body and the completion of a run, for the sample call. *)
Definition sample_body (boxes : list bbox) (scale_x scale_y : float)
    (div_point_x div_point_y i : Z) (l : locals (label := Z))
  : M (label := Z) (world := nat) locals :=
  quadrant_body sample_preprocess (sample_read_label boxes) sample_read_img
    sample_compose sample_names "in" "in" 800 800
    scale_x scale_y 200 (lit 1 10) div_point_x div_point_y i l.

Definition sample_crop_of (boxes : list bbox) (q : quadrant) (div_point_x div_point_y : Z)
  : M (label := Z) (world := nat) cropped :=
  crop_of sample_preprocess (sample_read_label boxes) sample_read_img
    sample_compose sample_names "in" "in" 800 800 200 (lit 1 10)
    q div_point_x div_point_y.

Definition sample_completes (boxes : list bbox) (scale_x scale_y : float)
    (st : state (label := Z) (world := nat)) (r : run) : Prop :=
  completes sample_preprocess (sample_read_label boxes) sample_read_img sample_compose
    sample_memory sample_names "in" "in" "out" "out"
    800 800 scale_x scale_y 200 (lit 1 10) "/" st r.

(** The run of the sample call with scales 0.4 and 0.6, step by step. *)
Definition sample_cropped (boxes : list bbox) (q : quadrant) : cropped (label := Z) :=
  {| transformed_image := blank (target_h q 800 480) (target_w q 800 320);
     transformed_bboxes := boxes;
     transformed_class_labels := map (fun _ => 7) boxes |}.

Definition sample_write (canvas : image) (q : quadrant) : image :=
  value_or canvas
    (set_region canvas (quadrant_region q 800 800 480 320)
       (blank (target_h q 800 480) (target_w q 800 320))).

Definition sample_img (q : quadrant) : image :=
  match q with
  | TopLeft => sample_write sample_canvas TopLeft
  | TopRight => sample_write (sample_write sample_canvas TopLeft) TopRight
  | BottomLeft =>
      sample_write (sample_write (sample_write sample_canvas TopLeft) TopRight)
        BottomLeft
  | BottomRight =>
      sample_write
        (sample_write (sample_write (sample_write sample_canvas TopLeft) TopRight)
           BottomLeft) BottomRight
  end.

Definition sample_run (boxes : list bbox) : run (label := Z) (world := nat) :=
  {| run_canvas := sample_canvas;
     run_div_x := 320;
     run_div_y := 480;
     run_crop := sample_cropped boxes;
     run_state := fun q => {| st_world := S (file_index q); st_files := [] |};
     run_img := sample_img;
     run_image_path := "out/mo_a_b_c_d.jpg";
     run_label_path := "out/mo_a_b_c_d.txt" |}.

Local Close Scope string_scope.

(** ** The script: the [__main__] block *)

Local Open Scope string_scope.

(** [s.endswith(suffix)] *)
Fixpoint endswith (s suffix : string) : bool :=
  String.eqb s suffix ||
  match s with
  | EmptyString => false
  | String _ rest => endswith rest suffix
  end.

(** The condition of the comprehension of lines 246-247. *)
Definition is_pic (img : string) : bool :=
  endswith img ".jpg" || endswith img ".jpeg" || endswith img ".png".

Local Close Scope string_scope.

(** [math.floor(x)] of a Python [float]. *)
Definition math_floor (x : float) : result Z :=
  match x with
  | S754_nan => Raise ValueError
  | S754_infinity _ => Raise OverflowError
  | _ => Ok (float_floor x)
  end.

(** [population[i]] for a Python [int]: a negative index counts from the
    end. *)
Definition getitem {A} (population : list A) (i : Z) : result A :=
  let j := if i <? 0 then i + Z.of_nat (length population) else i in
  if j <? 0 then Raise IndexError else get_item population (Z.to_nat j).

(** What the script can end with besides returning: the exit of the
    argument parser, an error of a call of the operating system, or an
    exception raised in [random.choices] or in [mosaic]; the script
    catches nothing. *)
Inductive script_error : Type :=
  | SystemExit (code : Z)
  | OSError (errno : Z)
  | Uncaught (e : exn).

Inductive ended (A : Type) : Type :=
  | Returned (a : A)
  | Aborted (e : script_error).
Arguments Returned {A} a.
Arguments Aborted {A} e.

(** The namespace [create_args] returns: the eight options of lines
    220-229. *)
Record namespace : Type := {
  arg_ip_dir : string;
  arg_op_dir : string;
  arg_width : Z;
  arg_height : Z;
  arg_scale_x : float;
  arg_scale_y : float;
  arg_min_area : Z;
  arg_min_vi : float
}.

Section Script.

Context {label world ignored : Type}.

Variable preprocess :
  string -> string -> string -> world -> result (string * string * ignored) * world.
Variable read_label : string -> world -> result (list bbox * list label) * world.
Variable read_img : string -> world -> result image * world.
Variable compose_random_resized_crop :
  Z -> Z -> Z -> float ->
  result (image -> list bbox -> list label -> world ->
          result (cropped (label := label)) * world).
Variable memory : Z -> Z -> pixel.

(** [random.random()]: the next float of the generator. *)
Variable random : world -> float * world.

(** [create_args()]: the parser of lines 218-231 run on the command
    line; it returns the namespace or exits. *)
Variable create_args : world -> ended namespace * world.

(** [osp.exists(path)], [os.makedirs(path)], [print(text)] and
    [os.listdir(path)]. *)
Variable osp_exists : string -> world -> bool * world.
Variable os_makedirs : string -> world -> ended unit * world.
Variable print : string -> world -> unit * world.
Variable os_listdir : string -> world -> ended (list string) * world.

(** [os.path.sep] *)
Variable sep : string.

(** The comprehension of [random.choices]:
    [[population[floor(random() * n)] for i in _repeat(None, k)]]. *)
Fixpoint choices_items {A} (population : list A) (n : float) (k : nat) (w : world)
  : result (list A) * world :=
  match k with
  | O => (Ok [], w)
  | S k' =>
      let '(r, w1) := random w in
      match (i ← math_floor (float_mul r n); getitem population i) with
      | Raise e => (Raise e, w1)
      | Ok x =>
          match choices_items population n k' w1 with
          | (Ok xs, w2) => (Ok (x :: xs), w2)
          | (Raise e, w2) => (Raise e, w2)
          end
      end
  end.

(** [random.choices(population, k=k)] without weights, as the standard
    library has it: [n = len(population)], [n += 0.0], then the
    comprehension. *)
Definition choices {A} (population : list A) (k : nat) (w : world)
  : result (list A) * world :=
  match float_of_int (Z.of_nat (length population)) with
  | Raise e => (Raise e, w)
  | Ok n => choices_items population (float_add n zero) k w
  end.

(** The steps of the script. *)
Definition Script (A : Type) : Type :=
  state (label := label) (world := world) -> ended A * state (label := label) (world := world).

Definition and_then {A B} (c : Script A) (k : A -> Script B) : Script B :=
  fun st =>
    match c st with
    | (Returned a, st') => k a st'
    | (Aborted e, st') => (Aborted e, st')
    end.

Definition done {A} (a : A) : Script A := fun st => (Returned a, st).

(** A call that sees and changes the world only. *)
Definition system {A} (f : world -> ended A * world) : Script A :=
  fun st =>
    let '(r, w) := f (st_world st) in
    (r, {| st_world := w; st_files := st_files st |}).

Definition system_total {A} (f : world -> A * world) : Script A :=
  fun st =>
    let '(a, w) := f (st_world st) in
    (Returned a, {| st_world := w; st_files := st_files st |}).

(** A computation whose exception nothing catches. *)
Definition uncaught {A} (c : M (label := label) (world := world) A) : Script A :=
  fun st =>
    match c st with
    | (Ok a, st') => (Returned a, st')
    | (Raise e, st') => (Aborted (Uncaught e), st')
    end.

(** Lines 235-256. *)
Definition main : Script unit :=
  and_then (system create_args) (fun args =>
  and_then (system_total (osp_exists (arg_op_dir args))) (fun op_dir_exists =>
  and_then (if negb op_dir_exists then system (os_makedirs (arg_op_dir args))
            else done tt) (fun _ =>
  and_then (system_total (print "Processing...")) (fun _ =>
  and_then (system (os_listdir (arg_ip_dir args))) (fun listing =>
  let pics := List.filter is_pic listing in
  and_then (uncaught (call (choices pics 4))) (fun image_file_list =>
  uncaught
    (mosaic preprocess read_label read_img compose_random_resized_crop memory
       image_file_list
       (arg_ip_dir args) (arg_ip_dir args)
       (arg_op_dir args) (arg_op_dir args)
       (arg_width args) (arg_height args)
       (arg_scale_x args) (arg_scale_y args)
       (arg_min_area args) (arg_min_vi args) false sep))))))).

(** *** The two halves of the script

    Lines 235-247, which end with the listing of the input directory,
    and lines 246-256, which pick the four names and run [mosaic]. *)
Definition main_listing : Script (namespace * list string) :=
  and_then (system create_args) (fun args =>
  and_then (system_total (osp_exists (arg_op_dir args))) (fun op_dir_exists =>
  and_then (if negb op_dir_exists then system (os_makedirs (arg_op_dir args))
            else done tt) (fun _ =>
  and_then (system_total (print "Processing...")) (fun _ =>
  and_then (system (os_listdir (arg_ip_dir args))) (fun listing =>
  done (args, listing)))))).

Definition main_mosaic (args : namespace) (image_file_list : list string)
  : M (label := label) (world := world) unit :=
  mosaic preprocess read_label read_img compose_random_resized_crop memory
    image_file_list
    (arg_ip_dir args) (arg_ip_dir args)
    (arg_op_dir args) (arg_op_dir args)
    (arg_width args) (arg_height args)
    (arg_scale_x args) (arg_scale_y args)
    (arg_min_area args) (arg_min_vi args) false sep.

Definition main_augment (args : namespace) (listing : list string) : Script unit :=
  let pics := List.filter is_pic listing in
  and_then (uncaught (call (choices pics 4))) (fun image_file_list =>
  uncaught (main_mosaic args image_file_list)).

End Script.

(** ** Data for the examples of the script *)

Local Open Scope string_scope.

(** A generator that yields 1/8, 3/8, 5/8, 7/8 in turn; its world is
    the number of floats drawn and of transforms run so far. *)
Definition sample_random (calls : nat) : float * nat :=
  (lit (2 * Z.of_nat (calls mod 4) + 1) 8, S calls).

Definition sample_args : namespace :=
  {| arg_ip_dir := "in"; arg_op_dir := "out";
     arg_width := 800; arg_height := 800;
     arg_scale_x := lit 4 10; arg_scale_y := lit 6 10;
     arg_min_area := 200; arg_min_vi := lit 1 10 |}.

Definition sample_create_args (calls : nat) : ended namespace * nat :=
  (Returned sample_args, calls).

Definition sample_exists (path : string) (calls : nat) : bool * nat := (false, calls).

Definition sample_makedirs (path : string) (calls : nat) : ended unit * nat :=
  (Returned tt, calls).

Definition sample_print (text : string) (calls : nat) : unit * nat := (tt, calls).

(** A directory with four images and their labels. *)
Definition sample_listing : list string :=
  ["a.jpg"; "a.txt"; "b.jpg"; "b.txt"; "c.png"; "c.txt"; "d.jpeg"; "d.txt"].

Definition sample_listdir (listing : list string) (path : string) (calls : nat)
  : ended (list string) * nat :=
  (Returned listing, calls).

(** The script on [listing], with the boxes [boxes] in every label
    file. *)
Definition sample_main (boxes : list bbox) (listing : list string)
  : Script (label := Z) (world := nat) unit :=
  main sample_preprocess (sample_read_label boxes) sample_read_img sample_compose
    sample_memory sample_random sample_create_args sample_exists sample_makedirs
    sample_print (sample_listdir listing) "/".

Local Close Scope string_scope.

(* ================================================================== *)
(** * Part II: theorems *)
(* ================================================================== *)

(** ** Binary64: the operations round the exact result *)

Lemma digits2_pos_size p : digits2_pos p = Pos.size p.
Proof. induction p; simpl; congruence. Qed.

Lemma digits2_log2 p : Zpos (digits2_pos p) = Z.log2 (Zpos p) + 1.
Proof.
  rewrite digits2_pos_size.
  destruct p; cbn [Pos.size Z.log2]; rewrite ?Pos2Z.inj_succ; lia.
Qed.

Lemma shr_1_nonneg m r s :
  0 <= m ->
  shr_1 {| shr_m := m; shr_r := r; shr_s := s |} =
  {| shr_m := m / 2; shr_r := Z.odd m; shr_s := r || s |}.
Proof.
  intros Hm. rewrite <- Z.div2_div.
  destruct m as [|[p|p|]|p]; try reflexivity; lia.
Qed.

Lemma iter_pos_nat {A} (f : A -> A) p x :
  SpecFloat.iter_pos f p x = Nat.iter (Pos.to_nat p) f x.
Proof.
  revert x. induction p as [p IH|p IH|]; intros x.
  - change (SpecFloat.iter_pos f p~1 x) with (SpecFloat.iter_pos f p (SpecFloat.iter_pos f p (f x))).
    rewrite !IH, Pos2Nat.inj_xI.
    replace (S (2 * Pos.to_nat p))%nat with (Pos.to_nat p + (Pos.to_nat p + 1))%nat by lia.
    rewrite !Nat.iter_add. reflexivity.
  - change (SpecFloat.iter_pos f p~0 x) with (SpecFloat.iter_pos f p (SpecFloat.iter_pos f p x)).
    rewrite !IH, Pos2Nat.inj_xO.
    replace (2 * Pos.to_nat p)%nat with (Pos.to_nat p + Pos.to_nat p)%nat by lia.
    rewrite Nat.iter_add. reflexivity.
  - reflexivity.
Qed.

(** After [S n] one-bit shifts of a non-negative [M]: the quotient, the
    last bit shifted out, and whether anything below it was non-zero. *)
Lemma iter_shr_1 M n :
  0 <= M ->
  Nat.iter (S n) shr_1 {| shr_m := M; shr_r := false; shr_s := false |} =
  {| shr_m := M / 2 ^ (Z.of_nat n + 1);
     shr_r := Z.odd (M / 2 ^ Z.of_nat n);
     shr_s := negb (M mod 2 ^ Z.of_nat n =? 0) |}.
Proof.
  intros HM. induction n as [|n IH].
  - cbv [Nat.iter nat_rect]. rewrite shr_1_nonneg by assumption.
    change (2 ^ Z.of_nat 0) with 1. rewrite Z.div_1_r, Z.mod_1_r. reflexivity.
  - rewrite Nat.iter_succ, IH.
    assert (H2n : 0 < 2 ^ Z.of_nat n) by (apply Z.pow_pos_nonneg; lia).
    rewrite shr_1_nonneg by (apply Z.div_pos; [lia | apply Z.pow_pos_nonneg; lia]).
    replace (Z.of_nat (S n)) with (Z.of_nat n + 1) by lia.
    f_equal.
    + rewrite Z.div_div by lia.
      rewrite (Z.pow_add_r 2 (Z.of_nat n + 1) 1) by lia. reflexivity.
    + rewrite (Z.pow_add_r 2 (Z.of_nat n) 1) by lia. change (2 ^ 1) with 2.
      rewrite Z.rem_mul_r by lia.
      rewrite Zmod_odd.
      pose proof (Z.mod_pos_bound M (2 ^ Z.of_nat n) H2n).
      clear IH.
      destruct (Z.odd (M / 2 ^ Z.of_nat n));
        destruct (Z.eqb_spec (M mod 2 ^ Z.of_nat n) 0);
        match goal with |- context [?a =? 0] => destruct (Z.eqb_spec a 0) end;
        simpl; try reflexivity; lia.
Qed.

(** Shifting [n] bits out and rounding on the two recorded bits is
    division by [2^n] rounded to nearest, ties to even. *)
Lemma round_shr_rne M n :
  0 <= M ->
  let mrs := Nat.iter n shr_1 {| shr_m := M; shr_r := false; shr_s := false |} in
  round_nearest_even (shr_m mrs) (loc_of_shr_record mrs) = rne_div M (Z.of_nat n).
Proof.
  intros HM. destruct n as [|n].
  - simpl. unfold rne_div. change (2 ^ 0) with 1.
    rewrite Z.mod_1_r, Z.div_1_r. reflexivity.
  - cbv zeta. rewrite iter_shr_1 by assumption.
    replace (Z.of_nat (S n)) with (Z.of_nat n + 1) by lia.
    unfold rne_div.
    assert (H2n : 0 < 2 ^ Z.of_nat n) by (apply Z.pow_pos_nonneg; lia).
    rewrite (Z.pow_add_r 2 (Z.of_nat n) 1) by lia. change (2 ^ 1) with 2.
    rewrite Z.rem_mul_r by lia. rewrite Zmod_odd.
    pose proof (Z.mod_pos_bound M (2 ^ Z.of_nat n) H2n).
    set (lo := M mod 2 ^ Z.of_nat n) in *.
    set (q := M / (2 ^ Z.of_nat n * 2)).
    destruct (Z.odd (M / 2 ^ Z.of_nat n)); destruct (Z.eqb_spec lo 0) as [E|E];
      cbn [negb loc_of_shr_record round_nearest_even shr_m].
    + replace (2 * (lo + 2 ^ Z.of_nat n * 1) ?= 2 ^ Z.of_nat n * 2) with Eq
        by (symmetry; apply Z.compare_eq_iff; lia).
      reflexivity.
    + replace (2 * (lo + 2 ^ Z.of_nat n * 1) ?= 2 ^ Z.of_nat n * 2) with Gt
        by (symmetry; apply Z.compare_gt_iff; lia).
      reflexivity.
    + replace (2 * (lo + 2 ^ Z.of_nat n * 0) ?= 2 ^ Z.of_nat n * 2) with Lt
        by (symmetry; apply Z.compare_lt_iff; lia).
      reflexivity.
    + replace (2 * (lo + 2 ^ Z.of_nat n * 0) ?= 2 ^ Z.of_nat n * 2) with Lt
        by (symmetry; apply Z.compare_lt_iff; lia).
      reflexivity.
Qed.


Lemma shr_nat mrs e n :
  0 <= n -> shr mrs e n = (Nat.iter (Z.to_nat n) shr_1 mrs, e + n).
Proof.
  intros Hn. destruct n as [|p|p]; try lia.
  - simpl. f_equal. lia.
  - unfold shr. rewrite iter_pos_nat. reflexivity.
Qed.

Lemma shr_nonpos mrs e n : n <= 0 -> shr mrs e n = (mrs, e).
Proof. intros Hn. destruct n; try reflexivity. lia. Qed.

Lemma pow2_pos k : 0 <= k -> 0 < 2 ^ k.
Proof. intros. apply Z.pow_pos_nonneg; lia. Qed.

Lemma rne_div_shift m n j :
  0 <= n -> 0 <= j -> rne_div (m * 2 ^ j) (n + j) = rne_div m n.
Proof.
  intros Hn Hj. unfold rne_div.
  pose proof (pow2_pos j Hj). pose proof (pow2_pos n Hn).
  rewrite Z.pow_add_r by lia.
  rewrite Z.div_mul_cancel_r by lia.
  rewrite Z.mul_mod_distr_r by lia.
  replace (2 * (m mod 2 ^ n * 2 ^ j)) with (2 * (m mod 2 ^ n) * 2 ^ j) by ring.
  rewrite <- Zmult_compare_compat_r by lia. reflexivity.
Qed.

Lemma rne_div_bounds x g :
  0 <= g -> x / 2 ^ g <= rne_div x g <= x / 2 ^ g + 1.
Proof.
  intros. unfold rne_div.
  destruct (2 * (x mod 2 ^ g) ?= 2 ^ g); try destruct (Z.even _); lia.
Qed.

Lemma rne_div_exact x g : 0 <= g -> x mod 2 ^ g = 0 -> rne_div x g = x / 2 ^ g.
Proof.
  intros Hg E. unfold rne_div. rewrite E.
  pose proof (pow2_pos g Hg).
  replace (2 * 0 ?= 2 ^ g) with Lt by (symmetry; apply Z.compare_lt_iff; lia).
  reflexivity.
Qed.

Lemma fexp_eq z : fexp prec emax z = Z.max (z - 53) (-1074).
Proof. reflexivity. Qed.

Lemma grid_mul_pow2 m e :
  0 < m -> 0 <= e + scale ->
  grid (m * 2 ^ (e + scale)) = fexp prec emax (Z.log2 m + 1 + e) + scale.
Proof.
  intros Hm He. unfold grid. rewrite Z.log2_mul_pow2 by lia.
  rewrite fexp_eq. unfold prec, scale. lia.
Qed.

Lemma log2_lt m d : 0 < m -> m < 2 ^ d -> Z.log2 m < d.
Proof.
  intros Hm H. destruct (Z_lt_le_dec (Z.log2 m) d) as [L|L]; [exact L|].
  exfalso. pose proof (Z.log2_nonneg m).
  destruct (Z_lt_le_dec d 0).
  - rewrite Z.pow_neg_r in H by lia. lia.
  - apply Z.log2_le_pow2 in L; lia.
Qed.

Lemma binary_round_aux_spec s m e :
  - scale <= e ->
  e <= fexp prec emax (Zpos (digits2_pos m) + e) ->
  RNE (Zpos m * 2 ^ (e + scale)) < 2 ^ (emax + scale) ->
  finite (binary_round_aux prec emax s (Zpos m) e loc_Exact) /\
  Fval (binary_round_aux prec emax s (Zpos m) e loc_Exact) =
    cond_Zopp s (RNE (Zpos m * 2 ^ (e + scale))).
Proof.
  intros He Hk Hov.
  pose proof (digits2_log2 m) as Hd.
  set (d := Zpos (digits2_pos m)) in *.
  set (k := fexp prec emax (d + e)) in *.
  assert (Hk1 : k = Z.max (d + e - 53) (-1074)) by (unfold k; apply fexp_eq).
  set (n := k - e).
  assert (Hn : 0 <= n) by (unfold n; lia).
  pose proof (Z.log2_spec (Zpos m) eq_refl) as [Hlo Hhi].
  replace (Z.succ (Z.log2 (Zpos m))) with d in Hhi by lia.
  (* the rounded value *)
  unfold RNE in *. 
  rewrite grid_mul_pow2 in * by lia.
  replace (Z.log2 (Zpos m) + 1 + e) with (d + e) in * by lia.
  fold k in Hov |- *.
  replace (k + scale) with (n + (e + scale)) in * by (unfold n; lia).
  rewrite rne_div_shift in * by lia.
  set (q := rne_div (Zpos m) n) in *.
  pose proof (rne_div_bounds (Zpos m) n Hn) as Hq. fold q in Hq.
  pose proof (pow2_pos n Hn) as H2n.
  assert (Hq0 : 0 <= Zpos m / 2 ^ n) by (apply Z.div_pos; lia).
  assert (Hq1 : Zpos m / 2 ^ n < 2 ^ 53).
  { apply Z.div_lt_upper_bound; [lia|].
    rewrite <- Z.pow_add_r by lia.
    apply Z.lt_le_trans with (1 := Hhi).
    apply Z.pow_le_mono_r; lia. }
  (* the computation *)
  unfold binary_round_aux, shr_fexp.
  change (Zdigits2 (Zpos m)) with d. fold k. fold n.
  change (shr_record_of_loc (Zpos m) loc_Exact)
    with {| shr_m := Zpos m; shr_r := false; shr_s := false |}.
  rewrite shr_nat by assumption.
  rewrite round_shr_rne by lia.
  rewrite Z2Nat.id by assumption. fold q.
  replace (e + n) with k by (unfold n; lia).
  rewrite fexp_eq.
  destruct q as [|p|p] eqn:Eq.
  - (* rounds to zero *)
    change (Zdigits2 0) with 0.
    rewrite shr_nonpos by lia.
    cbn [shr_m shr_record_of_loc]. 
    split; [split; [reflexivity|exact I]|].
    simpl. destruct s; reflexivity.
  - pose proof (digits2_log2 p) as Hdp.
    change (Zdigits2 (Zpos p)) with (Zpos (digits2_pos p)).
    destruct (Z_lt_le_dec (Zpos p) (2 ^ 53)) as [Hp|Hp].
    + (* no carry out of the mantissa *)
      pose proof (log2_lt (Zpos p) 53 eq_refl Hp).
      rewrite shr_nonpos by lia.
      cbn [shr_m shr_record_of_loc].
      assert (Hcanon : k = -1074 \/ 2 ^ 52 <= Zpos p).
      { destruct (Z.eq_dec k (-1074)); [left; assumption|right].
        assert (n = d - 53) by (unfold n; lia).
        apply Z.le_trans with (Zpos m / 2 ^ n); [|lia].
        apply Z.div_le_lower_bound; [lia|].
        rewrite <- Z.pow_add_r by lia.
        replace (n + 52) with (Z.log2 (Zpos m)) by lia. lia. }
      assert (Hk971 : k <= 971).
      { destruct Hcanon as [->|Hc]; [lia|].
        destruct (Z_le_gt_dec k 971); [assumption|exfalso].
        assert (2 ^ (emax + scale) <= Zpos p * 2 ^ (n + (e + scale))); [|lia].
        replace (n + (e + scale)) with (k + scale) by (unfold n; lia).
        replace (emax + scale) with (52 + (972 + scale)) by (unfold emax; lia).
        rewrite Z.pow_add_r by (unfold scale; lia).
        apply Z.mul_le_mono_nonneg;
          [lia | lia | apply Z.lt_le_incl, pow2_pos; unfold scale; lia
          | apply Z.pow_le_mono_r; unfold scale; lia]. }
      replace (k <=? emax - prec) with true
        by (symmetry; apply Z.leb_le; unfold emax, prec; lia).
      split.
      * split; [|exact I].
        unfold is_float, valid_binary, bounded, canonical_mantissa.
        rewrite fexp_eq.
        apply andb_true_intro; split; [apply Z.eqb_eq|apply Z.leb_le; unfold emax, prec; lia].
        destruct Hcanon as [Hc|Hc]; [lia|].
        assert (52 <= Z.log2 (Zpos p)) by (apply Z.log2_le_pow2; lia). lia.
      * unfold Fval. f_equal. f_equal. f_equal. unfold n; lia.
    + (* the mantissa rounds up to 2^53 *)
      assert (Ep : p = 9007199254740992%positive).
      { apply Pos2Z.inj. change (Zpos 9007199254740992) with (2 ^ 53). lia. }
      subst p.
      change (Zpos (digits2_pos 9007199254740992)) with 54.
      replace (Z.max (54 + k - 53) (-1074) - k) with 1 by lia.
      cbn [shr shr_record_of_loc SpecFloat.iter_pos shr_1 shr_m].
      assert (Hk971 : k + 1 <= 971).
      { destruct (Z_le_gt_dec (k + 1) 971); [assumption|exfalso].
        assert (2 ^ (emax + scale) <= Zpos 9007199254740992 * 2 ^ (n + (e + scale))); [|lia].
        replace (n + (e + scale)) with (k + scale) by (unfold n; lia).
        change (Zpos 9007199254740992) with (2 ^ 53).
        rewrite <- Z.pow_add_r by (unfold scale; lia).
        apply Z.pow_le_mono_r; unfold emax; lia. }
      replace (k + 1 <=? emax - prec) with true
        by (symmetry; apply Z.leb_le; unfold emax, prec; lia).
      split.
      * split; [|exact I].
        unfold is_float, valid_binary, bounded, canonical_mantissa.
        rewrite fexp_eq.
        change (Zpos (digits2_pos 4503599627370496)) with 53.
        apply andb_true_intro; split; [apply Z.eqb_eq; lia|apply Z.leb_le; unfold emax, prec; lia].
      * unfold Fval. f_equal.
        change (Zpos 4503599627370496) with (2 ^ 52).
        change (Zpos 9007199254740992) with (2 ^ 53).
        rewrite <- !Z.pow_add_r by (unfold scale; lia).
        f_equal. unfold n; lia.
  - lia.
Qed.

(** *** Well-formed floats *)

Lemma is_float_finite_inv s m e :
  is_float (S754_finite s m e) ->
  -1074 <= e <= 971 /\ Z.log2 (Zpos m) < 53 /\ (e = -1074 \/ Z.log2 (Zpos m) = 52).
Proof.
  unfold is_float, valid_binary, bounded, canonical_mantissa.
  intros H. apply andb_prop in H. destruct H as [H1 H2].
  apply Z.eqb_eq in H1. apply Z.leb_le in H2.
  rewrite fexp_eq, digits2_log2 in H1. unfold emax, prec in H2.
  pose proof (Z.log2_nonneg (Zpos m)). lia.
Qed.


Lemma grid_ge x : scale - 1074 <= grid x.
Proof. unfold grid. lia. Qed.

Lemma grid_nonneg x : 0 <= grid x.
Proof. pose proof (grid_ge x). unfold scale in *. lia. Qed.

Lemma grid_mono x y : x <= y -> grid x <= grid y.
Proof. intros H. unfold grid. pose proof (Z.log2_le_mono x y H). lia. Qed.

Lemma Fval_pos_rep m e :
  is_float (S754_finite false m e) ->
  rep (Zpos m * 2 ^ (e + scale)) /\ Zpos m * 2 ^ (e + scale) < 2 ^ (emax + scale).
Proof.
  intros H. apply is_float_finite_inv in H. destruct H as (He & Hm & Hc).
  assert (Hs : 0 <= e + scale) by (unfold scale; lia).
  pose proof (pow2_pos _ Hs).
  split; [split|].
  - lia.
  - rewrite grid_mul_pow2 by lia. rewrite fexp_eq.
    replace (Z.max (Z.log2 (Zpos m) + 1 + e - 53) (-1074) + scale) with (e + scale) by lia.
    apply Z.mod_mul. lia.
  - pose proof (Z.log2_spec (Zpos m) eq_refl) as [_ Hhi].
    apply Z.lt_le_trans with (2 ^ 53 * 2 ^ (e + scale)).
    + apply Z.mul_lt_mono_pos_r; [lia|].
      apply Z.lt_le_trans with (1 := Hhi). apply Z.pow_le_mono_r; lia.
    + rewrite <- Z.pow_add_r by lia. apply Z.pow_le_mono_r; unfold emax; lia.
Qed.

(** *** Rounding: the properties the geometry needs *)

Lemma RNE_nonneg x : 0 <= x -> 0 <= RNE x.
Proof.
  intros Hx. unfold RNE.
  pose proof (grid_nonneg x) as Hg. pose proof (pow2_pos _ Hg).
  pose proof (rne_div_bounds x (grid x) Hg).
  assert (0 <= x / 2 ^ grid x) by (apply Z.div_pos; lia).
  apply Z.mul_nonneg_nonneg; lia.
Qed.

(** A representable value above [x] bounds the rounding of [x]. *)
Lemma RNE_le_rep x y : 0 <= x -> x <= y -> rep y -> RNE x <= y.
Proof.
  intros Hx Hxy [Hy Hm]. unfold RNE.
  pose proof (grid_nonneg x) as Hgx.
  pose proof (grid_mono x y Hxy) as Hg.
  pose proof (pow2_pos _ Hgx) as Hpx.
  assert (Hd : y mod 2 ^ grid x = 0).
  { apply Z.mod_divide; [lia|].
    apply Z.divide_trans with (2 ^ grid y).
    - exists (2 ^ (grid y - grid x)). rewrite <- Z.pow_add_r by lia. f_equal. lia.
    - apply Z.mod_divide; [pose proof (pow2_pos (grid y)); lia|assumption]. }
  pose proof (Z.div_mod y (2 ^ grid x) ltac:(lia)) as Ey. rewrite Hd in Ey.
  pose proof (Z.div_mod x (2 ^ grid x) ltac:(lia)) as Ex.
  pose proof (Z.mod_pos_bound x (2 ^ grid x) Hpx) as Hr.
  pose proof (rne_div_bounds x (grid x) Hgx) as Hb.
  destruct (Z.eq_dec (x mod 2 ^ grid x) 0) as [E0|E0].
  - rewrite rne_div_exact by assumption. lia.
  - assert (x / 2 ^ grid x < y / 2 ^ grid x) by nia.
    nia.
Qed.

Lemma RNE_rep y : rep y -> RNE y = y.
Proof.
  intros [Hy Hm]. unfold RNE.
  pose proof (grid_nonneg y) as Hg. pose proof (pow2_pos _ Hg).
  rewrite rne_div_exact by assumption.
  pose proof (Z.div_mod y (2 ^ grid y) ltac:(lia)). lia.
Qed.

(** The rounding error is at most half a grid step. *)
Lemma RNE_err x : 0 <= x -> 2 * Z.abs (RNE x - x) <= 2 ^ grid x.
Proof.
  intros Hx. unfold RNE, rne_div.
  pose proof (grid_nonneg x) as Hg. pose proof (pow2_pos _ Hg) as Hp.
  pose proof (Z.div_mod x (2 ^ grid x) ltac:(lia)) as Ex.
  pose proof (Z.mod_pos_bound x (2 ^ grid x) Hp) as Hr.
  destruct (Z.compare_spec (2 * (x mod 2 ^ grid x)) (2 ^ grid x)) as [E|E|E];
    try destruct (Z.even _); lia.
Qed.

(** *** Comparison of well-formed floats is comparison of their values *)

Lemma canonical_compare ma ea mb eb :
  is_float (S754_finite false ma ea) -> is_float (S754_finite false mb eb) ->
  (Zpos ma * 2 ^ (ea + scale) ?= Zpos mb * 2 ^ (eb + scale)) =
  match ea ?= eb with
  | Lt => Lt
  | Gt => Gt
  | Eq => Pos.compare_cont Eq ma mb
  end.
Proof.
  intros Ha Hb.
  apply is_float_finite_inv in Ha, Hb.
  destruct Ha as (Hea & Hma & Hca), Hb as (Heb & Hmb & Hcb).
  pose proof (Z.log2_spec (Zpos ma) eq_refl) as [La Ua].
  pose proof (Z.log2_spec (Zpos mb) eq_refl) as [Lb Ub].
  assert (Ua' : Zpos ma < 2 ^ 53)
    by (apply Z.lt_le_trans with (1 := Ua); apply Z.pow_le_mono_r; lia).
  assert (Ub' : Zpos mb < 2 ^ 53)
    by (apply Z.lt_le_trans with (1 := Ub); apply Z.pow_le_mono_r; lia).
  destruct (Z.compare_spec ea eb) as [E|E|E].
  - subst eb. rewrite <- Zmult_compare_compat_r
      by (apply Z.lt_gt, pow2_pos; unfold scale; lia).
    reflexivity.
  - apply Z.compare_lt_iff.
    assert (Lb' : 2 ^ 52 <= Zpos mb) by (destruct Hcb as [?|Hcb]; [lia|rewrite Hcb in Lb; exact Lb]).
    replace (eb + scale) with ((eb - ea) + (ea + scale)) by lia.
    rewrite (Z.pow_add_r 2 (eb - ea) (ea + scale)) by (unfold scale; lia).
    pose proof (pow2_pos (ea + scale) ltac:(unfold scale; lia)).
    assert (2 <= 2 ^ (eb - ea)).
    { change 2 with (2 ^ 1) at 1. apply Z.pow_le_mono_r; lia. }
    apply Z.lt_le_trans with (2 ^ 53 * 2 ^ (ea + scale)).
    + apply Z.mul_lt_mono_pos_r; lia.
    + rewrite Z.mul_assoc. apply Z.mul_le_mono_nonneg_r; [lia|].
      change (2 ^ 53) with (2 ^ 52 * 2).
      apply Z.mul_le_mono_nonneg; lia.
  - apply Z.compare_gt_iff.
    assert (La' : 2 ^ 52 <= Zpos ma) by (destruct Hca as [?|Hca]; [lia|rewrite Hca in La; exact La]).
    replace (ea + scale) with ((ea - eb) + (eb + scale)) by lia.
    rewrite (Z.pow_add_r 2 (ea - eb) (eb + scale)) by (unfold scale; lia).
    pose proof (pow2_pos (eb + scale) ltac:(unfold scale; lia)).
    assert (2 <= 2 ^ (ea - eb)).
    { change 2 with (2 ^ 1) at 1. apply Z.pow_le_mono_r; lia. }
    apply Z.lt_le_trans with (2 ^ 53 * 2 ^ (eb + scale)).
    + apply Z.mul_lt_mono_pos_r; lia.
    + rewrite Z.mul_assoc. apply Z.mul_le_mono_nonneg_r; [lia|].
      change (2 ^ 53) with (2 ^ 52 * 2).
      apply Z.mul_le_mono_nonneg; lia.
Qed.

Lemma Fval_finite_pos m e : -scale <= e -> 0 < Zpos m * 2 ^ (e + scale).
Proof. intros. pose proof (pow2_pos (e + scale) ltac:(lia)). lia. Qed.

Lemma SFcompare_Fval a b :
  finite a -> finite b -> SFcompare a b = Some (Fval a ?= Fval b).
Proof.
  intros [Ha Fa] [Hb Fb].
  destruct a as [sa|sa| |sa ma ea]; try contradiction;
  destruct b as [sb|sb| |sb mb eb]; try contradiction.
  - reflexivity.
  - pose proof (is_float_finite_inv _ _ _ Hb) as (He & _).
    pose proof (Fval_finite_pos mb eb ltac:(unfold scale; lia)).
    unfold SFcompare, Fval. f_equal. symmetry.
    destruct sb; cbn [cond_Zopp]; [apply Z.compare_gt_iff|apply Z.compare_lt_iff]; lia.
  - pose proof (is_float_finite_inv _ _ _ Ha) as (He & _).
    pose proof (Fval_finite_pos ma ea ltac:(unfold scale; lia)).
    unfold SFcompare, Fval. f_equal. symmetry.
    destruct sa; cbn [cond_Zopp]; [apply Z.compare_lt_iff|apply Z.compare_gt_iff]; lia.
  - pose proof (is_float_finite_inv _ _ _ Ha) as (Hea & _).
    pose proof (is_float_finite_inv _ _ _ Hb) as (Heb & _).
    pose proof (Fval_finite_pos ma ea ltac:(unfold scale; lia)).
    pose proof (Fval_finite_pos mb eb ltac:(unfold scale; lia)).
    unfold SFcompare, Fval. f_equal.
    destruct sa, sb; cbn [cond_Zopp].
    + rewrite Z.compare_opp.
      rewrite (Z.compare_antisym (Zpos ma * 2 ^ (ea + scale))).
      rewrite (canonical_compare ma ea mb eb) by assumption.
      destruct (ea ?= eb); reflexivity.
    + symmetry. apply Z.compare_lt_iff. lia.
    + symmetry. apply Z.compare_gt_iff. lia.
    + rewrite (canonical_compare ma ea mb eb) by assumption.
      destruct (ea ?= eb); reflexivity.
Qed.

Lemma float_le_Fval a b :
  finite a -> finite b -> SFleb a b = true <-> Fval a <= Fval b.
Proof.
  intros Ha Hb. unfold SFleb. rewrite (SFcompare_Fval a b Ha Hb).
  destruct (Z.compare_spec (Fval a) (Fval b)); split; intros; try lia; try reflexivity;
    discriminate.
Qed.

Lemma float_lt_Fval a b :
  finite a -> finite b -> SFltb a b = true <-> Fval a < Fval b.
Proof.
  intros Ha Hb. unfold SFltb. rewrite (SFcompare_Fval a b Ha Hb).
  destruct (Z.compare_spec (Fval a) (Fval b)); split; intros; try lia; try reflexivity;
    discriminate.
Qed.

(** *** The operations round the exact result *)

Lemma pos_iter_xO m d : Zpos (Pos.iter xO m d) = Zpos m * 2 ^ Zpos d.
Proof.
  induction d as [|d IH] using Pos.peano_ind.
  - simpl. rewrite Pos2Z.inj_xO. change (2 ^ 1) with 2. lia.
  - rewrite Pos.iter_succ, Pos2Z.inj_xO, IH, Pos2Z.inj_succ.
    rewrite Z.pow_succ_r by lia. ring.
Qed.

Lemma shl_align_fst m e e' :
  e' <= e -> Zpos (fst (shl_align m e e')) = Zpos m * 2 ^ (e - e').
Proof.
  intros H. unfold shl_align.
  destruct (e' - e) as [|p|p] eqn:E.
  - cbn [fst]. replace (e - e') with 0 by lia. change (2 ^ 0) with 1. lia.
  - lia.
  - cbn [fst]. rewrite pos_iter_xO. f_equal. f_equal. lia.
Qed.

Lemma shl_align_snd m e e' : snd (shl_align m e e') = Z.min e e'.
Proof.
  unfold shl_align. destruct (e' - e) as [|p|p] eqn:E; simpl; lia.
Qed.

Lemma binary_round_spec s m e :
  - scale <= e ->
  RNE (Zpos m * 2 ^ (e + scale)) < 2 ^ (emax + scale) ->
  finite (binary_round prec emax s m e) /\
  Fval (binary_round prec emax s m e) = cond_Zopp s (RNE (Zpos m * 2 ^ (e + scale))).
Proof.
  intros He Hov. unfold binary_round.
  set (f := fexp prec emax (Zpos (digits2_pos m) + e)).
  assert (Hf : f = Z.max (Zpos (digits2_pos m) + e - 53) (-1074)) by apply fexp_eq.
  pose proof (shl_align_snd m e f) as Hsnd.
  destruct (shl_align m e f) as [mz ez] eqn:Esh. cbn [snd] in Hsnd.
  assert (Hval : Zpos mz * 2 ^ (ez + scale) = Zpos m * 2 ^ (e + scale)).
  { destruct (Z_le_gt_dec f e) as [L|L].
    - pose proof (shl_align_fst m e f L) as Hfst. rewrite Esh in Hfst. cbn [fst] in Hfst.
      rewrite Hfst, <- Z.mul_assoc, <- Z.pow_add_r by (unfold scale in *; lia).
      f_equal. f_equal. lia.
    - unfold shl_align in Esh.
      destruct (f - e) as [|p|p] eqn:E; try lia; inversion Esh; subst; reflexivity. }
  assert (Hez : - scale <= ez) by (unfold scale in *; lia).
  rewrite <- Hval in Hov |- *.
  apply binary_round_aux_spec; try assumption.
  rewrite fexp_eq, digits2_log2.
  rewrite digits2_log2 in Hf.
  assert (Hlog : Z.log2 (Zpos mz) + ez = Z.log2 (Zpos m) + e).
  { assert (Z.log2 (Zpos mz * 2 ^ (ez + scale)) = Z.log2 (Zpos m * 2 ^ (e + scale)))
      as Hl by (rewrite Hval; reflexivity).
    rewrite !Z.log2_mul_pow2 in Hl by lia. lia. }
  lia.
Qed.


Lemma binary_normalize_spec z e :
  - scale <= e ->
  RNE (Z.abs (z * 2 ^ (e + scale))) < 2 ^ (emax + scale) ->
  finite (binary_normalize prec emax z e false) /\
  Fval (binary_normalize prec emax z e false) = RNEs (z * 2 ^ (e + scale)).
Proof.
  intros He Hov. unfold RNEs.
  pose proof (pow2_pos (e + scale) ltac:(lia)) as Hp.
  rewrite Z.abs_mul, (Z.abs_eq (2 ^ _)) in * by lia.
  rewrite Z.sgn_mul, (Z.sgn_pos (2 ^ _)), Z.mul_1_r by lia.
  destruct z as [|m|m]; cbn [binary_normalize];
    [ change (Z.abs 0) with 0 in *; change (Z.sgn 0) with 0
    | change (Z.abs (Zpos m)) with (Zpos m) in *; change (Z.sgn (Zpos m)) with 1
    | change (Z.abs (Zneg m)) with (Zpos m) in *; change (Z.sgn (Zneg m)) with (-1) ].
  - split; [split; [reflexivity|exact I]|reflexivity].
  - rewrite Z.mul_1_l. exact (binary_round_spec false m e He Hov).
  - destruct (binary_round_spec true m e He Hov) as [F V].
    split; [exact F|]. rewrite V. cbn [cond_Zopp]. lia.
Qed.


Lemma finite_zero s : finite (S754_zero s).
Proof. split; [reflexivity|exact I]. Qed.

Lemma RNEs_nonneg z : 0 <= z -> RNEs z = RNE z.
Proof.
  intros H. unfold RNEs. destruct (Z.eq_dec z 0) as [->|Hz]; [reflexivity|].
  rewrite Z.sgn_pos, Z.abs_eq by lia. lia.
Qed.

Lemma cond_Zopp_sgn s x : 0 < x -> cond_Zopp s (RNE x) = RNEs (cond_Zopp s x).
Proof.
  intros Hx. unfold RNEs. destruct s; cbn [cond_Zopp].
  - rewrite Z.sgn_neg, Z.abs_neq by lia. rewrite Z.opp_involutive. lia.
  - rewrite Z.sgn_pos, Z.abs_eq by lia. lia.
Qed.

Lemma RNEs_Fval f : finite f -> RNEs (Fval f) = Fval f.
Proof.
  intros [Hf Ff]. destruct f as [s|s| |s m e]; try contradiction; [reflexivity|].
  pose proof (Fval_pos_rep m e Hf) as [Hr _].
  pose proof (is_float_finite_inv _ _ _ Hf) as (He & _).
  pose proof (Fval_finite_pos m e ltac:(unfold scale; lia)).
  unfold Fval. rewrite <- cond_Zopp_sgn by assumption.
  rewrite (RNE_rep _ Hr). reflexivity.
Qed.

Lemma Fval_bound f : finite f -> Z.abs (Fval f) < 2 ^ (emax + scale).
Proof.
  intros [Hf Ff]. destruct f as [s|s| |s m e]; try contradiction.
  - change (Z.abs (Fval (S754_zero s))) with 0. apply pow2_pos. unfold emax, scale. lia.
  - pose proof (Fval_pos_rep m e Hf) as [[Hr _] Hb].
    unfold Fval. destruct s; cbn [cond_Zopp]; lia.
Qed.

Lemma float_mul_spec a b :
  finite a -> finite b ->
  RNE (Z.abs (Fval a * Fval b) / 2 ^ scale) < 2 ^ (emax + scale) ->
  finite (float_mul a b) /\
  Fval (float_mul a b) = RNEs (Fval a * Fval b / 2 ^ scale).
Proof.
  intros [Ha Fa] [Hb Fb] Hov.
  destruct a as [sa|sa| |sa ma ea]; try contradiction;
  destruct b as [sb|sb| |sb mb eb]; try contradiction;
    try (split; [apply finite_zero|]; cbn [float_mul SFmul Fval];
         rewrite ?Z.mul_0_l, ?Z.mul_0_r; reflexivity).
  pose proof (is_float_finite_inv _ _ _ Ha) as (Hea & Hma & Hca).
  pose proof (is_float_finite_inv _ _ _ Hb) as (Heb & Hmb & Hcb).
  pose proof (pow2_pos scale ltac:(unfold scale; lia)) as Hps.
  assert (Ex : Zpos ma * 2 ^ (ea + scale) * (Zpos mb * 2 ^ (eb + scale)) =
               Zpos (ma * mb) * 2 ^ (ea + eb + scale) * 2 ^ scale).
  { assert (P : 2 ^ (ea + scale) * 2 ^ (eb + scale) = 2 ^ (ea + eb + scale) * 2 ^ scale)
      by (rewrite <- !Z.pow_add_r by (unfold scale; lia); f_equal; lia).
    rewrite Pos2Z.inj_mul, <- (Z.mul_assoc _ (2 ^ (ea + eb + scale))), <- P. ring. }
  pose proof (Fval_finite_pos (ma * mb) (ea + eb) ltac:(unfold scale; lia)) as Hxpos.
  assert (Eabs : Z.abs (Fval (S754_finite sa ma ea) * Fval (S754_finite sb mb eb)) / 2 ^ scale
                 = Zpos (ma * mb) * 2 ^ (ea + eb + scale)).
  { unfold Fval. destruct sa, sb; cbn [cond_Zopp];
      rewrite ?Z.mul_opp_opp, ?Z.mul_opp_l, ?Z.mul_opp_r, ?Z.abs_opp, Ex;
      rewrite Z.abs_eq by lia; apply Z.div_mul; lia. }
  assert (Esgn : Fval (S754_finite sa ma ea) * Fval (S754_finite sb mb eb) / 2 ^ scale
                 = cond_Zopp (xorb sa sb) (Zpos (ma * mb) * 2 ^ (ea + eb + scale))).
  { unfold Fval. destruct sa, sb; cbn [cond_Zopp xorb];
      rewrite ?Z.mul_opp_opp, ?Z.mul_opp_l, ?Z.mul_opp_r, Ex;
      rewrite <- ?Z.mul_opp_l; apply Z.div_mul; lia. }
  rewrite Eabs in Hov. rewrite Esgn.
  rewrite <- cond_Zopp_sgn by assumption.
  cbn [float_mul SFmul].
  apply binary_round_aux_spec; [unfold scale; lia| |assumption].
  rewrite fexp_eq, digits2_log2, Pos2Z.inj_mul.
  pose proof (Z.log2_mul_below (Zpos ma) (Zpos mb) eq_refl eq_refl).
  pose proof (Z.log2_nonneg (Zpos ma)). pose proof (Z.log2_nonneg (Zpos mb)).
  lia.
Qed.

Lemma float_of_int_spec n :
  RNE (Z.abs n * 2 ^ scale) < 2 ^ (emax + scale) ->
  finite (binary_normalize prec emax n 0 false) /\
  Fval (binary_normalize prec emax n 0 false) = RNEs (n * 2 ^ scale).
Proof.
  intros Hov.
  pose proof (pow2_pos scale ltac:(unfold scale; lia)) as Hps.
  apply (binary_normalize_spec n 0); [unfold scale; lia|].
  rewrite Z.add_0_l, Z.abs_mul, (Z.abs_eq (2 ^ scale)) by lia. assumption.
Qed.

Lemma Fval_sum_aligned sa ma ea sb mb eb :
  -1074 <= ea -> -1074 <= eb ->
  (cond_Zopp sa (Zpos (fst (shl_align ma ea (Z.min ea eb)))) +
   cond_Zopp sb (Zpos (fst (shl_align mb eb (Z.min ea eb))))) * 2 ^ (Z.min ea eb + scale)
  = Fval (S754_finite sa ma ea) + Fval (S754_finite sb mb eb).
Proof.
  intros Ha Hb.
  rewrite !shl_align_fst by lia.
  unfold Fval.
  replace (ea + scale) with ((ea - Z.min ea eb) + (Z.min ea eb + scale)) at 1 by lia.
  replace (eb + scale) with ((eb - Z.min ea eb) + (Z.min ea eb + scale)) at 1 by lia.
  rewrite (Z.pow_add_r 2 (ea - Z.min ea eb)), (Z.pow_add_r 2 (eb - Z.min ea eb))
    by (unfold scale; lia).
  destruct sa, sb; cbn [cond_Zopp]; ring.
Qed.

Lemma Fval_opp s m e :
  Fval (S754_finite (negb s) m e) = - Fval (S754_finite s m e).
Proof. unfold Fval. destruct s; cbn [negb cond_Zopp]; lia. Qed.

Lemma float_add_spec a b :
  finite a -> finite b ->
  RNE (Z.abs (Fval a + Fval b)) < 2 ^ (emax + scale) ->
  finite (float_add a b) /\ Fval (float_add a b) = RNEs (Fval a + Fval b).
Proof.
  intros Fa Fb Hov. pose proof Fa as [Ha Ta]. pose proof Fb as [Hb Tb].
  destruct a as [sa|sa| |sa ma ea]; try contradiction;
  destruct b as [sb|sb| |sb mb eb]; try contradiction.
  - split; [|destruct sa, sb; reflexivity]. destruct sa, sb; apply finite_zero.
  - cbn [float_add SFadd]. split; [assumption|].
    change (Fval (S754_zero sa)) with 0. rewrite Z.add_0_l, RNEs_Fval; auto.
  - cbn [float_add SFadd]. split; [assumption|].
    change (Fval (S754_zero sb)) with 0. rewrite Z.add_0_r, RNEs_Fval; auto.
  - pose proof (is_float_finite_inv _ _ _ Ha) as (Hea & _).
    pose proof (is_float_finite_inv _ _ _ Hb) as (Heb & _).
    cbn [float_add SFadd]. cbv zeta.
    rewrite <- (Fval_sum_aligned sa ma ea sb mb eb) in * by lia.
    apply binary_normalize_spec; [unfold scale; lia|assumption].
Qed.

Lemma float_sub_spec a b :
  finite a -> finite b ->
  RNE (Z.abs (Fval a - Fval b)) < 2 ^ (emax + scale) ->
  finite (float_sub a b) /\ Fval (float_sub a b) = RNEs (Fval a - Fval b).
Proof.
  intros Fa Fb Hov. pose proof Fa as [Ha Ta]. pose proof Fb as [Hb Tb].
  destruct a as [sa|sa| |sa ma ea]; try contradiction;
  destruct b as [sb|sb| |sb mb eb]; try contradiction.
  - split; [|destruct sa, sb; reflexivity]. destruct sa, sb; apply finite_zero.
  - cbn [float_sub SFsub].
    assert (F' : finite (S754_finite (negb sb) mb eb)) by (split; [exact Hb|exact I]).
    split; [assumption|].
    change (Fval (S754_zero sa)) with 0. rewrite Z.sub_0_l, <- Fval_opp, RNEs_Fval; auto.
  - cbn [float_sub SFsub]. split; [assumption|].
    change (Fval (S754_zero sb)) with 0. rewrite Z.sub_0_r, RNEs_Fval; auto.
  - pose proof (is_float_finite_inv _ _ _ Ha) as (Hea & _).
    pose proof (is_float_finite_inv _ _ _ Hb) as (Heb & _).
    cbn [float_sub SFsub]. cbv zeta.
    assert (E : (cond_Zopp sa (Zpos (fst (shl_align ma ea (Z.min ea eb)))) -
                 cond_Zopp sb (Zpos (fst (shl_align mb eb (Z.min ea eb))))) *
                2 ^ (Z.min ea eb + scale) =
                Fval (S754_finite sa ma ea) - Fval (S754_finite sb mb eb)).
    { pose proof (Fval_sum_aligned sa ma ea (negb sb) mb eb ltac:(lia) ltac:(lia)) as E.
      rewrite Fval_opp, Z.add_opp_r in E. rewrite <- E.
      destruct sb; cbn [negb cond_Zopp]; ring. }
    rewrite <- E in *.
    apply binary_normalize_spec; [unfold scale; lia|assumption].
Qed.

(** *** Bounds used by the quadrant geometry *)


Lemma finite_one : finite one.
Proof. split; [reflexivity|exact I]. Qed.

Lemma Fval_one : Fval one = U.
Proof. reflexivity. Qed.

Lemma U_pos : 0 < U.
Proof. apply pow2_pos. unfold scale. lia. Qed.

Lemma rep_U : rep U.
Proof.
  replace U with (Zpos 4503599627370496 * 2 ^ (-52 + scale)) by reflexivity.
  apply Fval_pos_rep. reflexivity.
Qed.

Lemma rep_Fval f : finite f -> 0 <= Fval f -> rep (Fval f).
Proof.
  intros [Hf Tf] H0. destruct f as [s|s| |s m e]; try contradiction.
  - split; reflexivity.
  - pose proof (is_float_finite_inv _ _ _ Hf) as (He & _).
    pose proof (Fval_finite_pos m e ltac:(unfold scale; lia)).
    destruct s; [unfold Fval in H0; cbn [cond_Zopp] in H0; lia|].
    apply Fval_pos_rep. exact Hf.
Qed.

(** A product with a factor in [[0,1]] does not exceed the other factor. *)
Lemma float_mul_le_l a b :
  finite a -> finite b -> 0 <= Fval a -> 0 <= Fval b <= U ->
  finite (float_mul a b) /\
  Fval (float_mul a b) = RNE (Fval a * Fval b / U) /\
  0 <= Fval (float_mul a b) <= Fval a.
Proof.
  intros Fa Fb Ha Hb. pose proof U_pos as HU.
  assert (Hx0 : 0 <= Fval a * Fval b / U)
    by (apply Z.div_pos; [apply Z.mul_nonneg_nonneg|]; lia).
  assert (Hx1 : Fval a * Fval b / U <= Fval a).
  { apply Z.div_le_upper_bound; [lia|]. rewrite (Z.mul_comm U). 
    apply Z.mul_le_mono_nonneg_l; lia. }
  pose proof (RNE_le_rep _ _ Hx0 Hx1 (rep_Fval a Fa Ha)) as Hr.
  pose proof (RNE_nonneg _ Hx0) as Hr0.
  pose proof (Fval_bound a Fa) as Hbd.
  destruct (float_mul_spec a b Fa Fb) as [F V].
  { rewrite Z.abs_eq by (apply Z.mul_nonneg_nonneg; lia). fold U. lia. }
  fold U in V. rewrite RNEs_nonneg in V by assumption.
  split; [exact F|]. split; [exact V|]. rewrite V. split; assumption.
Qed.

Lemma float_mul_le_r a b :
  finite a -> finite b -> 0 <= Fval a <= U -> 0 <= Fval b ->
  finite (float_mul a b) /\
  Fval (float_mul a b) = RNE (Fval a * Fval b / U) /\
  0 <= Fval (float_mul a b) <= Fval b.
Proof.
  intros Fa Fb Ha Hb. pose proof U_pos as HU.
  assert (Hx0 : 0 <= Fval a * Fval b / U)
    by (apply Z.div_pos; [apply Z.mul_nonneg_nonneg|]; lia).
  assert (Hx1 : Fval a * Fval b / U <= Fval b).
  { apply Z.div_le_upper_bound; [lia|].
    apply Z.mul_le_mono_nonneg_r; lia. }
  pose proof (RNE_le_rep _ _ Hx0 Hx1 (rep_Fval b Fb Hb)) as Hr.
  pose proof (RNE_nonneg _ Hx0) as Hr0.
  pose proof (Fval_bound b Fb) as Hbd.
  destruct (float_mul_spec a b Fa Fb) as [F V].
  { rewrite Z.abs_eq by (apply Z.mul_nonneg_nonneg; lia). fold U. lia. }
  fold U in V. rewrite RNEs_nonneg in V by assumption.
  split; [exact F|]. split; [exact V|]. rewrite V. split; assumption.
Qed.

Lemma grid_below_U x : x < U -> grid x <= scale - 53.
Proof.
  intros Hx. unfold grid.
  destruct (Z_le_gt_dec x 0) as [L|L].
  - rewrite Z.log2_nonpos by lia. unfold prec, scale. lia.
  - pose proof (log2_lt x scale ltac:(lia) Hx). unfold prec, scale in *. lia.
Qed.

(** [1 - s] for [s] in [[0,1]]: in [[0,1]], and at most [2^-54] above the
    exact difference. *)
Lemma float_sub_one s :
  finite s -> 0 <= Fval s <= U ->
  finite (float_sub one s) /\
  0 <= Fval (float_sub one s) <= U /\
  2 * (Fval (float_sub one s) + Fval s) <= 2 * U + 2 ^ (scale - 53).
Proof.
  intros Fs Hs. pose proof U_pos as HU.
  set (x := U - Fval s). assert (Hx : 0 <= x <= U) by (unfold x; lia).
  pose proof (RNE_le_rep x U ltac:(lia) ltac:(lia) rep_U) as Hle.
  pose proof (RNE_nonneg x ltac:(lia)) as H0.
  destruct (float_sub_spec one s finite_one Fs) as [F V].
  { rewrite Fval_one. fold x. rewrite Z.abs_eq by lia.
    apply Z.le_lt_trans with (1 := Hle). apply Z.pow_lt_mono_r; unfold scale, emax; lia. }
  rewrite Fval_one in V. fold x in V. rewrite RNEs_nonneg in V by lia.
  split; [exact F|]. rewrite V. split; [lia|].
  destruct (Z.eq_dec (Fval s) 0) as [E0|E0].
  - assert (x = U) by (unfold x; lia). subst x. rewrite H, (RNE_rep U rep_U), E0.
    pose proof (pow2_pos (scale - 53) ltac:(unfold scale; lia)). lia.
  - pose proof (RNE_err x ltac:(lia)) as He.
    assert (Hg : 2 ^ grid x <= 2 ^ (scale - 53)).
    { apply Z.pow_le_mono_r; [lia|]. apply grid_below_U. unfold x. lia. }
    unfold x in *. lia.
Qed.

(** A sum that exceeds one by at most [2^-54] rounds to at most one. *)
Lemma float_add_le_one a b :
  finite a -> finite b -> 0 <= Fval a -> 0 <= Fval b ->
  2 * (Fval a + Fval b) <= 2 * U + 2 ^ (scale - 53) ->
  finite (float_add a b) /\ 0 <= Fval (float_add a b) <= U.
Proof.
  intros Fa Fb Ha Hb Hsum. pose proof U_pos as HU.
  set (y := Fval a + Fval b) in *. assert (Hy : 0 <= y) by (unfold y; lia).
  assert (Hr : RNE y <= U).
  { destruct (Z_le_gt_dec y U) as [L|L].
    - apply RNE_le_rep; [lia|lia|exact rep_U].
    - assert (Hl : Z.log2 y = scale).
      { apply Z.log2_unique; [unfold scale; lia|]. fold U. split; [lia|].
        rewrite Z.pow_succ_r by (unfold scale; lia). fold U.
        assert (2 ^ (scale - 53) < U)
          by (apply Z.pow_lt_mono_r; unfold scale; lia).
        lia. }
      assert (Hg : grid y = scale - 52) by (unfold grid; rewrite Hl; unfold prec, scale; lia).
      unfold RNE, rne_div. rewrite Hg.
      assert (HU2 : U = 2 ^ 52 * 2 ^ (scale - 52))
        by (unfold U; rewrite <- Z.pow_add_r by (unfold scale; lia); f_equal; unfold scale; lia).
      assert (Hh : 2 ^ (scale - 52) = 2 * 2 ^ (scale - 53)).
      { rewrite <- Z.pow_succ_r by (unfold scale; lia). reflexivity. }
      pose proof (pow2_pos (scale - 53) ltac:(unfold scale; lia)) as Hp.
      assert (Hq : y / 2 ^ (scale - 52) = 2 ^ 52 /\ y mod 2 ^ (scale - 52) = y - U).
      { assert (E : y = 2 ^ 52 * 2 ^ (scale - 52) + (y - U)) by lia.
        assert (B : 0 <= y - U < 2 ^ (scale - 52)) by lia.
        split.
        - symmetry. apply (Z.div_unique y _ (2 ^ 52) (y - U)); lia.
        - symmetry. apply (Z.mod_unique y _ (2 ^ 52) (y - U)); lia. }
      destruct Hq as [Hq Hm]. rewrite Hq, Hm.
      replace (2 * (y - U) ?= 2 ^ (scale - 52)) with Lt
        by (symmetry; apply Z.compare_lt_iff; lia).
      lia. }
  pose proof (RNE_nonneg y Hy) as H0.
  destruct (float_add_spec a b Fa Fb) as [F V].
  { fold y. rewrite Z.abs_eq by lia.
    apply Z.le_lt_trans with (1 := Hr). apply Z.pow_lt_mono_r; unfold scale, emax; lia. }
  fold y in V. rewrite RNEs_nonneg in V by lia.
  split; [exact F|]. rewrite V. lia.
Qed.

(** Above half of the smallest positive double nothing rounds to zero. *)
Lemma RNE_pos x : 2 ^ (scale - 1075) < x -> 0 < RNE x.
Proof.
  intros Hx. unfold RNE.
  pose proof (grid_nonneg x) as Hg. pose proof (pow2_pos _ Hg) as Hp.
  pose proof (pow2_pos (scale - 1075) ltac:(unfold scale; lia)) as Hp0.
  apply Z.mul_pos_pos; [|assumption].
  pose proof (rne_div_bounds x (grid x) Hg) as Hb.
  destruct (Z_le_gt_dec (2 ^ grid x) x) as [L|L].
  - assert (1 <= x / 2 ^ grid x) by (apply Z.div_le_lower_bound; lia). lia.
  - assert (Hl : Z.log2 x < grid x) by (apply log2_lt; lia).
    assert (Eg : grid x = scale - 1074) by (unfold grid, prec in *; lia).
    unfold rne_div. rewrite Z.div_small, Z.mod_small by lia.
    rewrite Eg in *.
    assert (2 ^ (scale - 1074) = 2 * 2 ^ (scale - 1075)).
    { rewrite <- Z.pow_succ_r by (unfold scale; lia). reflexivity. }
    replace (2 * x ?= 2 ^ (scale - 1074)) with Gt
      by (symmetry; apply Z.compare_gt_iff; lia).
    lia.
Qed.


(** [int(x)] of a non-negative finite float is the integer part of its
    value. *)
Lemma int_of_float_Fval x :
  finite x -> 0 <= Fval x -> int_of_float x = Ok (Fval x / U).
Proof.
  intros [Hx Tx] H0. destruct x as [s|s| |s m e]; try contradiction.
  - reflexivity.
  - pose proof (is_float_finite_inv _ _ _ Hx) as (He & _).
    pose proof (Fval_finite_pos m e ltac:(unfold scale; lia)).
    destruct s; [unfold Fval in H0; cbn [cond_Zopp] in H0; lia|].
    cbn [int_of_float cond_Zopp Fval]. f_equal. unfold U.
    destruct (Z_le_gt_dec 0 e) as [L|L].
    + rewrite Z.shiftl_mul_pow2 by lia.
      replace (Zpos m * 2 ^ (e + scale)) with (Zpos m * 2 ^ e * 2 ^ scale)
        by (rewrite (Z.pow_add_r 2 e scale) by (unfold scale; lia); ring).
      rewrite Z.div_mul; [reflexivity|].
      pose proof (pow2_pos scale ltac:(unfold scale; lia)). lia.
    + rewrite Z.shiftl_div_pow2 by lia.
      replace scale with ((e + scale) + (- e)) at 2 by lia.
      rewrite (Z.pow_add_r 2 (e + scale)) by (unfold scale; lia).
      rewrite (Z.mul_comm (2 ^ (e + scale))).
      rewrite Z.div_mul_cancel_r; [reflexivity| |];
        [pose proof (pow2_pos (- e) ltac:(lia))|pose proof (pow2_pos (e + scale) ltac:(unfold scale; lia))]; lia.
Qed.


(** The largest float below one is [1 - 2^-53]. *)
Lemma rep_below_U S : rep S -> S < U -> S <= U - 2 ^ (scale - 53).
Proof.
  intros [H0 Hm] HS.
  assert (HU1 : U = 2 * 2 ^ (scale - 1)).
  { unfold U. rewrite <- Z.pow_succ_r by (unfold scale; lia). reflexivity. }
  assert (Hh : 2 ^ (scale - 53) <= 2 ^ (scale - 1))
    by (apply Z.pow_le_mono_r; unfold scale; lia).
  destruct (Z_lt_le_dec S (2 ^ (scale - 1))) as [L|L]; [lia|].
  pose proof (pow2_pos (scale - 1) ltac:(unfold scale; lia)).
  assert (Hl : Z.log2 S = scale - 1).
  { apply Z.log2_unique; [unfold scale; lia|]. split; [assumption|].
    replace (Z.succ (scale - 1)) with scale by lia. exact HS. }
  assert (Hg : grid S = scale - 53) by (unfold grid, prec; rewrite Hl; unfold scale; lia).
  rewrite Hg in Hm.
  pose proof (pow2_pos (scale - 53) ltac:(unfold scale; lia)) as Hp.
  pose proof (Z.div_mod S (2 ^ (scale - 53)) ltac:(lia)) as E. rewrite Hm in E.
  assert (HU2 : U = 2 ^ 53 * 2 ^ (scale - 53))
    by (unfold U; rewrite <- Z.pow_add_r by (unfold scale; lia); reflexivity).
  set (G := 2 ^ (scale - 53)) in *. set (c := S / G) in *.
  assert (c < 2 ^ 53) by nia.
  nia.
Qed.

(** The product of a converted canvas dimension with a scale below one,
    once rounded, does not exceed the dimension itself, although the
    conversion may have rounded the dimension up. *)
Lemma split_point_bound W s :
  0 < W -> RNE (W * U) < 2 ^ (emax + scale) ->
  finite s -> 0 <= Fval s < U ->
  finite (binary_normalize prec emax W 0 false) /\
  finite (float_mul (binary_normalize prec emax W 0 false) s) /\
  0 <= Fval (float_mul (binary_normalize prec emax W 0 false) s) <= W * U.
Proof.
  intros HW Hov Fs Hs. pose proof U_pos as HU.
  destruct (float_of_int_spec W) as [FA VA].
  { rewrite Z.abs_eq by lia. exact Hov. }
  fold U in VA. rewrite RNEs_nonneg in VA by lia.
  set (A := binary_normalize prec emax W 0 false) in *.
  pose proof (RNE_nonneg (W * U) ltac:(lia)) as HA0. rewrite <- VA in HA0.
  destruct (float_mul_le_l A s FA Fs HA0 ltac:(lia)) as (FP & VP & HP0 & HP1).
  split; [exact FA|]. split; [exact FP|]. split; [exact HP0|].
  destruct (Z_le_gt_dec (Fval A) (W * U)) as [L|L]; [lia|].
  (* the conversion rounded up *)
  set (x := W * U) in *.
  assert (Hx : U <= x) by (unfold x; nia).
  set (Lx := Z.log2 x).
  pose proof (Z.log2_spec x ltac:(lia)) as [Hlo Hhi]. fold Lx in Hlo, Hhi.
  assert (HLx : scale <= Lx).
  { unfold Lx. apply Z.log2_le_pow2; [lia|exact Hx]. }
  set (g := Lx - 52).
  assert (Hg : grid x = g) by (unfold grid, prec, g; fold Lx; unfold scale in *; lia).
  assert (Hg0 : 0 <= g - 1) by (unfold g, scale in *; lia).
  pose proof (pow2_pos (g - 1) Hg0) as HpH.
  assert (E2g : 2 ^ g = 2 * 2 ^ (g - 1)).
  { rewrite <- Z.pow_succ_r by lia. f_equal. lia. }
  assert (E2L : 2 ^ Lx = 2 ^ 52 * 2 ^ g).
  { rewrite <- Z.pow_add_r by lia. f_equal. unfold g. lia. }
  assert (E2L1 : 2 ^ Z.succ Lx = 2 ^ 53 * 2 ^ g).
  { rewrite <- Z.pow_add_r by lia. f_equal. unfold g. lia. }
  set (q := x / 2 ^ g).
  pose proof (Z.div_mod x (2 ^ g) ltac:(lia)) as Ex. fold q in Ex.
  pose proof (Z.mod_pos_bound x (2 ^ g) ltac:(lia)) as Hr.
  assert (HAu : Fval A = (q + 1) * 2 ^ g).
  { rewrite VA. unfold RNE. rewrite Hg.
    pose proof (rne_div_bounds x g ltac:(lia)) as Hb. fold q in Hb.
    assert (rne_div x g = q \/ rne_div x g = q + 1) as [E|E] by lia.
    - exfalso. rewrite VA in L. unfold RNE in L. rewrite Hg, E in L. lia.
    - rewrite E. reflexivity. }
  assert (Hq52 : 2 ^ 52 <= q).
  { unfold q. apply Z.div_le_lower_bound; lia. }
  assert (Hq53 : q < 2 ^ 53).
  { unfold q. apply Z.div_lt_upper_bound; lia. }
  set (D := q * 2 ^ g).
  assert (HDlo : 2 ^ Lx <= D).
  { rewrite E2L. unfold D. apply Z.mul_le_mono_nonneg_r; lia. }
  assert (HDhi : D + 2 ^ g <= 2 ^ Z.succ Lx).
  { rewrite E2L1. replace (D + 2 ^ g) with ((q + 1) * 2 ^ g) by (unfold D; ring).
    apply Z.mul_le_mono_nonneg_r; lia. }
  assert (HDx : D <= x) by (unfold D; lia).
  assert (HrepD : rep D).
  { assert (HlD : Z.log2 D = Lx).
    { apply Z.log2_unique; [lia|]. split; lia. }
    split; [lia|].
    replace (grid D) with g by (unfold grid, prec; rewrite HlD; unfold g, scale in *; lia).
    apply Z.mod_mul. lia. }
  (* the exact product is strictly below the midpoint of [D] and [Fval A] *)
  pose proof (rep_below_U (Fval s) (rep_Fval s Fs ltac:(lia)) ltac:(lia)) as HS.
  set (y := Fval A * Fval s / U) in *.
  assert (Hy0 : 0 <= y) by (apply Z.div_pos; [apply Z.mul_nonneg_nonneg|]; lia).
  assert (HyU : y * U <= Fval A * Fval s).
  { pose proof (Z.mul_div_le (Fval A * Fval s) U HU). fold y in H. lia. }
  assert (Hmid : 2 * (y - D) < 2 ^ g).
  { assert (HUh : U = 2 ^ 53 * 2 ^ (scale - 53))
      by (unfold U; rewrite <- Z.pow_add_r by (unfold scale; lia); reflexivity).
    pose proof (pow2_pos (scale - 53) ltac:(unfold scale; lia)) as Hps.
    set (G := 2 ^ (scale - 53)) in *.
    assert (H1 : Fval A * Fval s <= Fval A * (U - G))
      by (apply Z.mul_le_mono_nonneg_l; lia).
    assert (H2 : 2 ^ 53 * 2 ^ (g - 1) < Fval A).
    { rewrite HAu. rewrite <- (Z.pow_add_r 2 53 (g - 1)) by lia.
      replace (53 + (g - 1)) with Lx by (unfold g; lia).
      replace ((q + 1) * 2 ^ g) with (D + 2 ^ g) by (unfold D; ring). lia. }
    assert (H3 : y * U < (Fval A - 2 ^ (g - 1)) * U).
    { apply Z.le_lt_trans with (1 := HyU). apply Z.le_lt_trans with (1 := H1).
      assert (H4 : 2 ^ (g - 1) * U < Fval A * G).
      { rewrite HUh, Z.mul_assoc. apply Z.mul_lt_mono_pos_r; [lia|].
        rewrite Z.mul_comm. exact H2. }
      rewrite Z.mul_sub_distr_l, Z.mul_sub_distr_r. lia. }
    assert (y < Fval A - 2 ^ (g - 1)) by (apply Z.mul_lt_mono_pos_r with U; assumption).
    rewrite HAu in H. unfold D. lia. }
  rewrite VP. fold y.
  apply Z.le_trans with D; [|unfold D; lia].
  destruct (Z_le_gt_dec y D) as [Ly|Ly].
  - apply RNE_le_rep; assumption.
  - assert (Hly : Z.log2 y = Lx).
    { apply Z.log2_unique; [lia|]. split; lia. }
    assert (Hgy : grid y = g) by (unfold grid, prec; rewrite Hly; unfold g, scale in *; lia).
    unfold RNE, rne_div. rewrite Hgy.
    assert (Hqy : y / 2 ^ g = q /\ y mod 2 ^ g = y - D).
    { unfold D in *. split.
      - symmetry. apply (Z.div_unique y _ q (y - q * 2 ^ g)); lia.
      - symmetry. apply (Z.mod_unique y _ q (y - q * 2 ^ g)); lia. }
    destruct Hqy as [-> ->].
    replace (2 * (y - D) ?= 2 ^ g) with Lt by (symmetry; apply Z.compare_lt_iff; lia).
    unfold D. lia.
Qed.

(** When the rounded value reaches [2^1024] the result is an infinity. *)
Lemma binary_round_aux_overflow s m e :
  - scale <= e ->
  e <= fexp prec emax (Zpos (digits2_pos m) + e) ->
  2 ^ (emax + scale) <= RNE (Zpos m * 2 ^ (e + scale)) ->
  binary_round_aux prec emax s (Zpos m) e loc_Exact = S754_infinity s.
Proof.
  intros He Hk Hov.
  pose proof (digits2_log2 m) as Hd.
  set (d := Zpos (digits2_pos m)) in *.
  set (k := fexp prec emax (d + e)) in *.
  assert (Hk1 : k = Z.max (d + e - 53) (-1074)) by (unfold k; apply fexp_eq).
  set (n := k - e).
  assert (Hn : 0 <= n) by (unfold n; lia).
  pose proof (Z.log2_spec (Zpos m) eq_refl) as [Hlo Hhi].
  replace (Z.succ (Z.log2 (Zpos m))) with d in Hhi by lia.
  unfold RNE in *.
  rewrite grid_mul_pow2 in * by lia.
  replace (Z.log2 (Zpos m) + 1 + e) with (d + e) in * by lia.
  fold k in Hov |- *.
  replace (k + scale) with (n + (e + scale)) in * by (unfold n; lia).
  rewrite rne_div_shift in * by lia.
  set (q := rne_div (Zpos m) n) in *.
  pose proof (rne_div_bounds (Zpos m) n Hn) as Hq. fold q in Hq.
  pose proof (pow2_pos n Hn) as H2n.
  assert (Hq0 : 0 <= Zpos m / 2 ^ n) by (apply Z.div_pos; lia).
  assert (Hq1 : Zpos m / 2 ^ n < 2 ^ 53).
  { apply Z.div_lt_upper_bound; [lia|].
    rewrite <- Z.pow_add_r by lia.
    apply Z.lt_le_trans with (1 := Hhi).
    apply Z.pow_le_mono_r; lia. }
  assert (Hks : 0 <= k + scale) by (unfold scale in *; lia).
  pose proof (pow2_pos _ Hks) as Hpk.
  replace (n + (e + scale)) with (k + scale) in Hov by (unfold n; lia).
  assert (Hbig : forall j, j <= emax -> 2 ^ (j + scale) <= 2 ^ (emax + scale))
    by (intros j Hj; apply Z.pow_le_mono_r; lia).
  unfold binary_round_aux, shr_fexp.
  change (Zdigits2 (Zpos m)) with d. fold k. fold n.
  change (shr_record_of_loc (Zpos m) loc_Exact)
    with {| shr_m := Zpos m; shr_r := false; shr_s := false |}.
  rewrite shr_nat by assumption.
  rewrite round_shr_rne by lia.
  rewrite Z2Nat.id by assumption. fold q.
  replace (e + n) with k by (unfold n; lia).
  rewrite fexp_eq.
  destruct q as [|p|p] eqn:Eq.
  - exfalso. rewrite Z.mul_0_l in Hov.
    pose proof (pow2_pos (emax + scale) ltac:(unfold emax, scale; lia)). lia.
  - pose proof (digits2_log2 p) as Hdp.
    change (Zdigits2 (Zpos p)) with (Zpos (digits2_pos p)).
    destruct (Z_lt_le_dec (Zpos p) (2 ^ 53)) as [Hp|Hp].
    + pose proof (log2_lt (Zpos p) 53 eq_refl Hp).
      rewrite shr_nonpos by lia.
      cbn [shr_m shr_record_of_loc].
      assert (Hk971 : 971 < k).
      { destruct (Z_lt_le_dec 971 k); [assumption|exfalso].
        assert (Zpos p * 2 ^ (k + scale) < 2 ^ (emax + scale)); [|lia].
        apply Z.lt_le_trans with (2 ^ 53 * 2 ^ (k + scale)).
        - apply Z.mul_lt_mono_pos_r; lia.
        - rewrite <- Z.pow_add_r by lia.
          replace (53 + (k + scale)) with ((53 + k) + scale) by lia.
          apply Hbig. unfold emax. lia. }
      replace (k <=? emax - prec) with false
        by (symmetry; apply Z.leb_gt; unfold emax, prec; lia).
      reflexivity.
    + assert (Ep : p = 9007199254740992%positive).
      { apply Pos2Z.inj. change (Zpos 9007199254740992) with (2 ^ 53). lia. }
      subst p.
      change (Zpos (digits2_pos 9007199254740992)) with 54.
      replace (Z.max (54 + k - 53) (-1074) - k) with 1 by lia.
      cbn [shr shr_record_of_loc SpecFloat.iter_pos shr_1 shr_m].
      assert (Hk971 : 971 < k + 1).
      { destruct (Z_lt_le_dec 971 (k + 1)); [assumption|exfalso].
        assert (Zpos 9007199254740992 * 2 ^ (k + scale) < 2 ^ (emax + scale)); [|lia].
        change (Zpos 9007199254740992) with (2 ^ 53).
        rewrite <- Z.pow_add_r by lia.
        apply Z.pow_lt_mono_r; unfold emax; lia. }
      replace (k + 1 <=? emax - prec) with false
        by (symmetry; apply Z.leb_gt; unfold emax, prec; lia).
      reflexivity.
  - lia.
Qed.

(** A representable value below [x] is at most the rounding of [x]. *)
Lemma RNE_ge_rep x y : 0 <= y -> y <= x -> rep y -> y <= RNE x.
Proof.
  intros Hy0 Hxy [_ Hm]. unfold RNE.
  pose proof (grid_nonneg x) as Hgx. pose proof (grid_nonneg y) as Hgy.
  pose proof (pow2_pos _ Hgx) as Hpx.
  pose proof (rne_div_bounds x (grid x) Hgx) as Hb.
  pose proof (Z.div_mod x (2 ^ grid x) ltac:(lia)) as Ex.
  pose proof (Z.mod_pos_bound x (2 ^ grid x) Hpx) as Hr.
  destruct (Z.eq_dec (y mod 2 ^ grid x) 0) as [E|E].
  - pose proof (Z.div_mod y (2 ^ grid x) ltac:(lia)) as Ey. rewrite E in Ey.
    assert (y / 2 ^ grid x <= x / 2 ^ grid x) by (apply Z.div_le_mono; lia).
    nia.
  - (* [y] lies in a lower binade *)
    assert (Hlt : grid y < grid x).
    { destruct (Z_lt_le_dec (grid y) (grid x)) as [L|L]; [exact L|exfalso].
      apply E. apply Z.mod_divide; [lia|].
      apply Z.divide_trans with (2 ^ grid y).
      - exists (2 ^ (grid y - grid x)). rewrite <- Z.pow_add_r by lia. f_equal. lia.
      - apply Z.mod_divide; [pose proof (pow2_pos (grid y)); lia|assumption]. }
    assert (Hx0 : 0 < x).
    { destruct (Z_lt_le_dec 0 x); [assumption|].
      assert (x = y) by lia. subst. lia. }
    assert (Hy1 : 0 < y).
    { destruct (Z_lt_le_dec 0 y); [assumption|].
      assert (y = 0) by lia. subst. rewrite Z.mod_0_l in E; lia. }
    unfold grid, prec in Hlt.
    assert (Hl : Z.log2 y < Z.log2 x) by lia.
    assert (Hgx' : grid x = Z.log2 x - 52) by (unfold grid, prec; lia).
    pose proof (Z.log2_spec x Hx0) as [Lx _].
    pose proof (Z.log2_spec y Hy1) as [_ Uy].
    assert (Hyx : y < 2 ^ Z.log2 x).
    { apply Z.lt_le_trans with (1 := Uy). apply Z.pow_le_mono_r; lia. }
    assert (E2 : 2 ^ Z.log2 x = 2 ^ 52 * 2 ^ grid x).
    { rewrite <- Z.pow_add_r by lia. f_equal. lia. }
    assert (2 ^ 52 <= x / 2 ^ grid x).
    { apply Z.div_le_lower_bound; lia. }
    apply Z.le_trans with (2 ^ 52 * 2 ^ grid x); [lia|].
    apply Z.mul_le_mono_nonneg_r; lia.
Qed.

(** ** The remap loop *)

Lemma set_item2_ok (rows : list (list float)) (i j : nat) (v : float) row :
  rows !! i = Some row -> (j < length row)%nat ->
  set_item2 rows i j v = Ok (<[i := <[j := v]> row]> rows).
Proof.
  intros Hi Hj. unfold set_item2. rewrite Hi.
  destruct (decide (j < length row)%nat); [reflexivity|contradiction].
Qed.

Lemma remap_step_ok q sx sy (rows : list (list float)) (i : nat) x y w h a b c d :
  rows !! i = Some [a; b; c; d] ->
  remap_step q sx sy rows i (x, y, w, h) =
  Ok (<[i := [new_x q sx x; new_y q sy y; new_w q sx w; new_h q sy h]]> rows).
Proof.
  intros Hi. unfold remap_step.
  pose proof (lookup_lt_Some _ _ _ Hi) as Hlt.
  rewrite (set_item2_ok rows i 0 _ _ Hi) by (simpl; lia).
  cbn [mbind result_bind].
  erewrite set_item2_ok; [|apply list_lookup_insert_eq; exact Hlt|simpl; lia].
  cbn [mbind result_bind].
  erewrite set_item2_ok;
    [|apply list_lookup_insert_eq; rewrite length_insert; exact Hlt|simpl; lia].
  cbn [mbind result_bind].
  erewrite set_item2_ok;
    [|apply list_lookup_insert_eq; rewrite !length_insert; exact Hlt|simpl; lia].
  rewrite !list_insert_insert_eq. reflexivity.
Qed.

(** The loop at index [length done], with the rows before it filled in
    and the rows from it on still zero. *)
Lemma remap_loop_ok q sx sy (bboxes : list bbox) : forall done : list (list float),
  remap_loop q sx sy (done ++ zeros_rows (length bboxes)) (length done) bboxes =
  Ok (done ++ map (remap_box q sx sy) bboxes).
Proof.
  induction bboxes as [|[[[x y] w] h] rest IH]; intros done.
  - reflexivity.
  - cbn [remap_loop length zeros_rows replicate mbind result_bind].
    erewrite remap_step_ok
      by (rewrite lookup_app_r, Nat.sub_diag by lia; reflexivity).
    cbn [mbind result_bind].
    rewrite insert_app_r_alt, Nat.sub_diag by lia. cbn [list_insert insert].
    specialize (IH (done ++ [remap_box q sx sy (x, y, w, h)])).
    rewrite length_app, <- app_assoc in IH. cbn [length app] in IH.
    replace (length done + 1)%nat with (S (length done)) in IH by lia.
    etransitivity; [exact IH|]. rewrite <- app_assoc. reflexivity.
Qed.

Lemma remap_bboxes_ok q sx sy (bboxes : list bbox) :
  remap_bboxes q sx sy bboxes = Ok (map (remap_box q sx sy) bboxes).
Proof.
  unfold remap_bboxes. destruct bboxes as [|b rest]; [reflexivity|].
  change (if (length (b :: rest) =? 0)%nat then [] else zeros_rows (length (b :: rest)))
    with (zeros_rows (length (b :: rest))).
  exact (remap_loop_ok q sx sy (b :: rest) []).
Qed.

(** ** Output paths *)

Lemma split_on_head s :
  exists rest, split_on "." s = before_first_dot s :: rest.
Proof.
  induction s as [|a s [rest IH]].
  - exists []. reflexivity.
  - cbn [split_on before_first_dot]. destruct (Ascii.eqb a ".").
    + eexists. reflexivity.
    + rewrite IH. eexists. reflexivity.
Qed.

Lemma name_stem_ok (image_file_list : list string) (k : nat) name :
  image_file_list !! k = Some name ->
  name_stem image_file_list k = Ok (before_first_dot name).
Proof.
  intros H. unfold name_stem, get_item. rewrite H. cbn [mbind result_bind].
  destruct (split_on_head name) as [rest ->]. reflexivity.
Qed.

Lemma create_data_store_path_ok sep odir ldir n0 n1 n2 n3 more :
  create_data_store_path sep odir ldir (n0 :: n1 :: n2 :: n3 :: more) =
  Ok (odir +:+ sep +:+
        ("mo_" +:+ before_first_dot n0 +:+ "_" +:+ before_first_dot n1 +:+ "_" +:+
         before_first_dot n2 +:+ "_" +:+ before_first_dot n3 +:+ ".jpg"),
      ldir +:+ sep +:+
        ("mo_" +:+ before_first_dot n0 +:+ "_" +:+ before_first_dot n1 +:+ "_" +:+
         before_first_dot n2 +:+ "_" +:+ before_first_dot n3 +:+ ".txt"))%string.
Proof.
  unfold create_data_store_path.
  rewrite (name_stem_ok _ 0 n0), (name_stem_ok _ 1 n1),
          (name_stem_ok _ 2 n2), (name_stem_ok _ 3 n3) by reflexivity.
  reflexivity.
Qed.

Lemma create_data_store_path_short sep odir ldir (l : list string) :
  (length l < 4)%nat ->
  create_data_store_path sep odir ldir l = Raise IndexError.
Proof.
  intros H. unfold create_data_store_path.
  destruct l as [|n0 [|n1 [|n2 [|n3 more]]]]; cbn [length] in H; try lia.
  - reflexivity.
  - rewrite (name_stem_ok _ 0 n0) by reflexivity. reflexivity.
  - rewrite (name_stem_ok _ 0 n0), (name_stem_ok _ 1 n1) by reflexivity. reflexivity.
  - rewrite (name_stem_ok _ 0 n0), (name_stem_ok _ 1 n1), (name_stem_ok _ 2 n2)
      by reflexivity. reflexivity.
Qed.

Lemma has_dot_count s : has_dot s = false <-> count_dots s = 0%nat.
Proof.
  induction s as [|a s IH]; [split; reflexivity|].
  cbn [has_dot count_dots]. destruct (Ascii.eqb a "."); cbn [orb].
  - split; [discriminate|lia].
  - rewrite IH. reflexivity.
Qed.

(** On a name with at most one dot, cutting at the first dot removes the
    extension. *)
Lemma before_first_dot_extension s :
  (count_dots s <= 1)%nat -> before_first_dot s = extension_removed s.
Proof.
  induction s as [|a s IH]; [reflexivity|].
  cbn [count_dots before_first_dot extension_removed]. intros H.
  destruct (Ascii.eqb a "."); cbn [andb].
  - assert (E : has_dot s = false) by (apply has_dot_count; lia).
    rewrite E. reflexivity.
  - rewrite IH by lia. reflexivity.
Qed.

(** ** Scales and coordinates in the unit interval *)

Lemma open_unit_Fval s :
  is_float s -> open_unit s -> finite s /\ 0 < Fval s < U.
Proof.
  intros Hs [H0 H1]. unfold float_lt in *.
  assert (F : finite s).
  { split; [exact Hs|]. destruct s as [b|b| |b m e]; try exact I.
    - destruct b; discriminate.
    - discriminate. }
  split; [exact F|].
  apply (float_lt_Fval zero s (finite_zero false) F) in H0.
  apply (float_lt_Fval s one F finite_one) in H1.
  rewrite Fval_one in H1. change (Fval zero) with 0 in H0. lia.
Qed.

Lemma closed_unit_Fval x :
  is_float x -> closed_unit x -> finite x /\ 0 <= Fval x <= U.
Proof.
  intros Hx [H0 H1]. unfold float_le in *.
  assert (F : finite x).
  { split; [exact Hx|]. destruct x as [b|b| |b m e]; try exact I.
    - destruct b; discriminate.
    - discriminate. }
  split; [exact F|].
  apply (float_le_Fval zero x (finite_zero false) F) in H0.
  apply (float_le_Fval x one F finite_one) in H1.
  rewrite Fval_one in H1. change (Fval zero) with 0 in H0. lia.
Qed.

Lemma positive_unit_Fval w :
  is_float w -> positive_unit w -> finite w /\ 0 < Fval w <= U.
Proof.
  intros Hw [H0 H1]. unfold float_lt, float_le in *.
  assert (F : finite w).
  { split; [exact Hw|]. destruct w as [b|b| |b m e]; try exact I.
    - destruct b; discriminate.
    - discriminate. }
  split; [exact F|].
  apply (float_lt_Fval zero w (finite_zero false) F) in H0.
  apply (float_le_Fval w one F finite_one) in H1.
  rewrite Fval_one in H1. change (Fval zero) with 0 in H0. lia.
Qed.

Lemma closed_unit_intro x :
  finite x -> 0 <= Fval x <= U -> closed_unit x.
Proof.
  intros F H. split; unfold float_le.
  - apply (float_le_Fval zero x (finite_zero false) F). change (Fval zero) with 0. lia.
  - apply (float_le_Fval x one F finite_one). rewrite Fval_one. lia.
Qed.

Lemma float_lt_zero_intro x : finite x -> 0 < Fval x -> float_lt zero x = true.
Proof.
  intros F H. unfold float_lt.
  apply (float_lt_Fval zero x (finite_zero false) F). change (Fval zero) with 0. lia.
Qed.

(** ** The split points *)

Lemma float_floor_int x :
  finite x -> 0 <= Fval x -> int_of_float x = Ok (float_floor x).
Proof.
  intros [Hx Tx] H0. destruct x as [s|s| |s m e]; try contradiction.
  - reflexivity.
  - pose proof (is_float_finite_inv _ _ _ Hx) as (He & _).
    pose proof (Fval_finite_pos m e ltac:(unfold scale; lia)).
    destruct s; [unfold Fval in H0; cbn [cond_Zopp] in H0; lia|].
    reflexivity.
Qed.

Lemma rep_2_63 : rep (2 ^ 63 * U) /\ 2 ^ 63 * U < 2 ^ (emax + scale).
Proof.
  replace (2 ^ 63 * U) with (Zpos 4503599627370496 * 2 ^ (11 + scale)).
  - apply Fval_pos_rep. reflexivity.
  - change (Zpos 4503599627370496) with (2 ^ 52). unfold U.
    rewrite <- !Z.pow_add_r by (unfold scale; lia). reflexivity.
Qed.

(** [int(n * s)] for a positive [n] below [2^63] and [0 < s < 1]. *)
Lemma int_mul_float_split n s :
  0 < n < 2 ^ 63 -> is_float s -> open_unit s ->
  exists p, int_mul_float n s = Ok p /\
            int_of_float p = Ok (float_floor p) /\
            0 <= float_floor p <= n.
Proof.
  intros Hn Hs Hu. destruct (open_unit_Fval s Hs Hu) as [Fs HFs].
  pose proof U_pos as HU. destruct rep_2_63 as [Hrep Hbnd].
  assert (Hov : RNE (n * U) < 2 ^ (emax + scale)).
  { apply Z.le_lt_trans with (2 ^ 63 * U); [|exact Hbnd].
    apply RNE_le_rep; [nia| |exact Hrep].
    apply Z.mul_le_mono_nonneg_r; lia. }
  destruct (split_point_bound n s ltac:(lia) Hov Fs ltac:(lia)) as (FA & FP & HP).
  unfold int_mul_float, float_of_int.
  set (A := binary_normalize prec emax n 0 false) in *.
  exists (float_mul A s). split.
  - destruct FA as [_ TA]. destruct A; try contradiction; reflexivity.
  - pose proof (float_floor_int _ FP ltac:(lia)) as Hfl.
    split; [exact Hfl|].
    rewrite (int_of_float_Fval _ FP ltac:(lia)) in Hfl.
    injection Hfl as <-.
    split; [apply Z.div_pos; lia|].
    apply Z.div_le_upper_bound; [lia|]. rewrite Z.mul_comm. lia.
Qed.

Lemma np_empty_inv memory h w canvas :
  np_empty memory h w = Ok canvas ->
  0 <= h /\ 0 <= w /\ h * w * 3 < 2 ^ 63 /\
  canvas = {| height := h; width := w; pix := memory |}.
Proof.
  unfold np_empty.
  destruct (Z.ltb_spec h 0); [discriminate|].
  destruct (Z.ltb_spec w 0); [discriminate|]. cbn [orb].
  destruct (Z.leb_spec (2 ^ 63) (h * w * 3)); [discriminate|].
  intros [= <-]. auto.
Qed.

Lemma split_points_ok mo_w mo_h sx sy :
  0 < mo_w < 2 ^ 63 -> 0 < mo_h < 2 ^ 63 ->
  is_float sx -> is_float sy -> open_unit sx -> open_unit sy ->
  exists px py,
    int_mul_float mo_w sx = Ok px /\ int_mul_float mo_h sy = Ok py /\
    split_points mo_w mo_h sx sy = Ok (float_floor px, float_floor py) /\
    0 <= float_floor px <= mo_w /\ 0 <= float_floor py <= mo_h.
Proof.
  intros Hw Hh Fx Fy Ux Uy.
  destruct (int_mul_float_split mo_w sx Hw Fx Ux) as (px & Epx & Eix & Hx).
  destruct (int_mul_float_split mo_h sy Hh Fy Uy) as (py & Epy & Eiy & Hy).
  exists px, py. unfold split_points. rewrite Epx, Epy.
  cbn [mbind result_bind]. rewrite Eix. cbn [mbind result_bind]. rewrite Eiy.
  auto.
Qed.

(** ** Canvas regions *)

Lemma slice_bound_id d n : 0 <= d <= n -> slice_bound d n = d.
Proof. intros H. unfold slice_bound. destruct (Z.ltb_spec d 0); lia. Qed.

Lemma slice_bound_range d n : 0 <= n -> 0 <= slice_bound d n <= n.
Proof. intros H. unfold slice_bound. destruct (Z.ltb_spec d 0); lia. Qed.

Lemma in_region_spec rg r c :
  in_region rg r c = true <->
  row_lo rg <= r < row_hi rg /\ col_lo rg <= c < col_hi rg.
Proof.
  unfold in_region. rewrite !andb_true_iff, !Z.leb_le, !Z.ltb_lt. lia.
Qed.

Lemma quadrant_regions_disjoint q1 q2 mo_h mo_w dy dx r c :
  q1 <> q2 ->
  in_region (quadrant_region q1 mo_h mo_w dy dx) r c = true ->
  in_region (quadrant_region q2 mo_h mo_w dy dx) r c = false.
Proof.
  intros Hne H1. apply not_true_is_false. intros H2.
  apply in_region_spec in H1, H2.
  destruct q1, q2; try congruence; cbn in H1, H2; lia.
Qed.

Lemma quadrant_regions_cover mo_h mo_w dy dx r c :
  0 <= r < mo_h -> 0 <= c < mo_w ->
  exists q, in_region (quadrant_region q mo_h mo_w dy dx) r c = true.
Proof.
  intros Hr Hc.
  destruct (Z_lt_le_dec r (slice_bound dy mo_h)), (Z_lt_le_dec c (slice_bound dx mo_w)).
  - exists TopLeft. apply in_region_spec. cbn. lia.
  - exists TopRight. apply in_region_spec. cbn. lia.
  - exists BottomLeft. apply in_region_spec. cbn. lia.
  - exists BottomRight. apply in_region_spec. cbn. lia.
Qed.

Lemma quadrant_regions_inside q mo_h mo_w dy dx r c :
  0 <= mo_h -> 0 <= mo_w ->
  in_region (quadrant_region q mo_h mo_w dy dx) r c = true ->
  0 <= r < mo_h /\ 0 <= c < mo_w.
Proof.
  intros Hh Hw H. apply in_region_spec in H.
  pose proof (slice_bound_range dy mo_h Hh). pose proof (slice_bound_range dx mo_w Hw).
  destruct q; cbn in H; lia.
Qed.

Lemma set_region_inv canvas rg src canvas' :
  set_region canvas rg src = Ok canvas' ->
  height canvas' = height canvas /\ width canvas' = width canvas /\
  (forall r c, in_region rg r c = false -> pix canvas' r c = pix canvas r c) /\
  (forall r c, in_region rg r c = true ->
     pix canvas' r c = pix src (if height src =? 1 then 0 else r - row_lo rg)
                               (if width src =? 1 then 0 else c - col_lo rg)).
Proof.
  unfold set_region. destruct (_ && _); [|discriminate].
  intros [= <-]. cbn. repeat split; intros r c H; rewrite H; reflexivity.
Qed.

(** ** Scales outside the unit interval *)

Lemma float_mul_overflow a b :
  finite a -> finite b ->
  2 ^ (emax + scale) <= RNE (Z.abs (Fval a * Fval b) / 2 ^ scale) ->
  exists s, float_mul a b = S754_infinity s.
Proof.
  intros [Ha Fa] [Hb Fb] Hov.
  pose proof (pow2_pos (emax + scale) ltac:(unfold emax, scale; lia)) as Hpos.
  destruct a as [sa|sa| |sa ma ea]; try contradiction;
  destruct b as [sb|sb| |sb mb eb]; try contradiction;
    try (exfalso; cbn [Fval] in Hov;
         rewrite ?Z.mul_0_l, ?Z.mul_0_r in Hov;
         change (RNE (Z.abs 0 / 2 ^ scale)) with 0 in Hov; lia).
  pose proof (is_float_finite_inv _ _ _ Ha) as (Hea & Hma & Hca).
  pose proof (is_float_finite_inv _ _ _ Hb) as (Heb & Hmb & Hcb).
  pose proof (pow2_pos scale ltac:(unfold scale; lia)) as Hps.
  assert (Ex : Zpos ma * 2 ^ (ea + scale) * (Zpos mb * 2 ^ (eb + scale)) =
               Zpos (ma * mb) * 2 ^ (ea + eb + scale) * 2 ^ scale).
  { assert (P : 2 ^ (ea + scale) * 2 ^ (eb + scale) = 2 ^ (ea + eb + scale) * 2 ^ scale)
      by (rewrite <- !Z.pow_add_r by (unfold scale; lia); f_equal; lia).
    rewrite Pos2Z.inj_mul, <- (Z.mul_assoc _ (2 ^ (ea + eb + scale))), <- P. ring. }
  pose proof (Fval_finite_pos (ma * mb) (ea + eb) ltac:(unfold scale; lia)) as Hxpos.
  assert (Eabs : Z.abs (Fval (S754_finite sa ma ea) * Fval (S754_finite sb mb eb)) / 2 ^ scale
                 = Zpos (ma * mb) * 2 ^ (ea + eb + scale)).
  { unfold Fval. destruct sa, sb; cbn [cond_Zopp];
      rewrite ?Z.mul_opp_opp, ?Z.mul_opp_l, ?Z.mul_opp_r, ?Z.abs_opp, Ex;
      rewrite Z.abs_eq by lia; apply Z.div_mul; lia. }
  rewrite Eabs in Hov.
  exists (xorb sa sb). cbn [float_mul SFmul].
  apply binary_round_aux_overflow; [unfold scale; lia| |assumption].
  rewrite fexp_eq, digits2_log2, Pos2Z.inj_mul.
  pose proof (Z.log2_mul_below (Zpos ma) (Zpos mb) eq_refl eq_refl).
  pose proof (Z.log2_nonneg (Zpos ma)). pose proof (Z.log2_nonneg (Zpos mb)).
  lia.
Qed.

Lemma int_of_float_nonpos p :
  finite p -> Fval p <= 0 -> exists d, int_of_float p = Ok d /\ d <= 0.
Proof.
  intros [Hp Tp] H. destruct p as [s|s| |s m e]; try contradiction.
  - exists 0. split; [reflexivity|lia].
  - pose proof (is_float_finite_inv _ _ _ Hp) as (He & _).
    pose proof (Fval_finite_pos m e ltac:(unfold scale; lia)).
    destruct s; [|unfold Fval in H; cbn [cond_Zopp] in H; lia].
    eexists. split; [reflexivity|]. cbn [cond_Zopp].
    pose proof (Z.shiftl_nonneg (Zpos m) e). lia.
Qed.

Lemma rep_small_int n : 0 < n <= 2 ^ 53 -> rep (n * U).
Proof.
  intros Hn. pose proof U_pos as HU. split; [nia|].
  unfold U. change (2 ^ scale) with (2 ^ (0 + scale)) at 2.
  rewrite (grid_mul_pow2 n 0) by (unfold scale; lia).
  rewrite fexp_eq.
  destruct (Z.eq_dec n (2 ^ 53)) as [->|Hne].
  - rewrite Z.log2_pow2 by lia.
    replace (Z.max (53 + 1 + 0 - 53) (-1074) + scale) with (1 + scale) by lia.
    rewrite (Z.pow_add_r 2 1 scale) by (unfold scale; lia).
    change (2 ^ 53) with (2 ^ 52 * 2 ^ 1).
    replace (2 ^ 52 * 2 ^ 1 * 2 ^ scale) with (2 ^ 52 * (2 ^ 1 * 2 ^ scale)) by ring.
    apply Z.mod_mul. pose proof (pow2_pos scale ltac:(unfold scale; lia)). lia.
  - assert (Z.log2 n < 53) by (apply log2_lt; lia).
    pose proof (Z.log2_nonneg n).
    set (g := Z.max (Z.log2 n + 1 + 0 - 53) (-1074) + scale).
    assert (Hg : 0 <= g <= scale) by (unfold g, scale; lia).
    replace scale with ((scale - g) + g) at 1 by lia.
    rewrite (Z.pow_add_r 2 (scale - g) g), Z.mul_assoc by lia.
    apply Z.mod_mul. pose proof (pow2_pos g ltac:(lia)). lia.
Qed.

(** [float(n)] is exact up to [2^53]. *)
Lemma float_of_int_exact n :
  0 < n <= 2 ^ 53 ->
  float_of_int n = Ok (binary_normalize prec emax n 0 false) /\
  finite (binary_normalize prec emax n 0 false) /\
  Fval (binary_normalize prec emax n 0 false) = n * U.
Proof.
  intros Hn. pose proof U_pos as HU.
  pose proof (rep_small_int n Hn) as Hrep.
  assert (Hb : n * U < 2 ^ (emax + scale)).
  { apply Z.le_lt_trans with (2 ^ 53 * U); [apply Z.mul_le_mono_nonneg_r; lia|].
    unfold U. rewrite <- Z.pow_add_r by (unfold scale; lia).
    apply Z.pow_lt_mono_r; unfold emax, scale; lia. }
  destruct (float_of_int_spec n) as [F V].
  { rewrite Z.abs_eq by lia. fold U. rewrite (RNE_rep _ Hrep). exact Hb. }
  fold U in V. rewrite RNEs_nonneg, (RNE_rep _ Hrep) in V by nia.
  split; [|split; assumption].
  unfold float_of_int. destruct F as [_ T].
  destruct (binary_normalize prec emax n 0 false); try contradiction; reflexivity.
Qed.

(** [int(n * s)] for a scale that is not in (0,1): it raises, or it is
    at most [0], or it is at least [n]. *)
Lemma scaled_dim_outside n s :
  0 < n <= 2 ^ 53 -> is_float s -> ~ open_unit s ->
  (exists e, (p ← int_mul_float n s; int_of_float p) = Raise e) \/
  (exists d, (p ← int_mul_float n s; int_of_float p) = Ok d /\ (d <= 0 \/ n <= d)).
Proof.
  intros Hn Hs Hout. pose proof U_pos as HU.
  destruct (float_of_int_exact n Hn) as (EA & FA & VA).
  unfold int_mul_float. rewrite EA. cbn [mbind result_bind].
  set (A := binary_normalize prec emax n 0 false) in *.
  assert (HA : 0 < Fval A) by (rewrite VA; nia).
  destruct s as [b|b| |b m e].
  - (* zero *)
    right. exists 0.
    destruct (float_mul_le_l A (S754_zero b) FA (finite_zero b) ltac:(lia))
      as (FP & VP & HP); [cbn [Fval]; lia|].
    cbn [Fval] in VP. rewrite Z.mul_0_r in VP. change (RNE (0 / U)) with 0 in VP.
    rewrite (int_of_float_Fval _ FP ltac:(lia)), VP, Z.div_0_l by lia.
    split; [reflexivity|lia].
  - (* an infinity *)
    left. destruct A as [sa|sa| |sa ma ea]; try (destruct FA; contradiction);
      [cbn [Fval] in HA; lia|].
    eexists. reflexivity.
  - (* NaN *)
    left. exists ValueError. destruct A; reflexivity.
  - assert (Fs : finite (S754_finite b m e)) by (split; [exact Hs|exact I]).
    pose proof (is_float_finite_inv _ _ _ Hs) as (He & _).
    pose proof (Fval_finite_pos m e ltac:(unfold scale; lia)) as Hpos.
    set (s := S754_finite b m e) in *.
    destruct (Z_lt_le_dec (RNE (Z.abs (Fval A * Fval s) / 2 ^ scale)) (2 ^ (emax + scale)))
      as [Hov|Hov].
    + destruct (float_mul_spec A s FA Fs Hov) as [FP VP]. fold U in VP.
      destruct b.
      * (* negative *)
        right.
        assert (Hneg : Fval (float_mul A s) <= 0).
        { rewrite VP. unfold RNEs.
          assert (Hq : Fval A * Fval s / U <= 0).
          { apply Z.div_le_upper_bound; [lia|].
            unfold s, Fval at 2. cbn [cond_Zopp]. nia. }
          pose proof (RNE_nonneg (Z.abs (Fval A * Fval s / U)) (Z.abs_nonneg _)).
          destruct (Z.eq_dec (Fval A * Fval s / U) 0) as [->|Hne]; [reflexivity|].
          rewrite Z.sgn_neg by lia. lia. }
        destruct (int_of_float_nonpos _ FP Hneg) as (d & Ed & Hd).
        exists d. auto.
      * (* at least one *)
        right.
        assert (HsU : U <= Fval s).
        { destruct (Z_lt_le_dec (Fval s) U) as [L|L]; [exfalso|exact L].
          apply Hout. split; unfold float_lt.
          - apply (float_lt_Fval zero s (finite_zero false) Fs).
            change (Fval zero) with 0. unfold s, Fval. cbn [cond_Zopp]. lia.
          - apply (float_lt_Fval s one Fs finite_one). rewrite Fval_one. exact L. }
        assert (Hx : n * U <= Fval A * Fval s / U).
        { apply Z.div_le_lower_bound; [lia|]. rewrite VA.
          rewrite (Z.mul_comm U). apply Z.mul_le_mono_nonneg_l; nia. }
        rewrite RNEs_nonneg in VP by nia.
        pose proof (RNE_ge_rep (Fval A * Fval s / U) (n * U) ltac:(nia) Hx
                      (rep_small_int n Hn)) as Hge.
        exists (Fval (float_mul A s) / U).
        rewrite (int_of_float_Fval _ FP ltac:(rewrite VP; nia)).
        split; [reflexivity|]. right.
        apply Z.div_le_lower_bound; [lia|]. rewrite VP, (Z.mul_comm U). exact Hge.
    + left. destruct (float_mul_overflow A s FA Fs Hov) as [sg ->].
      exists OverflowError. reflexivity.
Qed.

Lemma split_points_inv mo_w mo_h sx sy dx dy :
  split_points mo_w mo_h sx sy = Ok (dx, dy) ->
  (p ← int_mul_float mo_w sx; int_of_float p) = Ok dx /\
  (p ← int_mul_float mo_h sy; int_of_float p) = Ok dy.
Proof.
  unfold split_points.
  destruct (int_mul_float mo_w sx) as [px|e]; [|discriminate].
  cbn [mbind result_bind].
  destruct (int_of_float px) as [x|e]; [|discriminate].
  cbn [mbind result_bind].
  destruct (int_mul_float mo_h sy) as [py|e]; [|discriminate].
  cbn [mbind result_bind].
  destruct (int_of_float py) as [y|e]; [|discriminate].
  cbn [mbind result_bind]. intros [= <- <-]. auto.
Qed.

(** ** The affine maps on the unit interval *)

Lemma one_minus_unit s :
  is_float s -> open_unit s ->
  finite (one_minus s) /\ 0 <= Fval (one_minus s) <= U /\
  2 * (Fval (one_minus s) + Fval s) <= 2 * U + 2 ^ (scale - 53).
Proof.
  intros Hs Hu. destruct (open_unit_Fval s Hs Hu) as [Fs HFs].
  apply float_sub_one; [exact Fs|lia].
Qed.

(** [x * s] *)
Lemma mul_scale_unit x s :
  finite x -> 0 <= Fval x <= U -> finite s -> 0 <= Fval s <= U ->
  finite (float_mul x s) /\
  Fval (float_mul x s) = RNE (Fval x * Fval s / U) /\
  0 <= Fval (float_mul x s) <= U.
Proof.
  intros Fx Hx Fs Hs.
  destruct (float_mul_le_l x s Fx Fs ltac:(lia) Hs) as (F & V & H).
  split; [exact F|]. split; [exact V|]. lia.
Qed.

(** [x * (1 - s) + s] *)
Lemma affine_unit x s :
  finite x -> 0 <= Fval x <= U -> is_float s -> open_unit s ->
  finite (float_add (float_mul x (one_minus s)) s) /\
  0 <= Fval (float_add (float_mul x (one_minus s)) s) <= U.
Proof.
  intros Fx Hx Hs Hu.
  destruct (open_unit_Fval s Hs Hu) as [Fs HFs].
  destruct (one_minus_unit s Hs Hu) as (Ft & Ht & Hsum).
  destruct (float_mul_le_r x (one_minus s) Fx Ft Hx ltac:(lia)) as (Fp & _ & Hp).
  apply float_add_le_one; try assumption; lia.
Qed.

Lemma x_span_unit q s :
  is_float s -> open_unit s ->
  finite (x_span q s) /\ 0 <= Fval (x_span q s) <= U.
Proof.
  intros Hs Hu. unfold x_span. destruct (is_left q).
  - destruct (open_unit_Fval s Hs Hu) as [Fs HFs]. split; [exact Fs|lia].
  - destruct (one_minus_unit s Hs Hu) as (Ft & Ht & _). split; assumption.
Qed.

Lemma y_span_unit q s :
  is_float s -> open_unit s ->
  finite (y_span q s) /\ 0 <= Fval (y_span q s) <= U.
Proof.
  intros Hs Hu. unfold y_span. destruct (is_top q).
  - destruct (open_unit_Fval s Hs Hu) as [Fs HFs]. split; [exact Fs|lia].
  - destruct (one_minus_unit s Hs Hu) as (Ft & Ht & _). split; assumption.
Qed.

Lemma new_w_span q s w : new_w q s w = float_mul w (x_span q s).
Proof. unfold new_w, x_span. destruct (is_left q); reflexivity. Qed.

Lemma new_h_span q s h : new_h q s h = float_mul h (y_span q s).
Proof. unfold new_h, y_span. destruct (is_top q); reflexivity. Qed.

Lemma new_x_unit q s x :
  is_float s -> open_unit s -> is_float x -> closed_unit x ->
  closed_unit (new_x q s x).
Proof.
  intros Hs Hu Hx Hc. destruct (closed_unit_Fval x Hx Hc) as [Fx HFx].
  destruct (open_unit_Fval s Hs Hu) as [Fs HFs].
  unfold new_x. destruct (is_left q).
  - destruct (mul_scale_unit x s Fx HFx Fs ltac:(lia)) as (F & _ & H).
    apply closed_unit_intro; assumption.
  - destruct (affine_unit x s Fx HFx Hs Hu) as (F & H).
    apply closed_unit_intro; assumption.
Qed.

Lemma new_y_unit q s y :
  is_float s -> open_unit s -> is_float y -> closed_unit y ->
  closed_unit (new_y q s y).
Proof.
  intros Hs Hu Hy Hc. destruct (closed_unit_Fval y Hy Hc) as [Fy HFy].
  destruct (open_unit_Fval s Hs Hu) as [Fs HFs].
  unfold new_y. destruct (is_top q).
  - destruct (mul_scale_unit y s Fy HFy Fs ltac:(lia)) as (F & _ & H).
    apply closed_unit_intro; assumption.
  - destruct (affine_unit y s Fy HFy Hs Hu) as (F & H).
    apply closed_unit_intro; assumption.
Qed.

(** A width or height times its span: in the unit interval, and positive
    unless the product underflows. *)
Lemma mul_span_unit w t :
  is_float w -> positive_unit w -> finite t -> 0 <= Fval t <= U ->
  closed_unit (float_mul w t) /\
  (no_underflow w t -> positive_unit (float_mul w t)).
Proof.
  intros Hw Hp Ft Ht. destruct (positive_unit_Fval w Hw Hp) as [Fw HFw].
  destruct (mul_scale_unit w t Fw ltac:(lia) Ft Ht) as (F & V & H).
  pose proof (closed_unit_intro _ F H) as Hc.
  split; [exact Hc|].
  intros Hnu. unfold no_underflow in Hnu.
  split; [|exact (proj2 Hc)].
  apply float_lt_zero_intro; [exact F|]. rewrite V. apply RNE_pos. exact Hnu.
Qed.

(* ================================================================== *)
(** * The claims *)
(* ================================================================== *)

(** The decimal literals of the examples denote the doubles used for
    them. *)
Lemma literals_are_nearest :
  forallb (fun '(n, d) => nearest_double n d (lit n d))
    [(4, 10); (6, 10); (5, 10); (2, 10); (7, 10); (3, 10); (12, 100); (15, 10)] = true.
Proof. vm_compute. reflexivity. Qed.

(** C1: for each of the four quadrants, the remap loop of the composer
    turns every box [(x, y, w, h)] the crop returned into the row
    [[x', y', w', h']] given by the quadrant's affine maps, in binary64
    arithmetic: top-left [(x*scaleX, y*scaleY, w*scaleX, h*scaleY)],
    top-right [(x*(1-scaleX)+scaleX, y*scaleY, w*(1-scaleX), h*scaleY)],
    bottom-left [(x*scaleX, y*(1-scaleY)+scaleY, w*scaleX, h*(1-scaleY))],
    bottom-right [(x*(1-scaleX)+scaleX, y*(1-scaleY)+scaleY,
    w*(1-scaleX), h*(1-scaleY))]. *)
Theorem C1_remap_formulas (scaleX scaleY : float) (bboxes : list bbox) :
  remap_bboxes TopLeft scaleX scaleY bboxes =
    Ok (map (fun '(x, y, w, h) =>
               [float_mul x scaleX; float_mul y scaleY;
                float_mul w scaleX; float_mul h scaleY]) bboxes) /\
  remap_bboxes TopRight scaleX scaleY bboxes =
    Ok (map (fun '(x, y, w, h) =>
               [float_add (float_mul x (float_sub one scaleX)) scaleX;
                float_mul y scaleY;
                float_mul w (float_sub one scaleX); float_mul h scaleY]) bboxes) /\
  remap_bboxes BottomLeft scaleX scaleY bboxes =
    Ok (map (fun '(x, y, w, h) =>
               [float_mul x scaleX;
                float_add (float_mul y (float_sub one scaleY)) scaleY;
                float_mul w scaleX; float_mul h (float_sub one scaleY)]) bboxes) /\
  remap_bboxes BottomRight scaleX scaleY bboxes =
    Ok (map (fun '(x, y, w, h) =>
               [float_add (float_mul x (float_sub one scaleX)) scaleX;
                float_add (float_mul y (float_sub one scaleY)) scaleY;
                float_mul w (float_sub one scaleX);
                float_mul h (float_sub one scaleY)]) bboxes).
Proof.
  repeat split; rewrite remap_bboxes_ok; f_equal; apply map_ext;
    intros [[[x y] w] h]; reflexivity.
Qed.

(** C2: for the canvas 800 x 800 with scaleX = 0.4 and scaleY = 0.6 the
    split points are 320 and 480, the target sizes (w, h) of the
    quadrants 0..3 are (320,480), (480,480), (320,320), (480,320), and
    the top-right local box (0.5, 0.5, 0.2, 0.2) is remapped to
    x_center 0.7, y_center 0.3, width 0.12, height 0.12. *)
Theorem C2_end_to_end_example :
  split_points 800 800 (lit 4 10) (lit 6 10) = Ok (320, 480) /\
  (target_w TopLeft 800 320, target_h TopLeft 800 480) = (320, 480) /\
  (target_w TopRight 800 320, target_h TopRight 800 480) = (480, 480) /\
  (target_w BottomLeft 800 320, target_h BottomLeft 800 480) = (320, 320) /\
  (target_w BottomRight 800 320, target_h BottomRight 800 480) = (480, 320) /\
  remap_bboxes TopRight (lit 4 10) (lit 6 10) [sample_box] =
    Ok [[lit 7 10; lit 3 10; lit 12 100; lit 12 100]].
Proof. repeat split; vm_compute; reflexivity. Qed.

(** The product of lines 102-103 is the product of doubles: 800 times
    the double 0.6 is, exactly, a little less than 480, and rounds to
    the double 480.0, of which [int] is 480; the integer part of the
    exact product is 479. *)
Remark rounded_product_at_0_6 :
  800 * Fval (lit 6 10) / U = 479 /\
  int_mul_float 800 (lit 6 10) = Ok (S754_finite false 8444249301319680 (-44)) /\
  Fval (S754_finite false 8444249301319680 (-44)) = 480 * U /\
  int_of_float (S754_finite false 8444249301319680 (-44)) = Ok 480.
Proof. repeat split; vm_compute; reflexivity. Qed.

(** C3: for every positive canvas size that [np.empty] accepts and all
    scales in (0,1), the split point is [divX = floor(canvasW * scaleX)],
    [divY = floor(canvasH * scaleY)] (the products being those of the
    doubles); the four slices the composer writes are rows [0,divY) x
    cols [0,divX), rows [0,divY) x cols [divX,canvasW), rows
    [divY,canvasH) x cols [0,divX), rows [divY,canvasH) x cols
    [divX,canvasW); every pixel of the canvas lies in one of them, no
    pixel in two, none of them leaves the canvas; and the target widths
    [divX] and [canvasW - divX] sum to [canvasW], the heights [divY] and
    [canvasH - divY] to [canvasH]. *)
Theorem C3_quadrants_tile_canvas memory canvasW canvasH scaleX scaleY canvas :
  0 < canvasW -> 0 < canvasH ->
  np_empty memory canvasH canvasW = Ok canvas ->
  is_float scaleX -> is_float scaleY -> open_unit scaleX -> open_unit scaleY ->
  exists px py divX divY,
    int_mul_float canvasW scaleX = Ok px /\ divX = float_floor px /\
    int_mul_float canvasH scaleY = Ok py /\ divY = float_floor py /\
    split_points canvasW canvasH scaleX scaleY = Ok (divX, divY) /\
    quadrant_region TopLeft canvasH canvasW divY divX =
      {| row_lo := 0; row_hi := divY; col_lo := 0; col_hi := divX |} /\
    quadrant_region TopRight canvasH canvasW divY divX =
      {| row_lo := 0; row_hi := divY; col_lo := divX; col_hi := canvasW |} /\
    quadrant_region BottomLeft canvasH canvasW divY divX =
      {| row_lo := divY; row_hi := canvasH; col_lo := 0; col_hi := divX |} /\
    quadrant_region BottomRight canvasH canvasW divY divX =
      {| row_lo := divY; row_hi := canvasH; col_lo := divX; col_hi := canvasW |} /\
    (forall r c, 0 <= r < canvasH -> 0 <= c < canvasW ->
       exists q, in_region (quadrant_region q canvasH canvasW divY divX) r c = true) /\
    (forall q q' r c,
       in_region (quadrant_region q canvasH canvasW divY divX) r c = true ->
       in_region (quadrant_region q' canvasH canvasW divY divX) r c = true ->
       q = q') /\
    (forall q r c,
       in_region (quadrant_region q canvasH canvasW divY divX) r c = true ->
       0 <= r < canvasH /\ 0 <= c < canvasW) /\
    target_w TopLeft canvasW divX = divX /\
    target_w BottomLeft canvasW divX = divX /\
    target_w TopRight canvasW divX = canvasW - divX /\
    target_w BottomRight canvasW divX = canvasW - divX /\
    target_h TopLeft canvasH divY = divY /\
    target_h TopRight canvasH divY = divY /\
    target_h BottomLeft canvasH divY = canvasH - divY /\
    target_h BottomRight canvasH divY = canvasH - divY /\
    target_w TopLeft canvasW divX + target_w TopRight canvasW divX = canvasW /\
    target_h TopLeft canvasH divY + target_h BottomLeft canvasH divY = canvasH.
Proof.
  intros HW HH Hnp Fx Fy Ux Uy.
  apply np_empty_inv in Hnp. destruct Hnp as (_ & _ & Hsz & _).
  assert (HW63 : canvasW < 2 ^ 63) by nia.
  assert (HH63 : canvasH < 2 ^ 63) by nia.
  destruct (split_points_ok canvasW canvasH scaleX scaleY) as
    (px & py & Epx & Epy & Esp & Hdx & Hdy); try assumption; try lia.
  exists px, py, (float_floor px), (float_floor py).
  set (divX := float_floor px) in *. set (divY := float_floor py) in *.
  repeat match goal with |- _ /\ _ => split end;
    try reflexivity; try assumption;
    try (unfold quadrant_region; cbn [is_top is_left];
         rewrite !slice_bound_id by lia; reflexivity).
  - intros r c Hr Hc. apply quadrant_regions_cover; assumption.
  - intros q q' r c H1 H2. destruct (decide (q = q')) as [E|E]; [exact E|].
    rewrite (quadrant_regions_disjoint q q' _ _ _ _ r c E H1) in H2. discriminate.
  - intros q r c H. apply (quadrant_regions_inside q canvasH canvasW divY divX); 
      [lia|lia|exact H].
  - cbn. lia.
  - cbn. lia.
Qed.

Lemma C3_witness :
  exists px py divX divY,
    int_mul_float 800 (lit 4 10) = Ok px /\ divX = float_floor px /\
    int_mul_float 800 (lit 6 10) = Ok py /\ divY = float_floor py /\
    split_points 800 800 (lit 4 10) (lit 6 10) = Ok (divX, divY) /\
    quadrant_region TopLeft 800 800 divY divX =
      {| row_lo := 0; row_hi := divY; col_lo := 0; col_hi := divX |} /\
    quadrant_region TopRight 800 800 divY divX =
      {| row_lo := 0; row_hi := divY; col_lo := divX; col_hi := 800 |} /\
    quadrant_region BottomLeft 800 800 divY divX =
      {| row_lo := divY; row_hi := 800; col_lo := 0; col_hi := divX |} /\
    quadrant_region BottomRight 800 800 divY divX =
      {| row_lo := divY; row_hi := 800; col_lo := divX; col_hi := 800 |} /\
    (forall r c, 0 <= r < 800 -> 0 <= c < 800 ->
       exists q, in_region (quadrant_region q 800 800 divY divX) r c = true) /\
    (forall q q' r c,
       in_region (quadrant_region q 800 800 divY divX) r c = true ->
       in_region (quadrant_region q' 800 800 divY divX) r c = true ->
       q = q') /\
    (forall q r c,
       in_region (quadrant_region q 800 800 divY divX) r c = true ->
       0 <= r < 800 /\ 0 <= c < 800) /\
    target_w TopLeft 800 divX = divX /\
    target_w BottomLeft 800 divX = divX /\
    target_w TopRight 800 divX = 800 - divX /\
    target_w BottomRight 800 divX = 800 - divX /\
    target_h TopLeft 800 divY = divY /\
    target_h TopRight 800 divY = divY /\
    target_h BottomLeft 800 divY = 800 - divY /\
    target_h BottomRight 800 divY = 800 - divY /\
    target_w TopLeft 800 divX + target_w TopRight 800 divX = 800 /\
    target_h TopLeft 800 divY + target_h BottomLeft 800 divY = 800.
Proof.
  apply (C3_quadrants_tile_canvas sample_memory 800 800 (lit 4 10) (lit 6 10)
           {| height := 800; width := 800; pix := sample_memory |});
    try reflexivity; split; vm_compute; reflexivity.
Defined.

(** C4 as stated fails: in the top-left quadrant with scaleX = 0.4 the
    box (0.5, 0.5, 5e-324, 0.5), whose width is positive, is remapped to
    a box of width [5e-324 * 0.4 = 0.0]. *)
Lemma C4_counterexample :
  closed_unit (lit 5 10) /\ positive_unit min_subnormal /\ positive_unit (lit 5 10) /\
  open_unit (lit 4 10) /\ open_unit (lit 6 10) /\
  remap_bboxes TopLeft (lit 4 10) (lit 6 10) [thin_box] =
    Ok [[lit 2 10; lit 3 10; zero; lit 3 10]] /\
  ~ positive_unit (new_w TopLeft (lit 4 10) min_subnormal).
Proof.
  repeat split; try (vm_compute; reflexivity).
  intros [H _]. vm_compute in H. discriminate.
Qed.

(** C4, amended: for every local box with [0 <= x_center, y_center <= 1]
    and [0 < w, h <= 1] and all scales in (0,1), each of the four
    quadrant remaps yields [0 <= x_center, y_center <= 1] and
    [0 <= w, h <= 1]; the new width (height) is moreover positive
    whenever the exact product of the width (height) and its factor,
    [scale] or [1 - scale], exceeds [2^-1075], that is unless the
    product underflows to zero. *)
Theorem C4_remap_stays_in_unit_frame q scaleX scaleY x y w h :
  is_float scaleX -> is_float scaleY ->
  is_float x -> is_float y -> is_float w -> is_float h ->
  open_unit scaleX -> open_unit scaleY ->
  closed_unit x -> closed_unit y -> positive_unit w -> positive_unit h ->
  closed_unit (new_x q scaleX x) /\ closed_unit (new_y q scaleY y) /\
  closed_unit (new_w q scaleX w) /\ closed_unit (new_h q scaleY h) /\
  (no_underflow w (x_span q scaleX) -> positive_unit (new_w q scaleX w)) /\
  (no_underflow h (y_span q scaleY) -> positive_unit (new_h q scaleY h)).
Proof.
  intros Fsx Fsy Fx Fy Fw Fh Usx Usy Ux Uy Uw Uh.
  destruct (x_span_unit q scaleX Fsx Usx) as [Ftx Htx].
  destruct (y_span_unit q scaleY Fsy Usy) as [Fty Hty].
  destruct (mul_span_unit w (x_span q scaleX) Fw Uw Ftx Htx) as [Cw Pw].
  destruct (mul_span_unit h (y_span q scaleY) Fh Uh Fty Hty) as [Ch Ph].
  rewrite new_w_span, new_h_span.
  repeat match goal with |- _ /\ _ => split end; try assumption.
  - apply new_x_unit; assumption.
  - apply new_y_unit; assumption.
Qed.

Lemma C4_witness :
  closed_unit (new_x TopRight (lit 4 10) (lit 5 10)) /\
  closed_unit (new_y TopRight (lit 6 10) (lit 5 10)) /\
  closed_unit (new_w TopRight (lit 4 10) (lit 2 10)) /\
  closed_unit (new_h TopRight (lit 6 10) (lit 2 10)) /\
  (no_underflow (lit 2 10) (x_span TopRight (lit 4 10)) ->
   positive_unit (new_w TopRight (lit 4 10) (lit 2 10))) /\
  (no_underflow (lit 2 10) (y_span TopRight (lit 6 10)) ->
   positive_unit (new_h TopRight (lit 6 10) (lit 2 10))).
Proof.
  apply (C4_remap_stays_in_unit_frame TopRight (lit 4 10) (lit 6 10)
           (lit 5 10) (lit 5 10) (lit 2 10) (lit 2 10));
    try reflexivity; split; vm_compute; reflexivity.
Defined.

(** C7: the canvas write of quadrant [q] changes no pixel outside the
    slice of [q] and keeps the shape of the canvas; and the slices of two
    different quadrants have no pixel in common. *)
Theorem C7_quadrant_write_frame canvas q mo_h mo_w div_point_y div_point_x img canvas' :
  set_region canvas (quadrant_region q mo_h mo_w div_point_y div_point_x) img
    = Ok canvas' ->
  height canvas' = height canvas /\ width canvas' = width canvas /\
  (forall r c,
     in_region (quadrant_region q mo_h mo_w div_point_y div_point_x) r c = false ->
     pix canvas' r c = pix canvas r c) /\
  (forall q' r c, q' <> q ->
     in_region (quadrant_region q' mo_h mo_w div_point_y div_point_x) r c = true ->
     pix canvas' r c = pix canvas r c) /\
  (forall q1 q2 r c, q1 <> q2 ->
     in_region (quadrant_region q1 mo_h mo_w div_point_y div_point_x) r c = true ->
     in_region (quadrant_region q2 mo_h mo_w div_point_y div_point_x) r c = false).
Proof.
  intros H. apply set_region_inv in H. destruct H as (Hh & Hw & Hout & _).
  repeat match goal with |- _ /\ _ => split end; try assumption.
  - intros q' r c Hne Hin. apply Hout.
    exact (quadrant_regions_disjoint q' q _ _ _ _ r c Hne Hin).
  - intros q1 q2 r c Hne Hin.
    exact (quadrant_regions_disjoint q1 q2 _ _ _ _ r c Hne Hin).
Qed.

Lemma C7_witness :
  let canvas := {| height := 800; width := 800; pix := sample_memory |} in
  exists canvas',
    set_region canvas (quadrant_region TopRight 800 800 480 320) (blank 480 480)
      = Ok canvas' /\
    height canvas' = height canvas /\ width canvas' = width canvas /\
    (forall r c,
       in_region (quadrant_region TopRight 800 800 480 320) r c = false ->
       pix canvas' r c = pix canvas r c) /\
    (forall q' r c, q' <> TopRight ->
       in_region (quadrant_region q' 800 800 480 320) r c = true ->
       pix canvas' r c = pix canvas r c) /\
    (forall q1 q2 r c, q1 <> q2 ->
       in_region (quadrant_region q1 800 800 480 320) r c = true ->
       in_region (quadrant_region q2 800 800 480 320) r c = false).
Proof.
  intros canvas. eexists. split; [vm_compute; reflexivity|].
  apply (C7_quadrant_write_frame canvas TopRight 800 800 480 320 (blank 480 480)).
  vm_compute. reflexivity.
Defined.

(** C9 as stated fails: the stem of ["a.b.jpg"] is cut at its first dot,
    so the paths carry ["a"] where the name without its extension is
    ["a.b"]. *)
Lemma C9_counterexample :
  create_data_store_path "/" "out" "lbl" ["a.b.jpg"; "c.png"; "d.jpg"; "e.jpeg"]%string
    = Ok ("out/mo_a_c_d_e.jpg", "lbl/mo_a_c_d_e.txt")%string /\
  claimed_paths "jpg" "out" "lbl" "a.b.jpg" "c.png" "d.jpg" "e.jpeg"
    = ("out/mo_a.b_c_d_e.jpg", "lbl/mo_a.b_c_d_e.txt")%string /\
  create_data_store_path "/" "out" "lbl" ["a.b.jpg"; "c.png"; "d.jpg"; "e.jpeg"]%string
    <> Ok (claimed_paths "jpg" "out" "lbl" "a.b.jpg" "c.png" "d.jpg" "e.jpeg").
Proof.
  split; [vm_compute; reflexivity|]. split; [vm_compute; reflexivity|].
  vm_compute. discriminate.
Qed.

(** C9, amended: for every list of four source file names the output
    paths are a function of the names, the output directories and the
    path separator only: the image path is
    [<output_image_dir><sep>mo_<base0>_<base1>_<base2>_<base3>.jpg] and
    the label path
    [<output_label_dir><sep>mo_<base0>_<base1>_<base2>_<base3>.txt],
    where each [base_i] is the part of the name before its first dot (the
    whole name if it has none) and the image extension is always [jpg];
    on names with at most one dot, with the separator ["/"], these are
    the paths built from the names with their extension removed. *)
Theorem C9_output_paths sep output_image_dir output_label_dir n0 n1 n2 n3 :
  create_data_store_path sep output_image_dir output_label_dir [n0; n1; n2; n3] =
    Ok (output_image_dir +:+ sep +:+
          ("mo_" +:+ before_first_dot n0 +:+ "_" +:+ before_first_dot n1 +:+ "_" +:+
           before_first_dot n2 +:+ "_" +:+ before_first_dot n3 +:+ ".jpg"),
        output_label_dir +:+ sep +:+
          ("mo_" +:+ before_first_dot n0 +:+ "_" +:+ before_first_dot n1 +:+ "_" +:+
           before_first_dot n2 +:+ "_" +:+ before_first_dot n3 +:+ ".txt"))%string /\
  ((count_dots n0 <= 1)%nat -> (count_dots n1 <= 1)%nat ->
   (count_dots n2 <= 1)%nat -> (count_dots n3 <= 1)%nat ->
   create_data_store_path "/" output_image_dir output_label_dir [n0; n1; n2; n3] =
     Ok (claimed_paths "jpg" output_image_dir output_label_dir n0 n1 n2 n3)).
Proof.
  split; [apply create_data_store_path_ok|].
  intros H0 H1 H2 H3. rewrite create_data_store_path_ok. unfold claimed_paths.
  rewrite !before_first_dot_extension by assumption. reflexivity.
Qed.

Lemma C9_witness :
  create_data_store_path "/" "out" "lbl" ["a.jpg"; "b.jpg"; "c.png"; "d.jpeg"]%string =
    Ok ("out/mo_a_b_c_d.jpg", "lbl/mo_a_b_c_d.txt")%string /\
  create_data_store_path "/" "out" "lbl" ["a.jpg"; "b.jpg"; "c.png"; "d.jpeg"]%string =
    Ok (claimed_paths "jpg" "out" "lbl" "a.jpg" "b.jpg" "c.png" "d.jpeg").
Proof.
  destruct (C9_output_paths "/" "out" "lbl" "a.jpg" "b.jpg" "c.png" "d.jpeg")
    as [H1 H2].
  split; [exact H1|].
  apply H2; vm_compute; repeat constructor.
Defined.

(** ** The composer, step by step *)

Section ComposerFacts.

Context {label world ignored : Type}.
Variable preprocess :
  string -> string -> string -> world -> result (string * string * ignored) * world.
Variable read_label : string -> world -> result (list bbox * list label) * world.
Variable read_img : string -> world -> result image * world.
Variable compose_random_resized_crop :
  Z -> Z -> Z -> float ->
  result (image -> list bbox -> list label -> world ->
          result (cropped (label := label)) * world).
Variable memory : Z -> Z -> pixel.
Variable image_file_list : list string.
Variables image_dir label_dir output_image_dir output_label_dir : string.
Variables mo_w mo_h : Z.
Variables scale_x scale_y : float.
Variable min_area : Z.
Variable min_visibility : float.
Variable display : bool.
Variable sep : string.

Local Abbreviation body :=
  (quadrant_body preprocess read_label read_img compose_random_resized_crop
     image_file_list image_dir label_dir
     mo_w mo_h scale_x scale_y min_area min_visibility).
Local Abbreviation crop :=
  (crop_of preprocess read_label read_img compose_random_resized_crop
     image_file_list image_dir label_dir
     mo_w mo_h min_area min_visibility).
Local Abbreviation the_mosaic :=
  (mosaic preprocess read_label read_img compose_random_resized_crop memory
     image_file_list image_dir label_dir
     output_image_dir output_label_dir mo_w mo_h scale_x scale_y
     min_area min_visibility display sep).
Local Abbreviation the_run_completes :=
  (completes preprocess read_label read_img compose_random_resized_crop memory
     image_file_list image_dir label_dir
     output_image_dir output_label_dir mo_w mo_h scale_x scale_y
     min_area min_visibility sep).
Local Abbreviation the_branch_completes :=
  (branch_completes preprocess read_label read_img compose_random_resized_crop
     image_file_list image_dir label_dir
     mo_w mo_h min_area min_visibility).
Local Abbreviation the_outcome := (outcome scale_x scale_y).
Local Abbreviation the_cropper :=
  (random_crop_savebboxes preprocess read_label read_img compose_random_resized_crop).
Local Abbreviation region_of q dx dy := (quadrant_region q mo_h mo_w dy dx).
Local Abbreviation the_bboxes := (run_bboxes scale_x scale_y).
Local Abbreviation the_new_bboxes := (new_bboxes scale_x scale_y).

(** One branch: the crop, the canvas write, and the remapped rows. *)
Lemma quadrant_body_eq dx dy i (l : locals) (st : state (label := label) (world := world)) :
  body dx dy i l st =
  match crop (quadrant_of_index i) dx dy st with
  | (Ok c, st1) =>
      match set_region (new_img l) (region_of (quadrant_of_index i) dx dy)
              (transformed_image c) with
      | Ok img =>
          (Ok (assign (quadrant_of_index i) img
                 (map (remap_box (quadrant_of_index i) scale_x scale_y)
                    (transformed_bboxes c),
                  transformed_class_labels c) l), st1)
      | Raise e => (Raise e, st1)
      end
  | (Raise e, st1) => (Raise e, st1)
  end.
Proof.
  unfold quadrant_body, crop_of, bind, lift.
  destruct (get_item image_file_list _) as [name|e]; [|reflexivity].
  destruct (random_crop_savebboxes _ _ _ _ _ _ _ _ _ _ _ st) as [[c|e] st1];
    [|reflexivity].
  rewrite remap_bboxes_ok.
  destruct (set_region _ _ _); reflexivity.
Qed.

Lemma call_keeps_files {A} (f : world -> result A * world)
    (st : state (label := label) (world := world)) :
  st_files (snd (call f st)) = st_files st.
Proof. unfold call. destruct (f (st_world st)). reflexivity. Qed.

Lemma bind_keeps_files {A B} (c : M A) (k : A -> M B)
    (st : state (label := label) (world := world)) :
  (forall st0, st_files (snd (c st0)) = st_files st0) ->
  (forall a st0, st_files (snd (k a st0)) = st_files st0) ->
  st_files (snd (bind c k st)) = st_files st.
Proof.
  intros Hc Hk. unfold bind. specialize (Hc st).
  destruct (c st) as [[a|e] st1]; cbn [snd] in *.
  - rewrite Hk. exact Hc.
  - exact Hc.
Qed.

(** The cropper writes no output file. *)
Lemma cropper_keeps_files name idir ldir h w a v
    (st : state (label := label) (world := world)) :
  st_files (snd (the_cropper name idir ldir h w a v st)) = st_files st.
Proof.
  unfold random_crop_savebboxes.
  apply bind_keeps_files; [intros; apply call_keeps_files|].
  intros [[image_path label_path] other] st0.
  apply bind_keeps_files; [intros; apply call_keeps_files|].
  intros [bboxes class_labels] st1.
  apply bind_keeps_files; [reflexivity|].
  intros transform st2.
  apply bind_keeps_files; [intros; apply call_keeps_files|].
  intros image st3.
  apply bind_keeps_files; [intros; apply call_keeps_files|].
  reflexivity.
Qed.

Lemma crop_keeps_files q dx dy (st : state (label := label) (world := world)) :
  st_files (snd (crop q dx dy st)) = st_files st.
Proof.
  unfold crop_of. apply bind_keeps_files; [reflexivity|].
  intros name st0. apply cropper_keeps_files.
Qed.

Lemma quadrant_body_keeps_files dx dy i l st :
  st_files (snd (body dx dy i l st)) = st_files st.
Proof.
  rewrite quadrant_body_eq.
  pose proof (crop_keeps_files (quadrant_of_index i) dx dy st) as H.
  destruct (crop _ dx dy st) as [[c|e] st1]; cbn [snd] in *; [|exact H].
  destruct (set_region _ _ _); exact H.
Qed.

Lemma for_range_keeps_files dx dy range : forall l st,
  st_files (snd (for_range (body dx dy) range l st)) = st_files st.
Proof.
  induction range as [|i rest IH]; intros l st; [reflexivity|].
  cbn [for_range]. unfold bind.
  pose proof (quadrant_body_keeps_files dx dy i l st) as H.
  destruct (body dx dy i l st) as [[l'|e] st1]; cbn [snd] in *.
  - rewrite IH. exact H.
  - exact H.
Qed.

(** Whatever a run raises, it raises before anything is written. *)
Lemma mosaic_raise_keeps_files st e :
  fst (the_mosaic st) = Raise e ->
  st_files (snd (the_mosaic st)) = st_files st.
Proof.
  unfold mosaic, bind, lift.
  destruct (np_empty memory mo_h mo_w) as [canvas|e0]; [|reflexivity].
  destruct (split_points mo_w mo_h scale_x scale_y) as [[dx dy]|e0]; [|reflexivity].
  match goal with |- context [for_range ?b ?r ?l st] =>
    pose proof (for_range_keeps_files dx dy r l st) as Hf;
    destruct (for_range b r l st) as [[l'|e0] st1] end;
    cbn [snd] in Hf; [|intros _; exact Hf].
  unfold read_local, lift, ret, save_img, save_label, display_img.
  destruct (branch_0 l') as [[b0 l0]|]; [|intros _; exact Hf].
  destruct (branch_1 l') as [[b1 l1]|]; [|intros _; exact Hf].
  destruct (branch_2 l') as [[b2 l2]|]; [|intros _; exact Hf].
  destruct (branch_3 l') as [[b3 l3]|]; [|intros _; exact Hf].
  destruct (create_data_store_path _ _ _ _) as [[ip lp]|e0]; [|intros _; exact Hf].
  destruct display; discriminate.
Qed.

Lemma branch_keeps_files (r : run) q before canvas :
  the_branch_completes r q before canvas ->
  st_files (run_state r q) = st_files before.
Proof.
  intros [Hc _].
  pose proof (crop_keeps_files q (run_div_x r) (run_div_y r) before) as H.
  rewrite Hc in H. exact H.
Qed.

(** Unfold the branch for index [i], which is quadrant [q]. *)
Local Ltac enter_branch i q :=
  rewrite quadrant_body_eq; change (quadrant_of_index i) with q;
  cbn [new_img assign].

Local Ltac enter_branch_in H i q :=
  rewrite quadrant_body_eq in H; change (quadrant_of_index i) with q in H;
  cbn [new_img assign] in H.

(** A run that completes step by step is a run of [mosaic]. *)
Lemma mosaic_completes st (r : run) :
  the_run_completes st r -> the_mosaic st = (Ok tt, the_outcome st r).
Proof.
  intros (Hnp & Hsp & B0 & B1 & B2 & B3 & Hpath).
  pose proof (branch_keeps_files _ _ _ _ B0) as F0.
  pose proof (branch_keeps_files _ _ _ _ B1) as F1.
  pose proof (branch_keeps_files _ _ _ _ B2) as F2.
  pose proof (branch_keeps_files _ _ _ _ B3) as F3.
  destruct B0 as [C0 S0], B1 as [C1 S1], B2 as [C2 S2], B3 as [C3 S3].
  unfold mosaic, bind, lift. rewrite Hnp, Hsp.
  cbn [for_range]. unfold bind.
  enter_branch 0 TopLeft. rewrite C0, S0.
  enter_branch 1 TopRight. rewrite C1, S1.
  enter_branch 2 BottomLeft. rewrite C2, S2.
  enter_branch 3 BottomRight. rewrite C3, S3.
  unfold ret at 1. cbn [assign branch_0 branch_1 branch_2 branch_3 read_local new_img].
  unfold ret at 1. unfold ret at 1. unfold ret at 1. unfold ret at 1.
  rewrite Hpath.
  unfold save_img, save_label, display_img, ret, outcome.
  cbn [st_world st_files].
  rewrite <- app_assoc. cbn [app].
  rewrite F3, F2, F1, F0.
  destruct display; reflexivity.
Qed.

(** Conversely, a run of [mosaic] that returns went through every step. *)
Lemma mosaic_ok_inv st u st' :
  the_mosaic st = (Ok u, st') ->
  exists r : run, the_run_completes st r /\ st' = the_outcome st r.
Proof.
  intros E. pose proof E as Hrun. unfold mosaic, bind, lift in Hrun.
  destruct (np_empty memory mo_h mo_w) as [canvas|e0] eqn:Hnp; [|discriminate].
  destruct (split_points mo_w mo_h scale_x scale_y) as [[dx dy]|e0] eqn:Hsp;
    [|discriminate].
  cbn [for_range] in Hrun. unfold bind in Hrun.
  enter_branch_in Hrun 0 TopLeft.
  destruct (crop TopLeft dx dy st) as [[c0|e0] st0] eqn:C0; [|discriminate].
  destruct (set_region canvas _ (transformed_image c0)) as [img0|e0] eqn:S0;
    [|discriminate].
  enter_branch_in Hrun 1 TopRight.
  destruct (crop TopRight dx dy st0) as [[c1|e0] st1] eqn:C1; [|discriminate].
  destruct (set_region img0 _ (transformed_image c1)) as [img1|e0] eqn:S1;
    [|discriminate].
  enter_branch_in Hrun 2 BottomLeft.
  destruct (crop BottomLeft dx dy st1) as [[c2|e0] st2] eqn:C2; [|discriminate].
  destruct (set_region img1 _ (transformed_image c2)) as [img2|e0] eqn:S2;
    [|discriminate].
  enter_branch_in Hrun 3 BottomRight.
  destruct (crop BottomRight dx dy st2) as [[c3|e0] st3] eqn:C3; [|discriminate].
  destruct (set_region img2 _ (transformed_image c3)) as [img3|e0] eqn:S3;
    [|discriminate].
  unfold ret at 1 in Hrun.
  cbn [assign branch_0 branch_1 branch_2 branch_3 read_local new_img] in Hrun.
  unfold ret at 1 in Hrun. unfold ret at 1 in Hrun.
  unfold ret at 1 in Hrun. unfold ret at 1 in Hrun.
  destruct (create_data_store_path _ _ _ _) as [[ip lp]|e0] eqn:Hpath; [|discriminate].
  clear Hrun.
  set (r := {| run_canvas := canvas; run_div_x := dx; run_div_y := dy;
               run_crop := fun q => match q with
                                    | TopLeft => c0 | TopRight => c1
                                    | BottomLeft => c2 | BottomRight => c3 end;
               run_state := fun q => match q with
                                     | TopLeft => st0 | TopRight => st1
                                     | BottomLeft => st2 | BottomRight => st3 end;
               run_img := fun q => match q with
                                   | TopLeft => img0 | TopRight => img1
                                   | BottomLeft => img2 | BottomRight => img3 end;
               run_image_path := ip; run_label_path := lp |}).
  assert (Hc : the_run_completes st r).
  { unfold completes, branch_completes, r.
    cbn [run_canvas run_div_x run_div_y run_crop run_state run_img
         run_image_path run_label_path].
    repeat split; assumption. }
  exists r. split; [exact Hc|].
  rewrite (mosaic_completes st r Hc) in E. congruence.
Qed.

Lemma completes_branch st (r : run) q :
  the_run_completes st r ->
  exists before canvas, the_branch_completes r q before canvas.
Proof.
  intros (_ & _ & B0 & B1 & B2 & B3 & _). destruct q; eauto.
Qed.

Lemma completes_div st (r : run) dx dy :
  the_run_completes st r ->
  split_points mo_w mo_h scale_x scale_y = Ok (dx, dy) ->
  run_div_x r = dx /\ run_div_y r = dy.
Proof.
  intros (_ & Hsp & _) H. rewrite Hsp in H. injection H as <- <-. auto.
Qed.

Lemma run_bboxes_length (r : run (label := label) (world := world)) q :
  length (the_bboxes r q) = length (transformed_bboxes (run_crop r q)).
Proof. unfold run_bboxes. apply length_map. Qed.

(** C5: when [mosaic] returns, the label file it wrote holds the box
    sequence [bboxes_0_new ++ bboxes_1_new ++ bboxes_2_new ++
    bboxes_3_new] and the label sequence [class_labels_0 ++ ... ++
    class_labels_3]: the contributions of the quadrants 0, 1, 2, 3 in
    that order, each in the order of its crop (the boxes remapped one by
    one, the labels as the crop returned them); and if every crop
    returned as many labels as boxes, the two final sequences have the
    same length and pairing them position by position gives the pairs of
    quadrant 0, then those of 1, 2 and 3. *)
Theorem C5_merge_in_quadrant_order st u st' :
  the_mosaic st = (Ok u, st') ->
  exists r : run,
    the_run_completes st r /\
    st_files st' = st_files st ++
      [ImageFile (run_image_path r) (run_img r BottomRight);
       LabelFile (run_label_path r)
         (the_bboxes r TopLeft ++ the_bboxes r TopRight ++
          the_bboxes r BottomLeft ++ the_bboxes r BottomRight)
         (run_labels r TopLeft ++ run_labels r TopRight ++
          run_labels r BottomLeft ++ run_labels r BottomRight)] /\
    (forall q, the_bboxes r q =
               map (remap_box q scale_x scale_y) (transformed_bboxes (run_crop r q))) /\
    (forall q, run_labels r q = transformed_class_labels (run_crop r q)) /\
    ((forall q, length (transformed_bboxes (run_crop r q)) =
                length (transformed_class_labels (run_crop r q))) ->
     length (the_new_bboxes r) = length (new_class_labels r) /\
     zip (the_new_bboxes r) (new_class_labels r) =
       zip (the_bboxes r TopLeft) (run_labels r TopLeft) ++
       zip (the_bboxes r TopRight) (run_labels r TopRight) ++
       zip (the_bboxes r BottomLeft) (run_labels r BottomLeft) ++
       zip (the_bboxes r BottomRight) (run_labels r BottomRight)).
Proof.
  intros H. destruct (mosaic_ok_inv st u st' H) as (r & Hc & ->).
  exists r. split; [exact Hc|]. split; [reflexivity|].
  split; [reflexivity|]. split; [reflexivity|].
  intros Hlen.
  assert (L : forall q, length (the_bboxes r q) = length (run_labels r q)).
  { intros q. rewrite run_bboxes_length. apply Hlen. }
  unfold new_bboxes, new_class_labels. split.
  - rewrite !length_app, !L. reflexivity.
  - rewrite !zip_with_app; auto.
Qed.

(** C10: a branch of the loop that returns has stored, as
    [bboxes_k_new], one row per box of its crop, at the same index and
    computed from that box alone, and, as [class_labels_k], the label
    list of the crop itself: the remap stage drops nothing, adds nothing
    and does not touch the labels. *)
Theorem C10_remap_keeps_every_box dx dy i l st l' st1 :
  body dx dy i l st = (Ok l', st1) ->
  exists c bboxes_new,
    crop (quadrant_of_index i) dx dy st = (Ok c, st1) /\
    remap_bboxes (quadrant_of_index i) scale_x scale_y (transformed_bboxes c)
      = Ok bboxes_new /\
    branch (quadrant_of_index i) l' = Some (bboxes_new, transformed_class_labels c) /\
    length bboxes_new = length (transformed_bboxes c) /\
    (forall k box, transformed_bboxes c !! k = Some box ->
       bboxes_new !! k = Some (remap_box (quadrant_of_index i) scale_x scale_y box)) /\
    (forall k, transformed_bboxes c !! k = None -> bboxes_new !! k = None).
Proof.
  rewrite quadrant_body_eq.
  destruct (crop (quadrant_of_index i) dx dy st) as [[c|e] st0]; [|discriminate].
  destruct (set_region _ _ _) as [img|e]; [|discriminate].
  intros [= <- <-].
  exists c, (map (remap_box (quadrant_of_index i) scale_x scale_y) (transformed_bboxes c)).
  split; [reflexivity|]. split; [apply remap_bboxes_ok|].
  split; [destruct (quadrant_of_index i); reflexivity|].
  split; [apply length_map|]. split.
  - intros k box Hk. rewrite list_lookup_fmap, Hk. reflexivity.
  - intros k Hk. rewrite list_lookup_fmap, Hk. reflexivity.
Qed.

(** C8: the remap of an empty box list is the empty list and raises
    nothing; a branch whose crop returned no box stores the empty list
    (and the labels of the crop, none if they are as many as the boxes);
    and a run in which the allocation, the split, the four crops, the
    four canvas writes and the path construction succeed returns, also
    when every crop returned no box and no label: it then writes the
    image and a label file with no box and no label. *)
Theorem C8_zero_boxes_is_no_error st (r : run) :
  the_run_completes st r ->
  (forall q, remap_bboxes q scale_x scale_y [] = Ok []) /\
  (forall q, transformed_bboxes (run_crop r q) = [] ->
     the_bboxes r q = [] /\
     (length (transformed_class_labels (run_crop r q)) =
      length (transformed_bboxes (run_crop r q)) -> run_labels r q = [])) /\
  the_mosaic st = (Ok tt, the_outcome st r) /\
  ((forall q, transformed_bboxes (run_crop r q) = [] /\
              transformed_class_labels (run_crop r q) = []) ->
   st_files (the_outcome st r) = st_files st ++
     [ImageFile (run_image_path r) (run_img r BottomRight);
      LabelFile (run_label_path r) [] []]).
Proof.
  intros Hc. split; [reflexivity|]. split; [|split].
  - intros q Hq. unfold run_bboxes, run_labels. rewrite Hq. split; [reflexivity|].
    intros Hl. destruct (transformed_class_labels (run_crop r q)); [reflexivity|].
    discriminate.
  - apply mosaic_completes. exact Hc.
  - intros Hz. unfold outcome, new_bboxes, new_class_labels, run_bboxes, run_labels.
    cbn [st_files].
    rewrite !(proj1 (Hz _)), !(proj2 (Hz _)). reflexivity.
Qed.

Section Contract.

(** The cropper rejects a non-positive target size, as its contract
    asks. *)
Hypothesis cropper_rejects :
  forall name idir ldir h w a v st, h <= 0 \/ w <= 0 ->
    is_ok (fst (the_cropper name idir ldir h w a v st)) = false.

Lemma nonpositive_target_raises st dx dy q :
  split_points mo_w mo_h scale_x scale_y = Ok (dx, dy) ->
  target_w q mo_w dx <= 0 \/ target_h q mo_h dy <= 0 ->
  exists e, fst (the_mosaic st) = Raise e /\
            st_files (snd (the_mosaic st)) = st_files st.
Proof.
  intros Hsp Hbad.
  destruct (the_mosaic st) as [[u|e] st'] eqn:E.
  - exfalso. destruct (mosaic_ok_inv st u st' E) as (r & Hc & _).
    destruct (completes_div st r dx dy Hc Hsp) as [Ex Ey].
    destruct (completes_branch st r q Hc) as (before & canvas & [Hcrop _]).
    rewrite Ex, Ey in Hcrop. unfold crop_of, bind, lift in Hcrop.
    destruct (get_item image_file_list (file_index q)) as [name|e]; [|discriminate].
    pose proof (cropper_rejects name image_dir label_dir (target_h q mo_h dy)
                  (target_w q mo_w dx) min_area min_visibility before
                  ltac:(lia)) as Hrej.
    rewrite Hcrop in Hrej. discriminate.
  - exists e. split; [reflexivity|].
    pose proof (mosaic_raise_keeps_files st e) as H. rewrite E in H.
    apply H. reflexivity.
Qed.

Lemma scale_outside_raises st :
  0 < mo_w <= 2 ^ 53 -> 0 < mo_h <= 2 ^ 53 ->
  is_float scale_x -> is_float scale_y ->
  ~ open_unit scale_x \/ ~ open_unit scale_y ->
  exists e, fst (the_mosaic st) = Raise e /\
            st_files (snd (the_mosaic st)) = st_files st.
Proof.
  intros Hw Hh Fx Fy Hout.
  destruct (the_mosaic st) as [[u|e] st'] eqn:E.
  - destruct (mosaic_ok_inv st u st' E) as (r & Hc & _).
    pose proof Hc as (_ & Hsp & _).
    destruct (split_points_inv _ _ _ _ _ _ Hsp) as [Hx Hy].
    rewrite <- E.
    destruct Hout as [Hout|Hout].
    + destruct (scaled_dim_outside mo_w scale_x Hw Fx Hout) as [[e He]|(d & Hd & Hbad)];
        [congruence|].
      assert (d = run_div_x r) by congruence. subst d.
      destruct Hbad as [Hbad|Hbad].
      * apply (nonpositive_target_raises st _ _ TopLeft Hsp). left. exact Hbad.
      * apply (nonpositive_target_raises st _ _ TopRight Hsp). left.
        unfold target_w. cbn [is_left]. lia.
    + destruct (scaled_dim_outside mo_h scale_y Hh Fy Hout) as [[e He]|(d & Hd & Hbad)];
        [congruence|].
      assert (d = run_div_y r) by congruence. subst d.
      destruct Hbad as [Hbad|Hbad].
      * apply (nonpositive_target_raises st _ _ TopLeft Hsp). right. exact Hbad.
      * apply (nonpositive_target_raises st _ _ BottomLeft Hsp). right.
        unfold target_h. cbn [is_top]. lia.
  - exists e. split; [reflexivity|].
    pose proof (mosaic_raise_keeps_files st e) as H. rewrite E in H.
    apply H. reflexivity.
Qed.

End Contract.

(** C6, amended: [mosaic] validates nothing itself and raises no
    [InvalidGeometry] of its own: no scale and no dimension is checked
    before the work starts.  Whatever a run raises, it raises before the
    image and the label file are written, so a failing run leaves no
    output.  If the cropper rejects a non-positive target size, then a
    run one of whose quadrants has a non-positive target width or height
    raises and writes nothing; and so does, on a canvas of at most
    [2^53] pixels a side, a run whose [scaleX] or [scaleY] is not in
    (0,1).  The error is the one of the step that fails: the error of
    the cropper, the [ValueError] of a canvas write, or the error of
    [int] on an infinite or undefined product. *)
Theorem C6_failing_run_writes_nothing st :
  (forall name idir ldir h w a v st0, h <= 0 \/ w <= 0 ->
     is_ok (fst (the_cropper name idir ldir h w a v st0)) = false) ->
  (forall e, fst (the_mosaic st) = Raise e ->
     st_files (snd (the_mosaic st)) = st_files st) /\
  (forall dx dy q,
     split_points mo_w mo_h scale_x scale_y = Ok (dx, dy) ->
     target_w q mo_w dx <= 0 \/ target_h q mo_h dy <= 0 ->
     exists e, fst (the_mosaic st) = Raise e /\
               st_files (snd (the_mosaic st)) = st_files st) /\
  (0 < mo_w <= 2 ^ 53 -> 0 < mo_h <= 2 ^ 53 ->
   is_float scale_x -> is_float scale_y ->
   ~ open_unit scale_x \/ ~ open_unit scale_y ->
   exists e, fst (the_mosaic st) = Raise e /\
             st_files (snd (the_mosaic st)) = st_files st).
Proof.
  intros Hcontract. split; [intros e; apply mosaic_raise_keeps_files|]. split.
  - intros dx dy q. apply nonpositive_target_raises. exact Hcontract.
  - apply scale_outside_raises. exact Hcontract.
Qed.

End ComposerFacts.

(** ** The sample call *)

Lemma sample_cropper_rejects boxes name idir ldir h w a v
    (st : state (label := Z) (world := nat)) :
  h <= 0 \/ w <= 0 ->
  is_ok (fst (random_crop_savebboxes sample_preprocess (sample_read_label boxes)
                sample_read_img sample_compose name idir ldir h w a v st)) = false.
Proof.
  intros H. unfold random_crop_savebboxes, bind, call, lift, sample_preprocess,
    sample_read_label, sample_compose.
  destruct (Z.leb_spec h 0), (Z.leb_spec w 0); try reflexivity. lia.
Qed.

Lemma C5_witness :
  exists r : run,
    sample_completes [sample_box] (lit 4 10) (lit 6 10) sample_state r /\
    st_files (outcome (lit 4 10) (lit 6 10) sample_state (sample_run [sample_box])) =
      st_files sample_state ++
      [ImageFile (run_image_path r) (run_img r BottomRight);
       LabelFile (run_label_path r)
         (run_bboxes (lit 4 10) (lit 6 10) r TopLeft ++
          run_bboxes (lit 4 10) (lit 6 10) r TopRight ++
          run_bboxes (lit 4 10) (lit 6 10) r BottomLeft ++
          run_bboxes (lit 4 10) (lit 6 10) r BottomRight)
         (run_labels r TopLeft ++ run_labels r TopRight ++
          run_labels r BottomLeft ++ run_labels r BottomRight)] /\
    (forall q, run_bboxes (lit 4 10) (lit 6 10) r q =
               map (remap_box q (lit 4 10) (lit 6 10)) (transformed_bboxes (run_crop r q))) /\
    (forall q, run_labels r q = transformed_class_labels (run_crop r q)) /\
    ((forall q, length (transformed_bboxes (run_crop r q)) =
                length (transformed_class_labels (run_crop r q))) ->
     length (new_bboxes (lit 4 10) (lit 6 10) r) = length (new_class_labels r) /\
     zip (new_bboxes (lit 4 10) (lit 6 10) r) (new_class_labels r) =
       zip (run_bboxes (lit 4 10) (lit 6 10) r TopLeft) (run_labels r TopLeft) ++
       zip (run_bboxes (lit 4 10) (lit 6 10) r TopRight) (run_labels r TopRight) ++
       zip (run_bboxes (lit 4 10) (lit 6 10) r BottomLeft) (run_labels r BottomLeft) ++
       zip (run_bboxes (lit 4 10) (lit 6 10) r BottomRight) (run_labels r BottomRight)).
Proof.
  apply (C5_merge_in_quadrant_order sample_preprocess (sample_read_label [sample_box])
           sample_read_img sample_compose sample_memory
           sample_names "in" "in" "out" "out" 800 800 (lit 4 10) (lit 6 10)
           200 (lit 1 10) false "/" sample_state tt
           (outcome (lit 4 10) (lit 6 10) sample_state (sample_run [sample_box]))).
  vm_compute. reflexivity.
Defined.

(** C6 as stated fails: with scaleX = 1.5, outside (0,1), on the canvas
    800 x 800 the run validates nothing; it crops the first image to
    1200 x 480 and then fails in the first canvas write, with the
    [ValueError] of numpy for shapes that do not fit, not with
    [InvalidGeometry]. *)
Lemma C6_counterexample :
  float_lt (lit 15 10) one = false /\
  split_points 800 800 (lit 15 10) (lit 6 10) = Ok (1200, 480) /\
  target_w TopRight 800 1200 = -400 /\
  sample_mosaic [sample_box] (lit 15 10) (lit 6 10) sample_state =
    (Raise ValueError, {| st_world := 1%nat; st_files := [] |}) /\
  fst (sample_mosaic [sample_box] (lit 15 10) (lit 6 10) sample_state)
    <> Raise InvalidGeometry.
Proof.
  repeat split; try (vm_compute; reflexivity).
  vm_compute. discriminate.
Qed.

Lemma C6_witness :
  (forall e, fst (sample_mosaic [sample_box] (lit 15 10) (lit 6 10) sample_state) = Raise e ->
     st_files (snd (sample_mosaic [sample_box] (lit 15 10) (lit 6 10) sample_state)) =
     st_files sample_state) /\
  (forall dx dy q,
     split_points 800 800 (lit 15 10) (lit 6 10) = Ok (dx, dy) ->
     target_w q 800 dx <= 0 \/ target_h q 800 dy <= 0 ->
     exists e,
       fst (sample_mosaic [sample_box] (lit 15 10) (lit 6 10) sample_state) = Raise e /\
       st_files (snd (sample_mosaic [sample_box] (lit 15 10) (lit 6 10) sample_state)) =
       st_files sample_state) /\
  (0 < 800 <= 2 ^ 53 -> 0 < 800 <= 2 ^ 53 ->
   is_float (lit 15 10) -> is_float (lit 6 10) ->
   ~ open_unit (lit 15 10) \/ ~ open_unit (lit 6 10) ->
   exists e,
     fst (sample_mosaic [sample_box] (lit 15 10) (lit 6 10) sample_state) = Raise e /\
     st_files (snd (sample_mosaic [sample_box] (lit 15 10) (lit 6 10) sample_state)) =
     st_files sample_state).
Proof.
  apply (C6_failing_run_writes_nothing sample_preprocess (sample_read_label [sample_box])
           sample_read_img sample_compose sample_memory
           sample_names "in" "in" "out" "out" 800 800 (lit 15 10) (lit 6 10)
           200 (lit 1 10) false "/" sample_state).
  exact (sample_cropper_rejects [sample_box]).
Defined.

Lemma C8_witness :
  (forall q, remap_bboxes q (lit 4 10) (lit 6 10) [] = Ok []) /\
  (forall q, transformed_bboxes (run_crop (sample_run []) q) = [] ->
     run_bboxes (lit 4 10) (lit 6 10) (sample_run []) q = [] /\
     (length (transformed_class_labels (run_crop (sample_run []) q)) =
      length (transformed_bboxes (run_crop (sample_run []) q)) ->
      run_labels (sample_run []) q = [])) /\
  sample_mosaic [] (lit 4 10) (lit 6 10) sample_state =
    (Ok tt, outcome (lit 4 10) (lit 6 10) sample_state (sample_run [])) /\
  ((forall q, transformed_bboxes (run_crop (sample_run []) q) = [] /\
              transformed_class_labels (run_crop (sample_run []) q) = []) ->
   st_files (outcome (lit 4 10) (lit 6 10) sample_state (sample_run [])) =
     st_files sample_state ++
     [ImageFile (run_image_path (sample_run [])) (run_img (sample_run []) BottomRight);
      LabelFile (run_label_path (sample_run [])) [] []]).
Proof.
  apply (C8_zero_boxes_is_no_error sample_preprocess (sample_read_label [])
           sample_read_img sample_compose sample_memory
           sample_names "in" "in" "out" "out" 800 800 (lit 4 10) (lit 6 10)
           200 (lit 1 10) false "/" sample_state (sample_run [])).
  repeat split; vm_compute; reflexivity.
Defined.

Lemma C10_witness :
  let res := sample_body [sample_box; thin_box] (lit 4 10) (lit 6 10) 320 480 1
               sample_locals sample_state in
  exists c bboxes_new,
    sample_crop_of [sample_box; thin_box] (quadrant_of_index 1) 320 480 sample_state
      = (Ok c, snd res) /\
    remap_bboxes (quadrant_of_index 1) (lit 4 10) (lit 6 10) (transformed_bboxes c)
      = Ok bboxes_new /\
    branch (quadrant_of_index 1) (value_or sample_locals (fst res))
      = Some (bboxes_new, transformed_class_labels c) /\
    length bboxes_new = length (transformed_bboxes c) /\
    (forall k box, transformed_bboxes c !! k = Some box ->
       bboxes_new !! k = Some (remap_box (quadrant_of_index 1) (lit 4 10) (lit 6 10) box)) /\
    (forall k, transformed_bboxes c !! k = None -> bboxes_new !! k = None).
Proof.
  intros res.
  apply (C10_remap_keeps_every_box sample_preprocess (sample_read_label [sample_box; thin_box])
           sample_read_img sample_compose
           sample_names "in" "in" 800 800 (lit 4 10) (lit 6 10) 200 (lit 1 10)
           320 480 1 sample_locals sample_state
           (value_or sample_locals (fst res)) (snd res)).
  vm_compute. reflexivity.
Defined.

(* ================================================================== *)
(** * Further properties of the code *)
(* ================================================================== *)

(** ** Names and paths *)

Lemma string_app_length (p s : string) :
  String.length (p +:+ s) = (String.length p + String.length s)%nat.
Proof.
  induction p as [|a p IH]; [reflexivity|].
  change (String a p +:+ s) with (String a (p +:+ s)).
  cbn [String.length]. rewrite IH. reflexivity.
Qed.

(** Two strings with suffixes of the same length are equal only if the
    suffixes are. *)
Lemma string_app_suffix (p q s t : string) :
  String.length s = String.length t -> p +:+ s = q +:+ t -> s = t.
Proof.
  intros Hl. revert q. induction p as [|a p IH]; intros [|b q] H.
  - exact H.
  - exfalso. change (s = String b (q +:+ t)) in H.
    apply (f_equal String.length) in H.
    cbn [String.length] in H. rewrite string_app_length in H. lia.
  - exfalso. change (String a (p +:+ s) = t) in H.
    apply (f_equal String.length) in H.
    cbn [String.length] in H. rewrite string_app_length in H. lia.
  - injection H as _ H. exact (IH q H).
Qed.

Lemma endswith_spec (s suffix : string) :
  endswith s suffix = true <-> exists p, s = p +:+ suffix.
Proof.
  induction s as [|a s IH]; cbn [endswith].
  - rewrite orb_false_r, String.eqb_eq. split.
    + intros <-. exists EmptyString. reflexivity.
    + intros [[|b p] H]; [exact H|discriminate].
  - rewrite orb_true_iff, String.eqb_eq, IH. split.
    + intros [<-|[p ->]]; [exists EmptyString|exists (String a p)]; reflexivity.
    + intros [[|b p] H]; [left; exact H|right].
      injection H as _ ->. exists p. reflexivity.
Qed.

Lemma endswith_app (p s suffix : string) :
  endswith s suffix = true -> endswith (p +:+ s) suffix = true.
Proof.
  intros H. induction p as [|a p IH]; [exact H|].
  change (String a p +:+ s) with (String a (p +:+ s)).
  cbn [endswith]. rewrite IH. apply orb_true_r.
Qed.

Lemma endswith_refl (s : string) : endswith s s = true.
Proof. destruct s; cbn [endswith]; rewrite String.eqb_refl; reflexivity. Qed.

(** A name cannot end in two different suffixes of the same length. *)
Lemma endswith_other (s suffix other : string) :
  String.length suffix = String.length other -> suffix <> other ->
  endswith s suffix = true -> endswith s other = false.
Proof.
  intros Hl Hne H. apply not_true_is_false. intros H'.
  apply endswith_spec in H, H'. destruct H as [p ->], H' as [q H'].
  apply Hne. exact (string_app_suffix p q suffix other Hl H').
Qed.

(** Nor in a suffix one character longer whose tail is different. *)
Lemma endswith_longer (s suffix : string) (c : ascii) (other : string) :
  String.length suffix = String.length other -> suffix <> other ->
  endswith s suffix = true -> endswith s (String c other) = false.
Proof.
  intros Hl Hne H. apply not_true_is_false. intros H'.
  apply endswith_spec in H'. destruct H' as [q ->].
  assert (E : endswith (q +:+ String c other) other = true).
  { apply endswith_app. cbn [endswith]. rewrite endswith_refl. apply orb_true_r. }
  rewrite (endswith_other _ suffix other Hl Hne H) in E. discriminate.
Qed.

Lemma has_dot_app (p s : string) : has_dot (p +:+ s) = has_dot p || has_dot s.
Proof.
  induction p as [|a p IH]; [reflexivity|].
  change (String a p +:+ s) with (String a (p +:+ s)).
  cbn [has_dot]. rewrite IH. apply orb_assoc.
Qed.

Lemma before_first_dot_no_dot (s : string) : has_dot (before_first_dot s) = false.
Proof.
  induction s as [|a s IH]; [reflexivity|].
  cbn [before_first_dot]. destruct (Ascii.eqb a ".") eqn:E; [reflexivity|].
  cbn [has_dot]. rewrite E. exact IH.
Qed.

(** Cutting [stem.ext] at the first dot gives back a stem without dot. *)
Lemma before_first_dot_stem (stem ext : string) :
  has_dot stem = false -> before_first_dot (stem +:+ String "." ext) = stem.
Proof.
  induction stem as [|a s IH]; [reflexivity|].
  change (String a s +:+ String "." ext) with (String a (s +:+ String "." ext)).
  cbn [has_dot before_first_dot]. destruct (Ascii.eqb a "."); [discriminate|].
  cbn [orb]. intros H. rewrite (IH H). reflexivity.
Qed.

Lemma count_dots_app (p s : string) :
  count_dots (p +:+ s) = (count_dots p + count_dots s)%nat.
Proof.
  induction p as [|a p IH]; [reflexivity|].
  change (String a p +:+ s) with (String a (p +:+ s)).
  cbn [count_dots]. rewrite IH. lia.
Qed.

Lemma string_app_assoc (p q s : string) : (p +:+ q) +:+ s = p +:+ (q +:+ s).
Proof.
  induction p as [|a p IH]; [reflexivity|].
  change ((String a p +:+ q) +:+ s) with (String a ((p +:+ q) +:+ s)).
  rewrite IH. reflexivity.
Qed.

Lemma name_stem_take (l : list string) (k : nat) :
  (k < 4)%nat -> name_stem (take 4 l) k = name_stem l k.
Proof.
  intros Hk. unfold name_stem, get_item. rewrite lookup_take_lt by exact Hk. reflexivity.
Qed.

(** X1: [create_data_store_path] needs four names and looks at no more:
    on a list of fewer than four names it raises [IndexError]; on every
    list of at least four names, whatever they are (empty, without a
    dot), it returns; and the names after the fourth do not matter. *)
Theorem X1_paths_need_four_names sep output_image_dir output_label_dir
    (image_file_list : list string) :
  (if (4 <=? length image_file_list)%nat
   then is_ok (create_data_store_path sep output_image_dir output_label_dir
                 image_file_list) = true
   else create_data_store_path sep output_image_dir output_label_dir image_file_list
        = Raise IndexError) /\
  create_data_store_path sep output_image_dir output_label_dir image_file_list =
  create_data_store_path sep output_image_dir output_label_dir (take 4 image_file_list).
Proof.
  split.
  - destruct (Nat.leb_spec 4 (length image_file_list)) as [H|H].
    + destruct image_file_list as [|n0 [|n1 [|n2 [|n3 more]]]];
        cbn [length] in H; try lia.
      rewrite create_data_store_path_ok. reflexivity.
    + apply create_data_store_path_short. exact H.
  - unfold create_data_store_path. rewrite !name_stem_take by lia. reflexivity.
Qed.

(** The file name of a mosaic of four names. *)
Lemma mosaic_name_stem (b0 b1 b2 b3 ext : string) :
  ("mo_" +:+ b0 +:+ "_" +:+ b1 +:+ "_" +:+ b2 +:+ "_" +:+ b3 +:+ ext =
   ("mo_" +:+ b0 +:+ "_" +:+ b1 +:+ "_" +:+ b2 +:+ "_" +:+ b3) +:+ ext)%string.
Proof. rewrite !string_app_assoc. reflexivity. Qed.

(** The two paths share one stem, which holds no dot. *)
Lemma create_data_store_path_stem sep output_image_dir output_label_dir
    (image_file_list : list string) image_store_path label_store_path :
  create_data_store_path sep output_image_dir output_label_dir image_file_list =
    Ok (image_store_path, label_store_path) ->
  exists stem,
    image_store_path = (output_image_dir +:+ sep +:+ (stem +:+ ".jpg"))%string /\
    label_store_path = (output_label_dir +:+ sep +:+ (stem +:+ ".txt"))%string /\
    has_dot stem = false /\
    before_first_dot (stem +:+ ".jpg") = stem /\
    before_first_dot (stem +:+ ".txt") = stem /\
    extension_removed (stem +:+ ".jpg") = stem /\
    extension_removed (stem +:+ ".txt") = stem.
Proof.
  intros H.
  destruct image_file_list as [|n0 [|n1 [|n2 [|n3 more]]]];
    try (rewrite create_data_store_path_short in H by (cbn [length]; lia); discriminate).
  rewrite create_data_store_path_ok in H. injection H as <- <-.
  set (stem := ("mo_" +:+ before_first_dot n0 +:+ "_" +:+ before_first_dot n1 +:+ "_" +:+
                before_first_dot n2 +:+ "_" +:+ before_first_dot n3)%string).
  assert (Hd : has_dot stem = false).
  { unfold stem. rewrite !has_dot_app, !before_first_dot_no_dot. reflexivity. }
  assert (Hj : before_first_dot (stem +:+ ".jpg") = stem)
    by (apply before_first_dot_stem; exact Hd).
  assert (Ht : before_first_dot (stem +:+ ".txt") = stem)
    by (apply before_first_dot_stem; exact Hd).
  assert (Hc : forall ext, has_dot ext = false ->
                 (count_dots (stem +:+ String "." ext) <= 1)%nat).
  { intros ext He. rewrite count_dots_app. cbn [count_dots].
    rewrite Ascii.eqb_refl.
    apply has_dot_count in He. pose proof (proj1 (has_dot_count stem) Hd). lia. }
  exists stem. rewrite !mosaic_name_stem. fold stem.
  repeat match goal with |- _ /\ _ => split end; try reflexivity; try assumption.
  - rewrite <- before_first_dot_extension by (apply Hc; reflexivity). exact Hj.
  - rewrite <- before_first_dot_extension by (apply Hc; reflexivity). exact Ht.
Qed.

(** X2: the two paths [create_data_store_path] returns are
    [<dir><sep><stem>.jpg] and [<dir><sep><stem>.txt] with one and the
    same stem, which holds no dot: cutting either file name at its first
    dot, as the code does with a source name, or removing its extension
    gives the stem back, so the outputs follow the naming the script asks
    of its inputs (image and label of the same name). *)
Theorem X2_outputs_share_one_stem sep output_image_dir output_label_dir
    (image_file_list : list string) image_store_path label_store_path :
  create_data_store_path sep output_image_dir output_label_dir image_file_list =
    Ok (image_store_path, label_store_path) ->
  exists stem,
    image_store_path = (output_image_dir +:+ sep +:+ (stem +:+ ".jpg"))%string /\
    label_store_path = (output_label_dir +:+ sep +:+ (stem +:+ ".txt"))%string /\
    has_dot stem = false /\
    before_first_dot (stem +:+ ".jpg") = stem /\
    before_first_dot (stem +:+ ".txt") = stem /\
    extension_removed (stem +:+ ".jpg") = stem /\
    extension_removed (stem +:+ ".txt") = stem.
Proof. apply create_data_store_path_stem. Qed.

Lemma X2_witness :
  exists stem,
    "out/mo_a_b_c_d.jpg"%string = ("out" +:+ "/" +:+ (stem +:+ ".jpg"))%string /\
    "lbl/mo_a_b_c_d.txt"%string = ("lbl" +:+ "/" +:+ (stem +:+ ".txt"))%string /\
    has_dot stem = false /\
    before_first_dot (stem +:+ ".jpg") = stem /\
    before_first_dot (stem +:+ ".txt") = stem /\
    extension_removed (stem +:+ ".jpg") = stem /\
    extension_removed (stem +:+ ".txt") = stem.
Proof.
  apply (X2_outputs_share_one_stem "/" "out" "lbl" ["a.b.jpg"; "b.jpg"; "c.png"; "d.jpeg"]%string).
  vm_compute. reflexivity.
Defined.

(** X3: the image path and the label path of a run are never the same
    file: the first ends in [.jpg], the second in [.txt], whatever the
    names, the directories and the separator are; and of the two file
    names only that of the image passes the filter by which the script
    picks its source images, so a mosaic written into the input
    directory is a candidate source of a later run and its label file
    is not. *)
Theorem X3_image_and_label_paths_differ sep output_image_dir output_label_dir
    (image_file_list : list string) image_store_path label_store_path :
  create_data_store_path sep output_image_dir output_label_dir image_file_list =
    Ok (image_store_path, label_store_path) ->
  endswith image_store_path ".jpg" = true /\
  endswith label_store_path ".txt" = true /\
  image_store_path <> label_store_path /\
  exists stem,
    image_store_path = (output_image_dir +:+ sep +:+ (stem +:+ ".jpg"))%string /\
    label_store_path = (output_label_dir +:+ sep +:+ (stem +:+ ".txt"))%string /\
    is_pic (stem +:+ ".jpg") = true /\
    is_pic (stem +:+ ".txt") = false.
Proof.
  intros H.
  destruct (create_data_store_path_stem _ _ _ _ _ _ H) as (stem & -> & -> & _).
  assert (Hj : forall d : string, endswith (d +:+ sep +:+ (stem +:+ ".jpg")) ".jpg" = true).
  { intros. do 3 apply endswith_app. apply endswith_refl. }
  assert (Ht : forall d : string, endswith (d +:+ sep +:+ (stem +:+ ".txt")) ".txt" = true).
  { intros. do 3 apply endswith_app. apply endswith_refl. }
  assert (Hs : endswith (stem +:+ ".txt") ".txt" = true)
    by (apply endswith_app, endswith_refl).
  split; [apply Hj|]. split; [apply Ht|]. split.
  - intros E. pose proof (Hj output_image_dir) as H1. rewrite E in H1.
    rewrite (endswith_other _ ".txt" ".jpg") in H1;
      [discriminate|reflexivity|discriminate|apply Ht].
  - exists stem. split; [reflexivity|]. split; [reflexivity|]. split.
    + unfold is_pic. rewrite (endswith_app stem ".jpg" ".jpg") by apply endswith_refl.
      reflexivity.
    + unfold is_pic.
      rewrite (endswith_other _ ".txt" ".jpg"); [|reflexivity|discriminate|exact Hs].
      rewrite (endswith_other _ ".txt" ".png"); [|reflexivity|discriminate|exact Hs].
      rewrite (endswith_longer _ ".txt" "." "jpeg"); [|reflexivity|discriminate|exact Hs].
      reflexivity.
Qed.

Lemma X3_witness :
  endswith "out/mo_a_b_c_d.jpg" ".jpg" = true /\
  endswith "lbl/mo_a_b_c_d.txt" ".txt" = true /\
  "out/mo_a_b_c_d.jpg"%string <> "lbl/mo_a_b_c_d.txt"%string /\
  exists stem,
    "out/mo_a_b_c_d.jpg"%string = ("out" +:+ "/" +:+ (stem +:+ ".jpg"))%string /\
    "lbl/mo_a_b_c_d.txt"%string = ("lbl" +:+ "/" +:+ (stem +:+ ".txt"))%string /\
    is_pic (stem +:+ ".jpg") = true /\
    is_pic (stem +:+ ".txt") = false.
Proof.
  apply (X3_image_and_label_paths_differ "/" "out" "lbl"
           ["a.jpg"; "b.jpg"; "c.png"; "d.jpeg"]%string).
  vm_compute. reflexivity.
Defined.

(** X4: the filter of lines 246-247 keeps a name exactly when it ends,
    in lower case, in [.jpg], [.jpeg] or [.png]; so a label file, whose
    name ends in [.txt], is never taken for an image although images
    and labels are read from one directory, every name kept holds a dot,
    and the names kept are those of the listing in the listing's
    order. *)
Theorem X4_filter_keeps_images_only (listing : list string) :
  (forall img, is_pic img = true <->
     exists stem, img = (stem +:+ ".jpg")%string \/ img = (stem +:+ ".jpeg")%string \/
                  img = (stem +:+ ".png")%string) /\
  (forall stem, is_pic (stem +:+ ".txt") = false) /\
  (forall img, is_pic img = true -> has_dot img = true) /\
  (forall img, In img (List.filter is_pic listing) <-> In img listing /\ is_pic img = true) /\
  sublist (List.filter is_pic listing) listing.
Proof.
  assert (Hspec : forall img, is_pic img = true <->
     exists stem, img = (stem +:+ ".jpg")%string \/ img = (stem +:+ ".jpeg")%string \/
                  img = (stem +:+ ".png")%string).
  { intros img. unfold is_pic. rewrite !orb_true_iff, !endswith_spec. split.
    - intros [[[p ->]|[p ->]]|[p ->]]; exists p; auto.
    - intros [p [->| [->| ->]]]; [left; left|left; right|right]; exists p; reflexivity. }
  split; [exact Hspec|]. split; [|split; [|split]].
  - intros stem. unfold is_pic.
    assert (Ht : endswith (stem +:+ ".txt") ".txt" = true)
      by (apply endswith_app, endswith_refl).
    rewrite (endswith_other _ ".txt" ".jpg"); [|reflexivity|discriminate|exact Ht].
    rewrite (endswith_other _ ".txt" ".png"); [|reflexivity|discriminate|exact Ht].
    rewrite (endswith_longer _ ".txt" "." "jpeg"); [|reflexivity|discriminate|exact Ht].
    reflexivity.
  - intros img H. apply Hspec in H.
    destruct H as [p [->| [->| ->]]]; rewrite has_dot_app; apply orb_true_r.
  - intros img. apply List.filter_In.
  - induction listing as [|a l IH]; [constructor|].
    cbn [List.filter]. destruct (is_pic a); [apply sublist_skip|apply sublist_cons]; exact IH.
Qed.

Lemma X4_witness :
  (forall img, is_pic img = true <->
     exists stem, img = (stem +:+ ".jpg")%string \/ img = (stem +:+ ".jpeg")%string \/
                  img = (stem +:+ ".png")%string) /\
  (forall stem, is_pic (stem +:+ ".txt") = false) /\
  (forall img, is_pic img = true -> has_dot img = true) /\
  (forall img, In img (List.filter is_pic sample_listing) <->
               In img sample_listing /\ is_pic img = true) /\
  sublist (List.filter is_pic sample_listing) sample_listing.
Proof. exact (X4_filter_keeps_images_only sample_listing). Defined.

(** ** The split points, once more *)

Lemma scaled_value n v : n * U * v / U = n * v.
Proof.
  pose proof U_pos. replace (n * U * v) with (n * v * U) by ring.
  apply Z.div_mul. lia.
Qed.

(** The product of an integer [n <= 2^53] and a value below one rounds
    strictly below [n]. *)
Lemma RNE_scaled_below n v :
  0 < n <= 2 ^ 53 -> 0 <= v <= U - 2 ^ (scale - 53) -> RNE (n * v) < n * U.
Proof.
  intros Hn Hv. pose proof U_pos as HU.
  pose proof (pow2_pos (scale - 53) ltac:(unfold scale; lia)) as HG.
  set (G := 2 ^ (scale - 53)) in *.
  assert (HUG : U = 2 ^ 53 * G)
    by (unfold U, G; rewrite <- Z.pow_add_r by (unfold scale; lia); reflexivity).
  set (x := n * U).
  assert (Hx : U <= x) by (unfold x; nia).
  destruct (rep_small_int n Hn) as [_ Hxm]. fold x in Hxm.
  set (Lx := Z.log2 (x - 1)).
  assert (HU2 : 2 <= U).
  { unfold U. change 2 with (2 ^ 1) at 1. apply Z.pow_le_mono_r; unfold scale; lia. }
  pose proof (Z.log2_spec (x - 1) ltac:(lia)) as [Hlo Hhi]. fold Lx in Hlo, Hhi.
  assert (HLx : scale - 1 <= Lx).
  { unfold Lx. apply Z.log2_le_pow2; [lia|].
    assert (2 ^ scale = 2 * 2 ^ (scale - 1))
      by (rewrite <- Z.pow_succ_r by (unfold scale; lia); f_equal; lia).
    fold U in H. pose proof (pow2_pos (scale - 1) ltac:(unfold scale; lia)). lia. }
  set (g := Lx - 52).
  assert (Hg0 : 0 <= g - 1) by (unfold g, scale in *; lia).
  pose proof (pow2_pos (g - 1) Hg0) as HpH.
  assert (E2g : 2 ^ g = 2 * 2 ^ (g - 1)).
  { rewrite <- Z.pow_succ_r by lia. f_equal. lia. }
  assert (E2L : 2 ^ Lx = 2 ^ 52 * 2 ^ g).
  { rewrite <- Z.pow_add_r by lia. f_equal. unfold g. lia. }
  assert (E2L1 : 2 ^ Z.succ Lx = 2 ^ 53 * 2 ^ g).
  { rewrite <- Z.pow_add_r by lia. f_equal. unfold g. lia. }
  (* [x] is a multiple of the spacing below it *)
  assert (Hgx : g <= grid x).
  { apply Z.le_trans with (grid (x - 1)); [|apply grid_mono; lia].
    unfold grid, prec, g. fold Lx. lia. }
  assert (Hxg : exists k, x = k * 2 ^ g).
  { exists (x / 2 ^ grid x * 2 ^ (grid x - g)).
    pose proof (Z.div_mod x (2 ^ grid x) ltac:(pose proof (pow2_pos (grid x) (grid_nonneg x)); lia)) as E.
    rewrite Hxm in E. rewrite <- Z.mul_assoc, <- Z.pow_add_r by lia.
    replace (grid x - g + g) with (grid x) by lia. lia. }
  destruct Hxg as [k Hk].
  assert (Hk52 : 2 ^ 52 < k) by nia.
  assert (Hk53 : k <= 2 ^ 53) by nia.
  set (D := (k - 1) * 2 ^ g).
  assert (HDx : D = x - 2 ^ g) by (unfold D; lia).
  assert (HDlo : 2 ^ Lx <= D).
  { rewrite E2L. unfold D. apply Z.mul_le_mono_nonneg_r; lia. }
  assert (HDhi : D < 2 ^ Z.succ Lx) by lia.
  assert (HrepD : rep D).
  { assert (HlD : Z.log2 D = Lx).
    { apply Z.log2_unique; [lia|]. split; lia. }
    split; [lia|].
    replace (grid D) with g by (unfold grid, prec; rewrite HlD; unfold g, scale in *; lia).
    apply Z.mod_mul. lia. }
  set (y := n * v).
  assert (Hy0 : 0 <= y) by (unfold y; nia).
  (* the exact product is below the midpoint of [D] and [x] *)
  assert (Hmid : 2 * (y - D) < 2 ^ g).
  { assert (H1 : y <= x - n * G) by (unfold y, x; nia).
    assert (H2 : 2 ^ (g - 1) < n * G).
    { apply Z.mul_lt_mono_pos_l with (2 ^ 53); [lia|].
      rewrite <- (Z.pow_add_r 2 53 (g - 1)) by lia.
      replace (53 + (g - 1)) with Lx by (unfold g; lia).
      replace (2 ^ 53 * (n * G)) with x by (unfold x; rewrite HUG; ring). lia. }
    lia. }
  apply Z.le_lt_trans with D; [|lia].
  destruct (Z_le_gt_dec y D) as [Ly|Ly].
  - apply RNE_le_rep; assumption.
  - assert (Hly : Z.log2 y = Lx).
    { apply Z.log2_unique; [lia|]. split; lia. }
    assert (Hgy : grid y = g) by (unfold grid, prec; rewrite Hly; unfold g, scale in *; lia).
    unfold RNE, rne_div. rewrite Hgy.
    assert (Hqy : y / 2 ^ g = k - 1 /\ y mod 2 ^ g = y - D).
    { unfold D in *. split.
      - symmetry. apply (Z.div_unique y _ (k - 1) (y - (k - 1) * 2 ^ g)); lia.
      - symmetry. apply (Z.mod_unique y _ (k - 1) (y - (k - 1) * 2 ^ g)); lia. }
    destruct Hqy as [-> ->].
    replace (2 * (y - D) ?= 2 ^ g) with Lt by (symmetry; apply Z.compare_lt_iff; lia).
    unfold D. lia.
Qed.

(** [int(n * s)] for [0 < n <= 2^53] and [0 < s < 1]: below [n], and
    positive exactly when the product of the doubles is at least one. *)
Lemma int_mul_float_strict n s :
  0 < n <= 2 ^ 53 -> is_float s -> open_unit s ->
  exists p, int_mul_float n s = Ok p /\
            int_of_float p = Ok (float_floor p) /\
            0 <= float_floor p < n /\
            (0 < float_floor p <-> float_le one p = true).
Proof.
  intros Hn Hs Hu. destruct (open_unit_Fval s Hs Hu) as [Fs HFs].
  pose proof U_pos as HU.
  destruct (float_of_int_exact n Hn) as (EA & FA & VA).
  unfold int_mul_float. rewrite EA. cbn [mbind result_bind].
  set (A := binary_normalize prec emax n 0 false) in *.
  destruct (float_mul_le_l A s FA Fs ltac:(nia) ltac:(lia)) as (FP & VP & HP0 & HP1).
  exists (float_mul A s). split; [reflexivity|].
  pose proof (float_floor_int _ FP HP0) as Hfl. split; [exact Hfl|].
  assert (Hlt : Fval (float_mul A s) < n * U).
  { rewrite VP, VA, scaled_value. apply RNE_scaled_below; [exact Hn|].
    split; [lia|]. apply rep_below_U; [apply rep_Fval; [exact Fs|lia]|lia]. }
  pose proof Hfl as E. rewrite (int_of_float_Fval _ FP HP0) in E.
  injection E as E. rewrite <- E. split; [split|].
  - apply Z.div_pos; lia.
  - apply Z.div_lt_upper_bound; lia.
  - unfold float_le. rewrite (float_le_Fval one _ finite_one FP), Fval_one.
    split; intros H.
    + destruct (Z_lt_le_dec (Fval (float_mul A s)) U) as [L|L]; [|exact L].
      rewrite Z.div_small in H by lia. lia.
    + apply Z.div_str_pos. lia.
Qed.

(** The split point on a canvas of at most [2^53] pixels a side. *)
Lemma split_points_strict mo_w mo_h scale_x scale_y :
  0 < mo_w <= 2 ^ 53 -> 0 < mo_h <= 2 ^ 53 ->
  is_float scale_x -> is_float scale_y -> open_unit scale_x -> open_unit scale_y ->
  exists px py div_point_x div_point_y,
    int_mul_float mo_w scale_x = Ok px /\ int_mul_float mo_h scale_y = Ok py /\
    split_points mo_w mo_h scale_x scale_y = Ok (div_point_x, div_point_y) /\
    0 <= div_point_x < mo_w /\ 0 <= div_point_y < mo_h /\
    ((forall q, 0 < target_w q mo_w div_point_x /\ 0 < target_h q mo_h div_point_y) <->
     float_le one px = true /\ float_le one py = true).
Proof.
  intros Hw Hh Fx Fy Ux Uy.
  destruct (int_mul_float_strict mo_w scale_x Hw Fx Ux) as (px & Epx & Eix & Hx & Px).
  destruct (int_mul_float_strict mo_h scale_y Hh Fy Uy) as (py & Epy & Eiy & Hy & Py).
  exists px, py, (float_floor px), (float_floor py).
  split; [exact Epx|]. split; [exact Epy|]. split.
  { unfold split_points. rewrite Epx. cbn [mbind result_bind]. rewrite Eix.
    cbn [mbind result_bind]. rewrite Epy. cbn [mbind result_bind]. rewrite Eiy.
    reflexivity. }
  split; [exact Hx|]. split; [exact Hy|].
  unfold target_w, target_h. split.
  - intros H. destruct (H TopLeft) as [H1 H2]. cbn [is_left is_top] in H1, H2.
    split; [apply Px|apply Py]; assumption.
  - intros [H1 H2] q. apply Px in H1. apply Py in H2.
    destruct q; cbn [is_left is_top]; lia.
Qed.

(** X5: on a canvas of at most [2^53] pixels a side and for scales in
    (0,1) the split point lies strictly below the canvas size,
    [0 <= div_point_x < mo_w] and [0 <= div_point_y < mo_h], so the
    quadrants on the right and at the bottom always have a positive
    target size; the split point can be [0], however: all four quadrants
    have a positive target width and height exactly when the products
    [mo_w * scale_x] and [mo_h * scale_y] of lines 102-103 are at least
    [1.0]. *)
Theorem X5_target_sizes mo_w mo_h scale_x scale_y :
  0 < mo_w <= 2 ^ 53 -> 0 < mo_h <= 2 ^ 53 ->
  is_float scale_x -> is_float scale_y -> open_unit scale_x -> open_unit scale_y ->
  exists px py div_point_x div_point_y,
    int_mul_float mo_w scale_x = Ok px /\ int_mul_float mo_h scale_y = Ok py /\
    split_points mo_w mo_h scale_x scale_y = Ok (div_point_x, div_point_y) /\
    0 <= div_point_x < mo_w /\ 0 <= div_point_y < mo_h /\
    0 < target_w TopRight mo_w div_point_x /\
    0 < target_w BottomRight mo_w div_point_x /\
    0 < target_h BottomLeft mo_h div_point_y /\
    0 < target_h BottomRight mo_h div_point_y /\
    ((forall q, 0 < target_w q mo_w div_point_x /\ 0 < target_h q mo_h div_point_y) <->
     float_le one px = true /\ float_le one py = true).
Proof.
  intros Hw Hh Fx Fy Ux Uy.
  destruct (split_points_strict mo_w mo_h scale_x scale_y Hw Hh Fx Fy Ux Uy)
    as (px & py & dx & dy & Epx & Epy & Hsp & Hx & Hy & Hiff).
  exists px, py, dx, dy.
  repeat match goal with |- _ /\ _ => split end; try assumption;
    unfold target_w, target_h; cbn [is_left is_top]; lia.
Qed.

Lemma X5_witness :
  exists px py div_point_x div_point_y,
    int_mul_float 2 (lit 4 10) = Ok px /\ int_mul_float 800 (lit 6 10) = Ok py /\
    split_points 2 800 (lit 4 10) (lit 6 10) = Ok (div_point_x, div_point_y) /\
    0 <= div_point_x < 2 /\ 0 <= div_point_y < 800 /\
    0 < target_w TopRight 2 div_point_x /\
    0 < target_w BottomRight 2 div_point_x /\
    0 < target_h BottomLeft 800 div_point_y /\
    0 < target_h BottomRight 800 div_point_y /\
    ((forall q, 0 < target_w q 2 div_point_x /\ 0 < target_h q 800 div_point_y) <->
     float_le one px = true /\ float_le one py = true).
Proof.
  apply (X5_target_sizes 2 800 (lit 4 10) (lit 6 10));
    try reflexivity; try lia; split; vm_compute; reflexivity.
Defined.

(** ** Scales that are not numbers *)

Lemma float_of_int_positive n :
  0 < n < 2 ^ 63 ->
  exists m e, float_of_int n = Ok (S754_finite false m e).
Proof.
  intros Hn. pose proof U_pos as HU. destruct rep_2_63 as [Hrep Hbnd].
  assert (Hov : RNE (n * U) < 2 ^ (emax + scale)).
  { apply Z.le_lt_trans with (2 ^ 63 * U); [|exact Hbnd].
    apply RNE_le_rep; [nia| |exact Hrep].
    apply Z.mul_le_mono_nonneg_r; lia. }
  destruct (float_of_int_spec n) as [FA VA].
  { rewrite Z.abs_eq by lia. exact Hov. }
  fold U in VA. rewrite RNEs_nonneg in VA by nia.
  pose proof (RNE_ge_rep (n * U) U ltac:(lia) ltac:(nia) rep_U) as Hge.
  unfold float_of_int.
  destruct (binary_normalize prec emax n 0 false) as [s|s| |s m e].
  - cbn [Fval] in VA. lia.
  - destruct FA as [_ []].
  - destruct FA as [_ []].
  - destruct s.
    + exfalso. destruct FA as [FA _].
      pose proof (is_float_finite_inv _ _ _ FA) as (He & _).
      pose proof (Fval_finite_pos m e ltac:(unfold scale; lia)).
      unfold Fval in VA. cbn [cond_Zopp] in VA. lia.
    + exists m, e. reflexivity.
Qed.

(** [int(n * s)] for a positive [n] and a scale that is NaN or an
    infinity. *)
Lemma scaled_dim_not_a_number n s :
  0 < n < 2 ^ 63 -> is_float s -> ~ finite s ->
  (s = S754_nan /\ (p ← int_mul_float n s; int_of_float p) = Raise ValueError) \/
  ((exists b, s = S754_infinity b) /\
   (p ← int_mul_float n s; int_of_float p) = Raise OverflowError).
Proof.
  intros Hn Hs Hnf. destruct (float_of_int_positive n Hn) as (m & e & EA).
  unfold int_mul_float. rewrite EA. cbn [mbind result_bind].
  destruct s as [b|b| |b m' e'].
  - exfalso. apply Hnf. split; [exact Hs|exact I].
  - right. split; [exists b; reflexivity|reflexivity].
  - left. split; reflexivity.
  - exfalso. apply Hnf. split; [exact Hs|exact I].
Qed.

Lemma int_of_float_raises x e :
  int_of_float x = Raise e -> e = ValueError \/ e = OverflowError.
Proof. destruct x; intros [= <-]; auto. Qed.

(** ** Canvas writes that fit *)



Lemma split_points_raise_x mo_w mo_h sx sy e :
  (p ← int_mul_float mo_w sx; int_of_float p) = Raise e ->
  split_points mo_w mo_h sx sy = Raise e.
Proof.
  unfold split_points. destruct (int_mul_float mo_w sx) as [px|e0];
    cbn [mbind result_bind]; [|intros [= ->]; reflexivity].
  intros ->. reflexivity.
Qed.

Lemma split_points_raise_y mo_w mo_h sx sy dx e :
  (p ← int_mul_float mo_w sx; int_of_float p) = Ok dx ->
  (p ← int_mul_float mo_h sy; int_of_float p) = Raise e ->
  split_points mo_w mo_h sx sy = Raise e.
Proof.
  unfold split_points. destruct (int_mul_float mo_w sx) as [px|e0];
    cbn [mbind result_bind]; [|discriminate].
  intros ->. cbn [mbind result_bind].
  destruct (int_mul_float mo_h sy) as [py|e0]; cbn [mbind result_bind];
    [|intros [= ->]; reflexivity].
  intros ->. reflexivity.
Qed.

Lemma scaled_dim_raises n s e :
  0 < n < 2 ^ 63 ->
  (p ← int_mul_float n s; int_of_float p) = Raise e ->
  e = ValueError \/ e = OverflowError.
Proof.
  intros Hn. destruct (float_of_int_positive n Hn) as (m & ex & EA).
  unfold int_mul_float. rewrite EA. cbn [mbind result_bind].
  apply int_of_float_raises.
Qed.

(** ** Runs of the composer, once more *)

Section ComposerRuns.

Context {label world ignored : Type}.
Variable preprocess :
  string -> string -> string -> world -> result (string * string * ignored) * world.
Variable read_label : string -> world -> result (list bbox * list label) * world.
Variable read_img : string -> world -> result image * world.
Variable compose_random_resized_crop :
  Z -> Z -> Z -> float ->
  result (image -> list bbox -> list label -> world ->
          result (cropped (label := label)) * world).
Variable memory : Z -> Z -> pixel.
Variable image_file_list : list string.
Variables image_dir label_dir output_image_dir output_label_dir : string.
Variables mo_w mo_h : Z.
Variables scale_x scale_y : float.
Variable min_area : Z.
Variable min_visibility : float.
Variable display : bool.
Variable sep : string.

Local Abbreviation body :=
  (quadrant_body preprocess read_label read_img compose_random_resized_crop
     image_file_list image_dir label_dir
     mo_w mo_h scale_x scale_y min_area min_visibility).
Local Abbreviation crop :=
  (crop_of preprocess read_label read_img compose_random_resized_crop
     image_file_list image_dir label_dir
     mo_w mo_h min_area min_visibility).
Local Abbreviation the_mosaic :=
  (mosaic preprocess read_label read_img compose_random_resized_crop memory
     image_file_list image_dir label_dir
     output_image_dir output_label_dir mo_w mo_h scale_x scale_y
     min_area min_visibility display sep).
Local Abbreviation the_run_completes :=
  (completes preprocess read_label read_img compose_random_resized_crop memory
     image_file_list image_dir label_dir
     output_image_dir output_label_dir mo_w mo_h scale_x scale_y
     min_area min_visibility sep).
Local Abbreviation the_outcome := (outcome scale_x scale_y).
Local Abbreviation the_cropper :=
  (random_crop_savebboxes preprocess read_label read_img compose_random_resized_crop).
Local Abbreviation region_of q dx dy := (quadrant_region q mo_h mo_w dy dx).
Local Abbreviation first_locals canvas :=
  ({| new_img := canvas; branch_0 := None; branch_1 := None;
      branch_2 := None; branch_3 := None |} : locals (label := label)).

(** X6: a scale that is NaN or an infinity stops the run at lines
    102-103, once the canvas is allocated and before anything else is
    done: [int] raises [ValueError] on the NaN product and
    [OverflowError] on the infinite one ([scale_x] is looked at first),
    no image is cropped and nothing is written, the state is the one
    the run started in. *)
Theorem X6_scale_not_a_number (st : state (label := label) (world := world)) canvas :
  np_empty memory mo_h mo_w = Ok canvas -> 0 < mo_w -> 0 < mo_h ->
  is_float scale_x -> is_float scale_y ->
  ~ finite scale_x \/ ~ finite scale_y ->
  exists e,
    the_mosaic st = (Raise e, st) /\
    (e = ValueError \/ e = OverflowError) /\
    (scale_x = S754_nan -> e = ValueError) /\
    (forall b, scale_x = S754_infinity b -> e = OverflowError).
Proof.
  intros Hnp Hw Hh Fx Fy Hout.
  destruct (np_empty_inv _ _ _ _ Hnp) as (_ & _ & Hsz & _).
  assert (Hw63 : 0 < mo_w < 2 ^ 63) by nia.
  assert (Hh63 : 0 < mo_h < 2 ^ 63) by nia.
  assert (Hsp : exists e, split_points mo_w mo_h scale_x scale_y = Raise e /\
            (e = ValueError \/ e = OverflowError) /\
            (scale_x = S754_nan -> e = ValueError) /\
            (forall b, scale_x = S754_infinity b -> e = OverflowError)).
  { assert (Dx : finite scale_x \/ ~ finite scale_x).
    { destruct scale_x; [left; split; [exact Fx|exact I]|right; intros [_ []]
                        |right; intros [_ []]|left; split; [exact Fx|exact I]]. }
    destruct Dx as [Finx|Nfx].
    - assert (Nfy : ~ finite scale_y) by (destruct Hout; [contradiction|assumption]).
      assert (Hnn : scale_x <> S754_nan) by (intros E; rewrite E in Finx; destruct Finx as [_ []]).
      assert (Hni : forall b, scale_x <> S754_infinity b)
        by (intros b E; rewrite E in Finx; destruct Finx as [_ []]).
      destruct (p ← int_mul_float mo_w scale_x; int_of_float p) as [dx|e] eqn:Ex.
      + destruct (scaled_dim_not_a_number mo_h scale_y Hh63 Fy Nfy) as [[_ Ey]|[_ Ey]].
        * exists ValueError. rewrite (split_points_raise_y _ _ _ _ _ _ Ex Ey).
          split; [reflexivity|]. split; [auto|]. split; [contradiction|].
          intros b E. destruct (Hni b E).
        * exists OverflowError. rewrite (split_points_raise_y _ _ _ _ _ _ Ex Ey).
          split; [reflexivity|]. split; [auto|]. split; [contradiction|reflexivity].
      + exists e. rewrite (split_points_raise_x _ _ _ _ _ Ex).
        split; [reflexivity|]. split; [exact (scaled_dim_raises _ _ _ Hw63 Ex)|].
        split; [contradiction|]. intros b E. destruct (Hni b E).
    - destruct (scaled_dim_not_a_number mo_w scale_x Hw63 Fx Nfx) as [[En Ex]|[[b Ei] Ex]].
      + exists ValueError. rewrite (split_points_raise_x _ _ _ _ _ Ex).
        split; [reflexivity|]. split; [auto|]. split; [reflexivity|].
        intros b E. rewrite En in E. discriminate.
      + exists OverflowError. rewrite (split_points_raise_x _ _ _ _ _ Ex).
        split; [reflexivity|]. split; [auto|]. split; [|reflexivity].
        intros E. rewrite Ei in E. discriminate. }
  destruct Hsp as (e & Hsp & He). exists e. split; [|exact He].
  unfold mosaic, bind, lift. rewrite Hnp, Hsp. reflexivity.
Qed.

(** X7: when [mosaic] returns, the image it saved has the size of the
    canvas and every pixel of it was written from a crop: the pixel at
    (row, col) of the slice of quadrant [q] is the pixel of the crop of
    [q] at (row, col) relative to the corner of the slice (at index 0
    along an axis on which the crop has length one and was broadcast),
    later writes do not touch it, and the four slices cover the canvas,
    so that nothing of what [np.empty] found in memory is saved. *)
Theorem X7_saved_image_is_made_of_crops
    (st : state (label := label) (world := world)) u st' :
  the_mosaic st = (Ok u, st') ->
  exists r : run,
    the_run_completes st r /\
    In (ImageFile (run_image_path r) (run_img r BottomRight)) (st_files st') /\
    height (run_img r BottomRight) = mo_h /\
    width (run_img r BottomRight) = mo_w /\
    (forall q row col,
       in_region (region_of q (run_div_x r) (run_div_y r)) row col = true ->
       pix (run_img r BottomRight) row col =
       pix (transformed_image (run_crop r q))
         (if height (transformed_image (run_crop r q)) =? 1 then 0
          else row - row_lo (region_of q (run_div_x r) (run_div_y r)))
         (if width (transformed_image (run_crop r q)) =? 1 then 0
          else col - col_lo (region_of q (run_div_x r) (run_div_y r)))) /\
    (forall row col, 0 <= row < mo_h -> 0 <= col < mo_w ->
       exists q, in_region (region_of q (run_div_x r) (run_div_y r)) row col = true).
Proof.
  intros H. apply mosaic_ok_inv in H. destruct H as (r & Hc & ->).
  exists r. split; [exact Hc|].
  destruct Hc as (Hnp & _ & [_ S0] & [_ S1] & [_ S2] & [_ S3] & _).
  apply np_empty_inv in Hnp. destruct Hnp as (_ & _ & _ & Ecanvas).
  apply set_region_inv in S0, S1, S2, S3.
  destruct S0 as (Hh0 & Hw0 & Out0 & In0), S1 as (Hh1 & Hw1 & Out1 & In1),
           S2 as (Hh2 & Hw2 & Out2 & In2), S3 as (Hh3 & Hw3 & Out3 & In3).
  split.
  { unfold outcome. cbn [st_files]. apply in_or_app. right. left. reflexivity. }
  split; [rewrite Hh3, Hh2, Hh1, Hh0, Ecanvas; reflexivity|].
  split; [rewrite Hw3, Hw2, Hw1, Hw0, Ecanvas; reflexivity|].
  split.
  - intros q row col Hin.
    assert (D : forall q', q' <> q ->
              in_region (region_of q' (run_div_x r) (run_div_y r)) row col = false).
    { intros q' Hne. apply (quadrant_regions_disjoint q q'); [congruence|exact Hin]. }
    destruct q.
    + rewrite Out3, Out2, Out1 by (apply D; discriminate). apply In0. exact Hin.
    + rewrite Out3, Out2 by (apply D; discriminate). apply In1. exact Hin.
    + rewrite Out3 by (apply D; discriminate). apply In2. exact Hin.
    + apply In3. exact Hin.
  - intros row col Hr Hcol. apply quadrant_regions_cover; assumption.
Qed.

(** X9: with fewer than four names [mosaic] never returns and writes
    nothing; when the allocation, the split and the branches that have
    a name succeed, the run ends with the [IndexError] of
    [image_file_list[k]] in the first branch [k] without a name, after
    the crops of the branches before it and before anything is
    written. *)
Theorem X9_fewer_than_four_names (st : state (label := label) (world := world)) :
  (length image_file_list < 4)%nat ->
  (exists e, fst (the_mosaic st) = Raise e /\
             st_files (snd (the_mosaic st)) = st_files st) /\
  (forall canvas dx dy l st1,
     np_empty memory mo_h mo_w = Ok canvas ->
     split_points mo_w mo_h scale_x scale_y = Ok (dx, dy) ->
     for_range (body dx dy) (map Z.of_nat (seq 0 (length image_file_list)))
       (first_locals canvas) st = (Ok l, st1) ->
     the_mosaic st = (Raise IndexError, st1) /\ st_files st1 = st_files st).
Proof.
  intros Hlen. split.
  - destruct (the_mosaic st) as [[u|e] st'] eqn:E.
    + exfalso. apply mosaic_ok_inv in E. destruct E as (r & Hc & _).
      destruct Hc as (_ & _ & _ & _ & _ & [Hcrop _] & _).
      unfold crop_of, bind, lift in Hcrop.
      destruct (get_item image_file_list (file_index BottomRight)) as [name|e] eqn:G;
        [|discriminate].
      unfold get_item in G. cbn [file_index] in G.
      destruct (image_file_list !! 3%nat) eqn:L; [|discriminate].
      apply lookup_lt_Some in L. lia.
    + exists e. split; [reflexivity|].
      pose proof (mosaic_raise_keeps_files preprocess read_label read_img
                    compose_random_resized_crop memory image_file_list image_dir
                    label_dir output_image_dir output_label_dir mo_w mo_h
                    scale_x scale_y min_area min_visibility display sep st e) as H.
      rewrite E in H. apply H. reflexivity.
  - intros canvas dx dy l st1 Hnp Hsp Hpre.
    assert (Hfiles : st_files st1 = st_files st).
    { pose proof (for_range_keeps_files preprocess read_label read_img
                    compose_random_resized_crop image_file_list image_dir label_dir
                    mo_w mo_h scale_x scale_y min_area min_visibility dx dy
                    (map Z.of_nat (seq 0 (length image_file_list)))
                    (first_locals canvas) st) as H.
      rewrite Hpre in H. exact H. }
    split; [|exact Hfiles].
    assert (Hmiss : forall i l0 st0,
              i = Z.of_nat (length image_file_list) ->
              body dx dy i l0 st0 = (Raise IndexError, st0)).
    { intros i l0 st0 ->. unfold quadrant_body, bind, lift.
      assert (G : get_item image_file_list
                    (file_index (quadrant_of_index (Z.of_nat (length image_file_list))))
                  = Raise IndexError).
      { unfold get_item.
        destruct image_file_list as [|n0 [|n1 [|n2 [|n3 more]]]];
          cbn [length] in Hlen; try lia; reflexivity. }
      rewrite G. reflexivity. }
    unfold mosaic, bind, lift. rewrite Hnp, Hsp.
    assert (K : (length image_file_list = 0 \/ length image_file_list = 1 \/
                 length image_file_list = 2 \/ length image_file_list = 3)%nat) by lia.
    cbn [for_range]. unfold bind.
    destruct K as [K|[K|[K|K]]]; rewrite K in Hpre, Hmiss.
    + change (map Z.of_nat (seq 0 0)) with (@nil Z) in Hpre.
      cbn [for_range] in Hpre. unfold ret in Hpre. injection Hpre as <- <-.
      rewrite (Hmiss 0) by reflexivity. reflexivity.
    + change (map Z.of_nat (seq 0 1)) with [0] in Hpre.
      cbn [for_range] in Hpre. unfold bind in Hpre.
      destruct (body dx dy 0 _ st) as [[l0|e0] s0]; [|discriminate].
      unfold ret in Hpre. injection Hpre as <- <-.
      rewrite (Hmiss 1) by reflexivity. reflexivity.
    + change (map Z.of_nat (seq 0 2)) with [0; 1] in Hpre.
      cbn [for_range] in Hpre. unfold bind in Hpre.
      destruct (body dx dy 0 _ st) as [[l0|e0] s0]; [|discriminate].
      destruct (body dx dy 1 _ s0) as [[l1|e1] s1]; [|discriminate].
      unfold ret in Hpre. injection Hpre as <- <-.
      rewrite (Hmiss 2) by reflexivity. reflexivity.
    + change (map Z.of_nat (seq 0 3)) with [0; 1; 2] in Hpre.
      cbn [for_range] in Hpre. unfold bind in Hpre.
      destruct (body dx dy 0 _ st) as [[l0|e0] s0]; [|discriminate].
      destruct (body dx dy 1 _ s0) as [[l1|e1] s1]; [|discriminate].
      destruct (body dx dy 2 _ s1) as [[l2|e2] s2]; [|discriminate].
      unfold ret in Hpre. injection Hpre as <- <-.
      rewrite (Hmiss 3) by reflexivity. reflexivity.
Qed.

Section Delivery.

(** The cropper returns, for a positive target size, an image of that
    size. *)
Hypothesis cropper_delivers :
  forall name idir ldir h w a v (st0 : state (label := label) (world := world)),
    0 < h -> 0 < w ->
    exists c st1, the_cropper name idir ldir h w a v st0 = (Ok c, st1) /\
                  height (transformed_image c) = h /\ width (transformed_image c) = w.



End Delivery.


(** *** What a run can raise *)









(** X13: on a canvas of at most [2^53] pixels a side and with scales in
    (0,1), a run returns only if the canvas has room for four
    quadrants: if the cropper rejects a non-positive target size and
    [mosaic] returns, then both products of lines 102-103,
    [mo_w * scale_x] and [mo_h * scale_y], are at least [1.0]; on a
    canvas too small for its scales the split point is [0], the
    top-left target size is empty and the run fails. *)
Theorem X13_returning_run_has_room
    (st : state (label := label) (world := world)) u st' px py :
  (forall name idir ldir h w a v (st0 : state (label := label) (world := world)),
     h <= 0 \/ w <= 0 ->
     is_ok (fst (the_cropper name idir ldir h w a v st0)) = false) ->
  0 < mo_w <= 2 ^ 53 -> 0 < mo_h <= 2 ^ 53 ->
  is_float scale_x -> is_float scale_y -> open_unit scale_x -> open_unit scale_y ->
  int_mul_float mo_w scale_x = Ok px -> int_mul_float mo_h scale_y = Ok py ->
  the_mosaic st = (Ok u, st') ->
  float_le one px = true /\ float_le one py = true.
Proof.
  intros Hrej Hw Hh Fx Fy Ux Uy Epx Epy Hrun.
  destruct (split_points_strict mo_w mo_h scale_x scale_y Hw Hh Fx Fy Ux Uy)
    as (px' & py' & dx & dy & Epx' & Epy' & Hsp & Hdx & Hdy & Hiff).
  rewrite Epx in Epx'. injection Epx' as <-.
  rewrite Epy in Epy'. injection Epy' as <-.
  apply Hiff. intros q.
  destruct (Z_lt_le_dec 0 (target_w q mo_w dx)) as [Lw|Lw];
    [destruct (Z_lt_le_dec 0 (target_h q mo_h dy)) as [Lh|Lh]; [auto|]|]; exfalso.
  - destruct (nonpositive_target_raises preprocess read_label read_img
                compose_random_resized_crop memory image_file_list image_dir label_dir
                output_image_dir output_label_dir mo_w mo_h scale_x scale_y min_area
                min_visibility display sep Hrej st dx dy q Hsp (or_intror Lh))
      as (e & He & _).
    rewrite Hrun in He. discriminate.
  - destruct (nonpositive_target_raises preprocess read_label read_img
                compose_random_resized_crop memory image_file_list image_dir label_dir
                output_image_dir output_label_dir mo_w mo_h scale_x scale_y min_area
                min_visibility display sep Hrej st dx dy q Hsp (or_introl Lw))
      as (e & He & _).
    rewrite Hrun in He. discriminate.
Qed.

End ComposerRuns.

(** ** The remapped box and the split lines *)

Lemma rep_pow2 k : scale - 1074 <= k -> rep (2 ^ k).
Proof.
  intros Hk. assert (H0 : 0 <= k) by (unfold scale in Hk; lia).
  pose proof (pow2_pos k H0) as Hp. split; [lia|].
  unfold grid. rewrite Z.log2_pow2 by exact H0.
  set (g := Z.max (k + 1 - prec) (scale - 1074)).
  assert (Hg : 0 <= g <= k) by (unfold g, prec, scale in *; lia).
  replace k with ((k - g) + g) at 1 by lia.
  rewrite Z.pow_add_r by lia. apply Z.mod_mul.
  pose proof (pow2_pos g ltac:(lia)). lia.
Qed.

(** A sum of two non-negative doubles that stays near one is at least
    each of them. *)
Lemma float_add_ge_r a b :
  finite a -> finite b -> 0 <= Fval a -> 0 <= Fval b ->
  Fval a + Fval b <= 2 * U ->
  finite (float_add a b) /\ Fval b <= Fval (float_add a b).
Proof.
  intros Fa Fb Ha Hb Hsum. pose proof U_pos as HU.
  assert (E2 : 2 * U = 2 ^ (scale + 1)).
  { unfold U. rewrite (Z.pow_add_r 2 scale 1) by (unfold scale; lia).
    change (2 ^ 1) with 2. ring. }
  destruct (float_add_spec a b Fa Fb) as [F V].
  { rewrite Z.abs_eq by lia.
    apply Z.le_lt_trans with (2 ^ (scale + 1)).
    - apply RNE_le_rep; [lia|lia|apply rep_pow2; lia].
    - apply Z.pow_lt_mono_r; unfold scale, emax; lia. }
  rewrite RNEs_nonneg in V by lia.
  split; [exact F|]. rewrite V.
  apply RNE_ge_rep; [lia|lia|apply rep_Fval; assumption].
Qed.

Lemma new_x_side q s x :
  is_float s -> open_unit s -> is_float x -> closed_unit x ->
  if is_left q then float_le (new_x q s x) s = true
  else float_le s (new_x q s x) = true.
Proof.
  intros Hs Hu Hx Hc. destruct (closed_unit_Fval x Hx Hc) as [Fx HFx].
  destruct (open_unit_Fval s Hs Hu) as [Fs HFs].
  unfold new_x, float_le. destruct (is_left q).
  - destruct (float_mul_le_r x s Fx Fs HFx ltac:(lia)) as (F & _ & H).
    apply (float_le_Fval _ _ F Fs). lia.
  - destruct (one_minus_unit s Hs Hu) as (Ft & Ht & _).
    destruct (float_mul_le_r x (one_minus s) Fx Ft HFx ltac:(lia)) as (Fp & _ & Hp).
    destruct (float_add_ge_r (float_mul x (one_minus s)) s Fp Fs) as [F H]; try lia.
    apply (float_le_Fval _ _ Fs F). exact H.
Qed.

Lemma new_y_side q s y :
  is_float s -> open_unit s -> is_float y -> closed_unit y ->
  if is_top q then float_le (new_y q s y) s = true
  else float_le s (new_y q s y) = true.
Proof.
  intros Hs Hu Hy Hc. destruct (closed_unit_Fval y Hy Hc) as [Fy HFy].
  destruct (open_unit_Fval s Hs Hu) as [Fs HFs].
  unfold new_y, float_le. destruct (is_top q).
  - destruct (float_mul_le_r y s Fy Fs HFy ltac:(lia)) as (F & _ & H).
    apply (float_le_Fval _ _ F Fs). lia.
  - destruct (one_minus_unit s Hs Hu) as (Ft & Ht & _).
    destruct (float_mul_le_r y (one_minus s) Fy Ft HFy ltac:(lia)) as (Fp & _ & Hp).
    destruct (float_add_ge_r (float_mul y (one_minus s)) s Fp Fs) as [F H]; try lia.
    apply (float_le_Fval _ _ Fs F). exact H.
Qed.

(** A width or height times its span is at most the span. *)
Lemma mul_span_le w t :
  is_float w -> closed_unit w -> finite t -> 0 <= Fval t <= U ->
  float_le (float_mul w t) t = true.
Proof.
  intros Hw Hc Ft Ht. destruct (closed_unit_Fval w Hw Hc) as [Fw HFw].
  destruct (float_mul_le_r w t Fw Ft HFw ltac:(lia)) as (F & _ & H).
  unfold float_le. apply (float_le_Fval _ _ F Ft). lia.
Qed.

(** X10: for scales in (0,1) and a local box with coordinates in
    [0,1], the remapped box stays on its quadrant's side of the split
    lines [x = scale_x] and [y = scale_y], rounding included: the new
    x_center is at most [scale_x] in the left quadrants and at least
    [scale_x] in the right ones, the new y_center at most [scale_y] in
    the top quadrants and at least [scale_y] in the bottom ones; and the
    new width and height are at most the share of the quadrant,
    [scale] or [1 - scale]. *)
Theorem X10_box_stays_on_its_side q scale_x scale_y x y w h :
  is_float scale_x -> is_float scale_y ->
  is_float x -> is_float y -> is_float w -> is_float h ->
  open_unit scale_x -> open_unit scale_y ->
  closed_unit x -> closed_unit y -> closed_unit w -> closed_unit h ->
  (if is_left q then float_le (new_x q scale_x x) scale_x = true
   else float_le scale_x (new_x q scale_x x) = true) /\
  (if is_top q then float_le (new_y q scale_y y) scale_y = true
   else float_le scale_y (new_y q scale_y y) = true) /\
  float_le (new_w q scale_x w) (x_span q scale_x) = true /\
  float_le (new_h q scale_y h) (y_span q scale_y) = true.
Proof.
  intros Fsx Fsy Fx Fy Fw Fh Usx Usy Ux Uy Uw Uh.
  destruct (x_span_unit q scale_x Fsx Usx) as [Ftx Htx].
  destruct (y_span_unit q scale_y Fsy Usy) as [Fty Hty].
  split; [apply new_x_side; assumption|].
  split; [apply new_y_side; assumption|].
  rewrite new_w_span, new_h_span.
  split; apply mul_span_le; assumption.
Qed.

Lemma X10_witness :
  (if is_left TopRight then float_le (new_x TopRight (lit 4 10) (lit 5 10)) (lit 4 10) = true
   else float_le (lit 4 10) (new_x TopRight (lit 4 10) (lit 5 10)) = true) /\
  (if is_top TopRight then float_le (new_y TopRight (lit 6 10) (lit 5 10)) (lit 6 10) = true
   else float_le (lit 6 10) (new_y TopRight (lit 6 10) (lit 5 10)) = true) /\
  float_le (new_w TopRight (lit 4 10) (lit 2 10)) (x_span TopRight (lit 4 10)) = true /\
  float_le (new_h TopRight (lit 6 10) (lit 2 10)) (y_span TopRight (lit 6 10)) = true.
Proof.
  apply (X10_box_stays_on_its_side TopRight (lit 4 10) (lit 6 10)
           (lit 5 10) (lit 5 10) (lit 2 10) (lit 2 10));
    try reflexivity; split; vm_compute; reflexivity.
Defined.

(** ** The edges on the split lines *)

Lemma float_eq_Fval a b :
  finite a -> finite b -> float_eq a b = true <-> Fval a = Fval b.
Proof.
  intros Ha Hb. unfold float_eq, SFeqb. rewrite (SFcompare_Fval a b Ha Hb).
  destruct (Z.compare_spec (Fval a) (Fval b)); split; intros; try lia; try reflexivity;
    discriminate.
Qed.

(** [1.0 * t == t] *)
Lemma float_mul_one_l t :
  finite t -> 0 <= Fval t <= U -> float_eq (float_mul one t) t = true.
Proof.
  intros Ft Ht. pose proof U_pos as HU.
  destruct (float_mul_le_r one t finite_one Ft) as (F & V & _);
    [rewrite Fval_one; lia|lia|].
  apply (float_eq_Fval _ _ F Ft). rewrite V, Fval_one.
  replace (U * Fval t / U) with (Fval t)
    by (rewrite Z.mul_comm, Z.div_mul by lia; reflexivity).
  apply RNE_rep, rep_Fval; [exact Ft|lia].
Qed.

(** [0.0 * t + s == s] *)
Lemma float_affine_zero t s :
  finite t -> 0 <= Fval t <= U -> finite s -> 0 <= Fval s <= U ->
  float_eq (float_add (float_mul zero t) s) s = true.
Proof.
  intros Ft Ht Fs Hs. pose proof U_pos as HU.
  destruct (float_mul_le_l zero t (finite_zero false) Ft) as (Fp & _ & Hp);
    [change (Fval zero) with 0; lia|lia|].
  change (Fval zero) with 0 in Hp.
  assert (Ep : Fval (float_mul zero t) = 0) by lia.
  pose proof (rep_Fval s Fs ltac:(lia)) as Hrep.
  destruct (float_add_spec (float_mul zero t) s Fp Fs) as [F V].
  { rewrite Ep, Z.add_0_l, Z.abs_eq, (RNE_rep _ Hrep) by lia.
    pose proof (Fval_bound s Fs). lia. }
  apply (float_eq_Fval _ _ F Fs).
  rewrite V, Ep, Z.add_0_l, RNEs_nonneg, (RNE_rep _ Hrep) by lia. reflexivity.
Qed.

(** X11: for scales in (0,1) the edge of a quadrant's frame that lies
    on a split line is mapped onto the line exactly, rounding
    included: in the left quadrants [x = 1.0] becomes [scale_x], in the
    right ones [x = 0.0] becomes [scale_x] (as Python compares floats),
    and likewise [y] with [scale_y] in the top and bottom quadrants; and
    a box as wide (high) as its frame becomes as wide (high) as the
    quadrant's share, [scale] or [1 - scale]. *)
Theorem X11_edges_meet_on_the_split_lines q scale_x scale_y :
  is_float scale_x -> is_float scale_y -> open_unit scale_x -> open_unit scale_y ->
  float_eq (new_x q scale_x (if is_left q then one else zero)) scale_x = true /\
  float_eq (new_y q scale_y (if is_top q then one else zero)) scale_y = true /\
  float_eq (new_w q scale_x one) (x_span q scale_x) = true /\
  float_eq (new_h q scale_y one) (y_span q scale_y) = true.
Proof.
  intros Fsx Fsy Usx Usy.
  destruct (open_unit_Fval scale_x Fsx Usx) as [Fx HFx].
  destruct (open_unit_Fval scale_y Fsy Usy) as [Fy HFy].
  destruct (one_minus_unit scale_x Fsx Usx) as (Ftx & Htx & _).
  destruct (one_minus_unit scale_y Fsy Usy) as (Fty & Hty & _).
  destruct (x_span_unit q scale_x Fsx Usx) as [Fpx Hpx].
  destruct (y_span_unit q scale_y Fsy Usy) as [Fpy Hpy].
  rewrite new_w_span, new_h_span. unfold new_x, new_y.
  split; [|split; [|split]].
  - destruct (is_left q);
      [apply float_mul_one_l|apply float_affine_zero]; try assumption; lia.
  - destruct (is_top q);
      [apply float_mul_one_l|apply float_affine_zero]; try assumption; lia.
  - apply float_mul_one_l; assumption.
  - apply float_mul_one_l; assumption.
Qed.

Lemma X11_witness :
  float_eq (new_x BottomRight (lit 4 10) (if is_left BottomRight then one else zero))
    (lit 4 10) = true /\
  float_eq (new_y BottomRight (lit 6 10) (if is_top BottomRight then one else zero))
    (lit 6 10) = true /\
  float_eq (new_w BottomRight (lit 4 10) one) (x_span BottomRight (lit 4 10)) = true /\
  float_eq (new_h BottomRight (lit 6 10) one) (y_span BottomRight (lit 6 10)) = true.
Proof.
  apply (X11_edges_meet_on_the_split_lines BottomRight (lit 4 10) (lit 6 10));
    try reflexivity; split; vm_compute; reflexivity.
Defined.

(** ** Drawing the four names *)

Lemma getitem_In {A} (population : list A) (i : Z) x :
  getitem population i = Ok x -> In x population.
Proof.
  unfold getitem, get_item.
  destruct (_ <? 0); [discriminate|].
  destruct (population !! _) as [a|] eqn:L; [|discriminate].
  intros [= <-]. apply list_elem_of_In. exact (list_elem_of_lookup_2 _ _ _ L).
Qed.

Lemma getitem_ok {A} (population : list A) (i : Z) :
  0 <= i < Z.of_nat (length population) -> exists x, getitem population i = Ok x.
Proof.
  intros Hi. unfold getitem, get_item.
  destruct (Z.ltb_spec i 0); [lia|]. destruct (Z.ltb_spec i 0); [lia|].
  destruct (lookup_lt_is_Some_2 population (Z.to_nat i) ltac:(lia)) as [x ->].
  exists x. reflexivity.
Qed.

(** [float(n) + 0.0] for [0 < n <= 2^53]. *)
Lemma float_of_len n :
  0 < n <= 2 ^ 53 ->
  exists A, float_of_int n = Ok A /\ finite (float_add A zero) /\
            Fval (float_add A zero) = n * U.
Proof.
  intros Hn. pose proof U_pos as HU.
  destruct (float_of_int_exact n Hn) as (EA & FA & VA).
  exists (binary_normalize prec emax n 0 false). split; [exact EA|].
  pose proof (rep_small_int n Hn) as Hrep.
  destruct (float_add_spec _ zero FA (finite_zero false)) as [F V].
  { change (Fval zero) with 0. rewrite Z.add_0_r, VA, Z.abs_eq by nia.
    rewrite (RNE_rep _ Hrep).
    apply Z.le_lt_trans with (2 ^ 53 * U); [apply Z.mul_le_mono_nonneg_r; lia|].
    unfold U. rewrite <- Z.pow_add_r by (unfold scale; lia).
    apply Z.pow_lt_mono_r; unfold emax, scale; lia. }
  change (Fval zero) with 0 in V. rewrite Z.add_0_r, VA in V.
  rewrite RNEs_nonneg, (RNE_rep _ Hrep) in V by nia.
  split; assumption.
Qed.

(** [floor(r * n)] for [0 <= r < 1] is an index below [n]. *)
Lemma floor_scaled r nf n :
  0 < n <= 2 ^ 53 -> finite nf -> Fval nf = n * U ->
  finite r -> 0 <= Fval r < U ->
  exists i, math_floor (float_mul r nf) = Ok i /\ 0 <= i < n.
Proof.
  intros Hn Fn Vn Fr Hr. pose proof U_pos as HU.
  assert (Hv : Fval r * Fval nf / 2 ^ scale = n * Fval r).
  { fold U. rewrite Vn. replace (Fval r * (n * U)) with (n * U * Fval r) by ring.
    apply scaled_value. }
  assert (Hlt : RNE (n * Fval r) < n * U).
  { apply RNE_scaled_below; [exact Hn|]. split; [lia|].
    apply rep_below_U; [apply rep_Fval; [exact Fr|lia]|lia]. }
  destruct (float_mul_spec r nf Fr Fn) as [F V].
  { rewrite Z.abs_eq by (rewrite Vn; nia). rewrite Hv.
    apply Z.lt_le_trans with (1 := Hlt).
    apply Z.le_trans with (2 ^ 53 * U); [apply Z.mul_le_mono_nonneg_r; lia|].
    unfold U. rewrite <- Z.pow_add_r by (unfold scale; lia).
    apply Z.pow_le_mono_r; unfold emax, scale; lia. }
  rewrite Hv, RNEs_nonneg in V by nia.
  pose proof (RNE_nonneg (n * Fval r) ltac:(nia)) as H0. rewrite <- V in H0.
  pose proof (float_floor_int _ F H0) as Hfl.
  rewrite (int_of_float_Fval _ F H0) in Hfl. injection Hfl as Hfl.
  exists (float_floor (float_mul r nf)). split.
  - destruct F as [_ T]. unfold math_floor.
    destruct (float_mul r nf); try contradiction; reflexivity.
  - rewrite <- Hfl. split; [apply Z.div_pos; lia|].
    apply Z.div_lt_upper_bound; [lia|]. rewrite V. lia.
Qed.

Section Draws.

Context {world : Type}.
Variable random : world -> float * world.

Lemma choices_items_inv {A} (population : list A) n k : forall w l w',
  choices_items random population n k w = (Ok l, w') ->
  length l = k /\ (forall x, In x l -> In x population).
Proof.
  induction k as [|k IH]; intros w l w'; cbn [choices_items].
  - intros [= <- <-]. split; [reflexivity|]. intros x [].
  - destruct (random w) as [r w1].
    destruct (i ← math_floor (float_mul r n); getitem population i) as [x|e] eqn:E;
      [|discriminate].
    destruct (choices_items random population n k w1) as [[xs|e] w2] eqn:Er;
      [|discriminate].
    intros [= <- <-]. destruct (IH _ _ _ Er) as [Hl Hin].
    split; [cbn [length]; rewrite Hl; reflexivity|].
    intros y [<-|Hy]; [|exact (Hin y Hy)].
    destruct (math_floor (float_mul r n)) as [i|e]; [|discriminate].
    exact (getitem_In _ _ _ E).
Qed.

(** Whatever the generator yields, the names [random.choices] returns
    are [k] names of the population. *)
Lemma choices_inv {A} (population : list A) k w l w' :
  choices random population k w = (Ok l, w') ->
  length l = k /\ (forall x, In x l -> In x population).
Proof.
  unfold choices. destruct (float_of_int _) as [n|e]; [|discriminate].
  apply choices_items_inv.
Qed.

(** The generator yields floats in [0, 1). *)
Hypothesis random_unit :
  forall w, finite (fst (random w)) /\ 0 <= Fval (fst (random w)) < U.

Lemma choices_items_ok {A} (population : list A) nf k :
  0 < Z.of_nat (length population) <= 2 ^ 53 ->
  finite nf -> Fval nf = Z.of_nat (length population) * U ->
  forall w, exists l w', choices_items random population nf k w = (Ok l, w').
Proof.
  intros Hn Fn Vn. induction k as [|k IH]; intros w; cbn [choices_items].
  - eauto.
  - pose proof (random_unit w) as [Fr Hr]. destruct (random w) as [r w1].
    cbn [fst] in Fr, Hr.
    destruct (floor_scaled r nf _ Hn Fn Vn Fr Hr) as (i & -> & Hi).
    cbn [mbind result_bind].
    destruct (getitem_ok population i Hi) as [x ->].
    destruct (IH w1) as (l & w' & ->). eauto.
Qed.

Lemma choices_ok {A} (population : list A) k w :
  0 < Z.of_nat (length population) <= 2 ^ 53 ->
  exists l w', choices random population k w = (Ok l, w').
Proof.
  intros Hn. destruct (float_of_len _ Hn) as (A0 & EA & F & V).
  unfold choices. rewrite EA. apply choices_items_ok; assumption.
Qed.

(** From an empty population the first draw raises [IndexError]. *)
Lemma choices_empty {A} k w :
  choices random (@nil A) (S k) w = (Raise IndexError, snd (random w)).
Proof.
  unfold choices. change (float_of_int (Z.of_nat (length (@nil A)))) with (Ok zero).
  change (float_add zero zero) with zero. cbn [choices_items].
  pose proof (random_unit w) as [[_ T] _]. destruct (random w) as [r w1].
  cbn [fst snd] in *. destruct r; try contradiction; reflexivity.
Qed.

End Draws.

(** ** Runs of the script *)

Section ScriptRuns.

Context {label world ignored : Type}.
Variable preprocess :
  string -> string -> string -> world -> result (string * string * ignored) * world.
Variable read_label : string -> world -> result (list bbox * list label) * world.
Variable read_img : string -> world -> result image * world.
Variable compose_random_resized_crop :
  Z -> Z -> Z -> float ->
  result (image -> list bbox -> list label -> world ->
          result (cropped (label := label)) * world).
Variable memory : Z -> Z -> pixel.
Variable random : world -> float * world.
Variable create_args : world -> ended namespace * world.
Variable osp_exists : string -> world -> bool * world.
Variable os_makedirs : string -> world -> ended unit * world.
Variable print : string -> world -> unit * world.
Variable os_listdir : string -> world -> ended (list string) * world.
Variable sep : string.

Local Abbreviation the_main :=
  (main preprocess read_label read_img compose_random_resized_crop memory random
     create_args osp_exists os_makedirs print os_listdir sep).
Local Abbreviation the_listing :=
  (main_listing (label := label) create_args osp_exists os_makedirs print os_listdir).
Local Abbreviation the_augment :=
  (main_augment preprocess read_label read_img compose_random_resized_crop memory
     random sep).
Local Abbreviation the_mosaic_of :=
  (main_mosaic preprocess read_label read_img compose_random_resized_crop memory sep).
Local Abbreviation the_run_completes args names :=
  (completes preprocess read_label read_img compose_random_resized_crop memory
     names (arg_ip_dir args) (arg_ip_dir args) (arg_op_dir args) (arg_op_dir args)
     (arg_width args) (arg_height args) (arg_scale_x args) (arg_scale_y args)
     (arg_min_area args) (arg_min_vi args) sep).

(** The script is its two halves, one after the other. *)
Lemma main_halves (st : state (label := label) (world := world)) :
  the_main st =
  match the_listing st with
  | (Returned (args, listing), st1) => the_augment args listing st1
  | (Aborted e, st1) => (Aborted e, st1)
  end.
Proof.
  unfold main, main_listing, main_augment, main_mosaic, and_then, system,
    system_total, done.
  destruct (create_args (st_world st)) as [[args|e] w1]; [|reflexivity].
  cbn [st_world st_files].
  destruct (osp_exists (arg_op_dir args) w1) as [ex w2]. cbn [st_world st_files].
  destruct ex; cbn [negb st_world st_files].
  - destruct (print _ w2) as [u w3]. cbn [st_world st_files].
    destruct (os_listdir (arg_ip_dir args) w3) as [[listing|e] w4]; reflexivity.
  - destruct (os_makedirs (arg_op_dir args) w2) as [[u0|e] w3]; [|reflexivity].
    cbn [st_world st_files].
    destruct (print _ w3) as [u w4]. cbn [st_world st_files].
    destruct (os_listdir (arg_ip_dir args) w4) as [[listing|e] w5]; reflexivity.
Qed.

Lemma main_listing_keeps_files (st : state (label := label) (world := world)) :
  st_files (snd (the_listing st)) = st_files st.
Proof.
  unfold main_listing, and_then, system, system_total, done.
  destruct (create_args (st_world st)) as [[args|e] w1]; [|reflexivity].
  cbn [st_world st_files].
  destruct (osp_exists (arg_op_dir args) w1) as [ex w2]. cbn [st_world st_files].
  destruct ex; cbn [negb st_world st_files].
  - destruct (print _ w2) as [u w3]. cbn [st_world st_files].
    destruct (os_listdir (arg_ip_dir args) w3) as [[listing|e] w4]; reflexivity.
  - destruct (os_makedirs (arg_op_dir args) w2) as [[u0|e] w3]; [|reflexivity].
    cbn [st_world st_files].
    destruct (print _ w3) as [u w4]. cbn [st_world st_files].
    destruct (os_listdir (arg_ip_dir args) w4) as [[listing|e] w5]; reflexivity.
Qed.

Lemma main_augment_abort_keeps_files args listing
    (st1 : state (label := label) (world := world)) e :
  fst (the_augment args listing st1) = Aborted e ->
  st_files (snd (the_augment args listing st1)) = st_files st1.
Proof.
  unfold main_augment, and_then, uncaught.
  pose proof (call_keeps_files (choices random (List.filter is_pic listing) 4) st1) as Hc.
  destruct (call (choices random (List.filter is_pic listing) 4) st1) as [[names|e0] st2];
    cbn [snd] in Hc; [|intros _; exact Hc].
  pose proof (mosaic_raise_keeps_files preprocess read_label read_img
                compose_random_resized_crop memory names (arg_ip_dir args)
                (arg_ip_dir args) (arg_op_dir args) (arg_op_dir args)
                (arg_width args) (arg_height args) (arg_scale_x args)
                (arg_scale_y args) (arg_min_area args) (arg_min_vi args) false sep st2)
    as Hm.
  unfold main_mosaic.
  destruct (mosaic _ _ _ _ _ _ _ _ _ _ _ _ _ _ _ _ _ _ st2) as [[u|e0] st3];
    cbn [fst snd] in *; [discriminate|].
  intros _. rewrite (Hm e0 eq_refl). exact Hc.
Qed.

(** X14: the script writes nothing unless it returns: whether the
    argument parser exits, a call of the operating system fails, no
    name can be drawn or [mosaic] raises, a run that does not return
    leaves the image and the label file unwritten. *)
Theorem X14_failing_script_writes_nothing
    (st : state (label := label) (world := world)) e :
  fst (the_main st) = Aborted e ->
  st_files (snd (the_main st)) = st_files st.
Proof.
  rewrite main_halves. pose proof (main_listing_keeps_files st) as Hl.
  destruct (the_listing st) as [[[args listing]|e0] st1]; cbn [snd] in Hl.
  - intros H. rewrite (main_augment_abort_keeps_files _ _ _ _ H). exact Hl.
  - intros _. exact Hl.
Qed.

(** X15: line 249 draws the four names from the image names of the
    listing, with replacement.  When the generator yields floats in
    [0, 1): if the listing holds no image name, the first draw raises
    [IndexError] and the script ends there, [mosaic] is not entered and
    nothing is written; otherwise (for at most [2^53] names) the
    draw never fails, it returns four names, each an image name of the
    listing, and the script goes on to [mosaic] with them; with a
    single image name all four names are that one. *)
Theorem X15_four_names_are_drawn
    (st : state (label := label) (world := world)) args listing st1 :
  (forall w, finite (fst (random w)) /\ 0 <= Fval (fst (random w)) < U) ->
  the_listing st = (Returned (args, listing), st1) ->
  (List.filter is_pic listing = [] ->
   the_main st = (Aborted (Uncaught IndexError),
                  {| st_world := snd (random (st_world st1));
                     st_files := st_files st |})) /\
  (List.filter is_pic listing <> [] ->
   Z.of_nat (length (List.filter is_pic listing)) <= 2 ^ 53 ->
   exists names st2,
     call (choices random (List.filter is_pic listing) 4) st1 = (Ok names, st2) /\
     length names = 4%nat /\
     (forall name, In name names -> In name listing /\ is_pic name = true) /\
     (forall only, List.filter is_pic listing = [only] ->
                   names = [only; only; only; only]) /\
     st_files st2 = st_files st /\
     the_main st = uncaught (the_mosaic_of args names) st2).
Proof.
  intros Hrandom Hl. pose proof (main_listing_keeps_files st) as Hf.
  rewrite Hl in Hf. cbn [snd] in Hf. split.
  - intros Hempty. rewrite main_halves, Hl.
    unfold main_augment, and_then, uncaught, call. rewrite Hempty.
    rewrite (choices_empty random Hrandom). rewrite Hf. reflexivity.
  - intros Hne Hlen.
    assert (Hpos : 0 < Z.of_nat (length (List.filter is_pic listing)) <= 2 ^ 53).
    { split; [|exact Hlen]. destruct (List.filter is_pic listing); [congruence|].
      cbn [length]. lia. }
    destruct (choices_ok random Hrandom (List.filter is_pic listing) 4 (st_world st1) Hpos)
      as (names & w2 & Ec).
    destruct (choices_inv random _ _ _ _ _ Ec) as [Hlen4 Hin].
    exists names, {| st_world := w2; st_files := st_files st1 |}.
    assert (Ecall : call (choices random (List.filter is_pic listing) 4) st1 =
                    (Ok names, {| st_world := w2; st_files := st_files st1 |})).
    { unfold call. rewrite Ec. reflexivity. }
    split; [exact Ecall|]. split; [exact Hlen4|]. split; [|split; [|split]].
    + intros name Hn. apply List.filter_In. exact (Hin name Hn).
    + intros only Ho. rewrite Ho in Hin.
      assert (Hall : forall x, In x names -> x = only).
      { intros x Hx. destruct (Hin x Hx) as [<-|[]]. reflexivity. }
      destruct names as [|a [|b [|c [|d [|]]]]]; cbn [length] in Hlen4; try lia.
      rewrite (Hall a), (Hall b), (Hall c), (Hall d); cbn [In]; auto.
    + exact Hf.
    + rewrite main_halves, Hl. unfold main_augment, and_then.
      unfold uncaught at 1. rewrite Ecall. reflexivity.
Qed.

(** X16: when the script returns it has written exactly two files, both
    into the output directory [op_dir] and under one stem:
    [<op_dir><sep><stem>.jpg], holding an image of [height] x [width]
    pixels, and [<op_dir><sep><stem>.txt]; the run of [mosaic] behind
    them was made with four names, each an image name found in the
    listing of [ip_dir], from which images and labels alike are read. *)
Theorem X16_script_outputs (st : state (label := label) (world := world)) u st' :
  the_main st = (Returned u, st') ->
  exists args listing st1 names st2 (r : run) stem,
    the_listing st = (Returned (args, listing), st1) /\
    call (choices random (List.filter is_pic listing) 4) st1 = (Ok names, st2) /\
    length names = 4%nat /\
    (forall name, In name names -> In name listing /\ is_pic name = true) /\
    the_run_completes args names st2 r /\
    st_files st' = st_files st ++
      [ImageFile (arg_op_dir args +:+ sep +:+ (stem +:+ ".jpg")) (run_img r BottomRight);
       LabelFile (arg_op_dir args +:+ sep +:+ (stem +:+ ".txt"))
         (new_bboxes (arg_scale_x args) (arg_scale_y args) r) (new_class_labels r)] /\
    height (run_img r BottomRight) = arg_height args /\
    width (run_img r BottomRight) = arg_width args.
Proof.
  rewrite main_halves. pose proof (main_listing_keeps_files st) as Hf.
  destruct (the_listing st) as [[[args listing]|e0] st1]; [|discriminate].
  cbn [snd] in Hf. unfold main_augment, and_then. unfold uncaught at 1.
  pose proof (call_keeps_files (choices random (List.filter is_pic listing) 4) st1) as Hc.
  destruct (call (choices random (List.filter is_pic listing) 4) st1)
    as [[names|e0] st2] eqn:Ecall; [|discriminate].
  cbn [snd] in Hc. unfold uncaught, main_mosaic.
  destruct (mosaic _ _ _ _ _ _ _ _ _ _ _ _ _ _ _ _ _ _ st2) as [[u0|e0] st3] eqn:Em;
    [|discriminate].
  intros [= <- <-].
  apply mosaic_ok_inv in Em. destruct Em as (r & Hcomp & ->).
  assert (Ec : exists w2, choices random (List.filter is_pic listing) 4 (st_world st1)
                          = (Ok names, w2)).
  { unfold call in Ecall.
    destruct (choices random (List.filter is_pic listing) 4 (st_world st1)) as [res w2].
    injection Ecall as -> _. eauto. }
  destruct Ec as [w2 Ec]. destruct (choices_inv random _ _ _ _ _ Ec) as [Hlen4 Hin].
  pose proof Hcomp as (Hnp & _ & [_ S0] & [_ S1] & [_ S2] & [_ S3] & Hpath).
  destruct (create_data_store_path_stem _ _ _ _ _ _ Hpath) as (stem & Hip & Hlp & _).
  apply np_empty_inv in Hnp. destruct Hnp as (_ & _ & _ & Ecanvas).
  apply set_region_inv in S0, S1, S2, S3.
  destruct S0 as (Hh0 & Hw0 & _), S1 as (Hh1 & Hw1 & _),
           S2 as (Hh2 & Hw2 & _), S3 as (Hh3 & Hw3 & _).
  exists args, listing, st1, names, st2, r, stem.
  split; [reflexivity|]. split; [exact Ecall|]. split; [exact Hlen4|].
  split; [intros name Hn; apply List.filter_In; exact (Hin name Hn)|].
  split; [exact Hcomp|]. split.
  - unfold outcome. cbn [st_files]. rewrite Hc, Hf, Hip, Hlp. reflexivity.
  - split; [rewrite Hh3, Hh2, Hh1, Hh0, Ecanvas; reflexivity|].
    rewrite Hw3, Hw2, Hw1, Hw0, Ecanvas; reflexivity.
Qed.


End ScriptRuns.

(** ** The sample call and the sample script, once more *)


Lemma sample_random_unit (calls : nat) :
  finite (fst (sample_random calls)) /\ 0 <= Fval (fst (sample_random calls)) < U.
Proof.
  unfold sample_random. cbn [fst].
  pose proof (Nat.mod_upper_bound calls 4 ltac:(lia)) as H.
  destruct (calls mod 4)%nat as [|[|[|[|n]]]]; try lia;
    (split; [split; [reflexivity|vm_compute; exact I]|]);
    (split; [apply Z.leb_le|apply Z.ltb_lt]); vm_compute; reflexivity.
Qed.

Lemma X6_witness :
  exists e,
    sample_mosaic [sample_box] S754_nan (lit 6 10) sample_state = (Raise e, sample_state) /\
    (e = ValueError \/ e = OverflowError) /\
    (S754_nan = S754_nan -> e = ValueError) /\
    (forall b, S754_nan = S754_infinity b -> e = OverflowError).
Proof.
  apply (X6_scale_not_a_number sample_preprocess (sample_read_label [sample_box])
           sample_read_img sample_compose sample_memory
           sample_names "in" "in" "out" "out" 800 800 S754_nan (lit 6 10)
           200 (lit 1 10) false "/" sample_state sample_canvas).
  - vm_compute. reflexivity.
  - lia.
  - lia.
  - reflexivity.
  - reflexivity.
  - left. intros [_ []].
Defined.

Lemma X7_witness :
  exists r : run,
    sample_completes [sample_box] (lit 4 10) (lit 6 10) sample_state r /\
    In (ImageFile (run_image_path r) (run_img r BottomRight))
       (st_files (outcome (lit 4 10) (lit 6 10) sample_state (sample_run [sample_box]))) /\
    height (run_img r BottomRight) = 800 /\
    width (run_img r BottomRight) = 800 /\
    (forall q row col,
       in_region (quadrant_region q 800 800 (run_div_y r) (run_div_x r)) row col = true ->
       pix (run_img r BottomRight) row col =
       pix (transformed_image (run_crop r q))
         (if height (transformed_image (run_crop r q)) =? 1 then 0
          else row - row_lo (quadrant_region q 800 800 (run_div_y r) (run_div_x r)))
         (if width (transformed_image (run_crop r q)) =? 1 then 0
          else col - col_lo (quadrant_region q 800 800 (run_div_y r) (run_div_x r)))) /\
    (forall row col, 0 <= row < 800 -> 0 <= col < 800 ->
       exists q,
         in_region (quadrant_region q 800 800 (run_div_y r) (run_div_x r)) row col = true).
Proof.
  apply (X7_saved_image_is_made_of_crops sample_preprocess
           (sample_read_label [sample_box]) sample_read_img sample_compose sample_memory
           sample_names "in" "in" "out" "out" 800 800 (lit 4 10) (lit 6 10)
           200 (lit 1 10) false "/" sample_state tt
           (outcome (lit 4 10) (lit 6 10) sample_state (sample_run [sample_box]))).
  vm_compute. reflexivity.
Defined.


Lemma X9_witness :
  let two_names :=
    mosaic sample_preprocess (sample_read_label [sample_box]) sample_read_img
      sample_compose sample_memory ["a.jpg"; "b.jpg"]%string "in" "in" "out" "out"
      800 800 (lit 4 10) (lit 6 10) 200 (lit 1 10) false "/" in
  (exists e, fst (two_names sample_state) = Raise e /\
             st_files (snd (two_names sample_state)) = st_files sample_state) /\
  (forall canvas dx dy l st1,
     np_empty sample_memory 800 800 = Ok canvas ->
     split_points 800 800 (lit 4 10) (lit 6 10) = Ok (dx, dy) ->
     for_range
       (quadrant_body sample_preprocess (sample_read_label [sample_box]) sample_read_img
          sample_compose ["a.jpg"; "b.jpg"]%string "in" "in" 800 800
          (lit 4 10) (lit 6 10) 200 (lit 1 10) dx dy)
       (map Z.of_nat (seq 0 (length ["a.jpg"; "b.jpg"]%string)))
       {| new_img := canvas; branch_0 := None; branch_1 := None;
          branch_2 := None; branch_3 := None |} sample_state = (Ok l, st1) ->
     two_names sample_state = (Raise IndexError, st1) /\
     st_files st1 = st_files sample_state).
Proof.
  intros two_names.
  apply (X9_fewer_than_four_names sample_preprocess (sample_read_label [sample_box])
           sample_read_img sample_compose sample_memory
           ["a.jpg"; "b.jpg"]%string "in" "in" "out" "out" 800 800 (lit 4 10) (lit 6 10)
           200 (lit 1 10) false "/" sample_state).
  cbn [length]. lia.
Defined.


Lemma X14_witness :
  st_files (snd (sample_main [sample_box] ["x.txt"; "A.JPG"]%string sample_state)) =
  st_files sample_state.
Proof.
  apply (X14_failing_script_writes_nothing sample_preprocess
           (sample_read_label [sample_box]) sample_read_img sample_compose sample_memory
           sample_random sample_create_args sample_exists sample_makedirs sample_print
           (sample_listdir ["x.txt"; "A.JPG"]%string) "/" sample_state
           (Uncaught IndexError)).
  vm_compute. reflexivity.
Defined.

Lemma X15_witness :
  (List.filter is_pic sample_listing = [] ->
   sample_main [sample_box] sample_listing sample_state =
     (Aborted (Uncaught IndexError),
      {| st_world := snd (sample_random (st_world sample_state));
         st_files := st_files sample_state |})) /\
  (List.filter is_pic sample_listing <> [] ->
   Z.of_nat (length (List.filter is_pic sample_listing)) <= 2 ^ 53 ->
   exists names st2,
     call (choices sample_random (List.filter is_pic sample_listing) 4) sample_state
       = (Ok names, st2) /\
     length names = 4%nat /\
     (forall name, In name names -> In name sample_listing /\ is_pic name = true) /\
     (forall only, List.filter is_pic sample_listing = [only] ->
                   names = [only; only; only; only]) /\
     st_files st2 = st_files sample_state /\
     sample_main [sample_box] sample_listing sample_state =
       uncaught
         (main_mosaic sample_preprocess (sample_read_label [sample_box]) sample_read_img
            sample_compose sample_memory "/" sample_args names) st2).
Proof.
  apply (X15_four_names_are_drawn sample_preprocess (sample_read_label [sample_box])
           sample_read_img sample_compose sample_memory
           sample_random sample_create_args sample_exists sample_makedirs sample_print
           (sample_listdir sample_listing) "/" sample_state sample_args sample_listing
           sample_state).
  - exact sample_random_unit.
  - vm_compute. reflexivity.
Defined.

Lemma X16_witness :
  exists args listing st1 names st2 (r : run) stem,
    main_listing sample_create_args sample_exists sample_makedirs sample_print
      (sample_listdir sample_listing) sample_state = (Returned (args, listing), st1) /\
    call (choices sample_random (List.filter is_pic listing) 4) st1 = (Ok names, st2) /\
    length names = 4%nat /\
    (forall name, In name names -> In name listing /\ is_pic name = true) /\
    completes sample_preprocess (sample_read_label []) sample_read_img sample_compose
      sample_memory names (arg_ip_dir args) (arg_ip_dir args)
      (arg_op_dir args) (arg_op_dir args) (arg_width args) (arg_height args)
      (arg_scale_x args) (arg_scale_y args) (arg_min_area args) (arg_min_vi args)
      "/" st2 r /\
    st_files (snd (sample_main [] sample_listing sample_state)) =
      st_files sample_state ++
      [ImageFile (arg_op_dir args +:+ "/" +:+ (stem +:+ ".jpg")) (run_img r BottomRight);
       LabelFile (arg_op_dir args +:+ "/" +:+ (stem +:+ ".txt"))
         (new_bboxes (arg_scale_x args) (arg_scale_y args) r) (new_class_labels r)] /\
    height (run_img r BottomRight) = arg_height args /\
    width (run_img r BottomRight) = arg_width args.
Proof.
  apply (X16_script_outputs sample_preprocess (sample_read_label [])
           sample_read_img sample_compose sample_memory
           sample_random sample_create_args sample_exists sample_makedirs sample_print
           (sample_listdir sample_listing) "/" sample_state tt
           (snd (sample_main [] sample_listing sample_state))).
  vm_compute. reflexivity.
Defined.

Lemma X13_witness :
  float_le one (S754_finite false 5629499534213120 (-44)) = true /\
  float_le one (S754_finite false 8444249301319680 (-44)) = true.
Proof.
  apply (X13_returning_run_has_room sample_preprocess (sample_read_label [sample_box])
           sample_read_img sample_compose sample_memory
           sample_names "in" "in" "out" "out" 800 800 (lit 4 10) (lit 6 10)
           200 (lit 1 10) false "/" sample_state tt
           (outcome (lit 4 10) (lit 6 10) sample_state (sample_run [sample_box]))).
  - exact (sample_cropper_rejects [sample_box]).
  - lia.
  - lia.
  - reflexivity.
  - reflexivity.
  - split; vm_compute; reflexivity.
  - split; vm_compute; reflexivity.
  - vm_compute. reflexivity.
  - vm_compute. reflexivity.
  - vm_compute. reflexivity.
Defined.

